(** * Test Data Generation Engine: a shallow embedding of
    [src/test-data-generator.tsx] and the properties of its generator.

    Conventions of the embedding.
    - JavaScript numbers that the engine manipulates are integers; they are
      modelled by [Z] with exact arithmetic (the rounding of doubles beyond
      2^53 and [NaN] are outside the model).  The one fractional literal of
      the source, [123.456], is kept as a scaled integer.
    - Strings are sequences of 8-bit code units ([string]); the character
      classes of the source ([\s], [\d], [A-Z], [a-z], [toLowerCase]) are
      given on that range.  The upper limit of the engine on the length of
      a string is not modelled.
    - The union [FieldConfig["dataType"]] is the closed enumeration that
      the interface declares.  The union [FieldConfig["type"]] has one more
      value besides the six declared ones, since the schema import stores
      [prop.type] as it finds it; an optional member is an [option].
    - [Math.random()] and [Date.now()] read an oracle ([World]); the position
      of the next read is threaded as state ([Cursor]).  A draw is the
      fraction [k / 2^53] with [0 <= k < 2^53], and products with a draw
      are exact.
    - A thrown JavaScript exception is an explicit outcome ([Throws]).
    - A generated record (a JavaScript object used as a dictionary) is a
      finite map from the names of its own properties to their values; the
      order of the keys plays no role in the engine.  While a record is
      filled its prototype is tracked as well, since it decides what an
      assignment to the name [__proto__] does. *)

From stdpp Require Import gmap strings list fin_maps.
From Stdlib Require Import ZArith Lia Ascii DecimalString.

Open Scope Z_scope.

(** ** Strings *)

Module Str.

Definition code (c : ascii) : Z := Z.of_N (Ascii.N_of_ascii c).
Definition chr (z : Z) : ascii := Ascii.ascii_of_N (Z.to_N z).

(** [\d] *)
Definition is_digit (c : ascii) : bool := (48 <=? code c) && (code c <=? 57).
(** [[A-Z]] *)
Definition is_upper (c : ascii) : bool := (65 <=? code c) && (code c <=? 90).
(** [[a-z]] *)
Definition is_lower (c : ascii) : bool := (97 <=? code c) && (code c <=? 122).
(** [\s], and the characters removed by [trim]: TAB, LF, VT, FF, CR, SP,
    NBSP. *)
Definition is_ws (c : ascii) : bool :=
  ((9 <=? code c) && (code c <=? 13)) || (code c =? 32) || (code c =? 160).

(** [String.prototype.toLowerCase], per code unit. *)
Definition lower_char (c : ascii) : ascii :=
  let n := code c in
  if is_upper c then chr (n + 32)
  else if (192 <=? n) && (n <=? 222) && negb (n =? 215) then chr (n + 32)
  else c.

Fixpoint map (f : ascii → ascii) (s : string) : string :=
  match s with
  | "" => ""
  | String c s' => String (f c) (map f s')
  end.

Definition toLowerCase (s : string) : string := map lower_char s.

Fixpoint filter (p : ascii → bool) (s : string) : string :=
  match s with
  | "" => ""
  | String c s' => if p c then String c (filter p s') else filter p s'
  end.

Fixpoint forallb (p : ascii → bool) (s : string) : bool :=
  match s with
  | "" => true
  | String c s' => p c && forallb p s'
  end.

Fixpoint existsb (p : ascii → bool) (s : string) : bool :=
  match s with
  | "" => false
  | String c s' => p c || existsb p s'
  end.

Definition eqb (a b : string) : bool := bool_decide (a = b).

Definition is_empty (s : string) : bool :=
  match s with "" => true | _ => false end.

(** A non-empty string is truthy. *)
Definition truthy (s : string) : bool := negb (is_empty s).

Fixpoint trimStart (s : string) : string :=
  match s with
  | "" => ""
  | String c s' => if is_ws c then trimStart s' else s
  end.

Fixpoint trimEnd (s : string) : string :=
  match s with
  | "" => ""
  | String c s' =>
      let t := trimEnd s' in
      if is_ws c && is_empty t then "" else String c t
  end.

(** [String.prototype.trim] *)
Definition trim (s : string) : string := trimEnd (trimStart s).

Definition length (s : string) : Z := Z.of_nat (String.length s).

(** [s.substring(0, n)]: a negative [n] counts as 0. *)
Fixpoint take (n : nat) (s : string) : string :=
  match n, s with
  | S k, String c s' => String c (take k s')
  | _, _ => ""
  end.

Fixpoint drop (n : nat) (s : string) : string :=
  match n, s with
  | S k, String _ s' => drop k s'
  | _, _ => s
  end.

(** [s.substring(a, b)] for [0 <= a <= b]. *)
Definition substring (a b : nat) (s : string) : string :=
  take (b - a) (drop a s).

Definition substring0 (n : Z) (s : string) : string := take (Z.to_nat n) s.

(** [c.repeat(n)] for a one-character string and [n >= 0]. *)
Fixpoint repeat (c : ascii) (n : nat) : string :=
  match n with
  | O => ""
  | S k => String c (repeat c k)
  end.

(** [s.replace(/\s+/g, "_")]: [in_run] tells that the previous character
    belonged to the run being replaced. *)
Fixpoint underscore_ws (in_run : bool) (s : string) : string :=
  match s with
  | "" => ""
  | String c s' =>
      if is_ws c
      then (if in_run then underscore_ws true s'
            else String "_"%char (underscore_ws true s'))
      else String c (underscore_ws false s')
  end.

(** [s.split("@")]: the pieces between the separators, in order. *)
Fixpoint split_at (sep : ascii) (s : string) : list string :=
  match s with
  | "" => [""]
  | String c s' =>
      if bool_decide (c = sep) then "" :: split_at sep s'
      else match split_at sep s' with
           | [] => [String c ""]
           | p :: ps => String c p :: ps
           end
  end.

(** Decimal rendering of an integer, as [Number.prototype.toString]. *)
Definition of_Z (z : Z) : string := NilZero.string_of_int (Z.to_int z).

(** [Number.parseInt] on a string of decimal digits. *)
Definition parse_digits (s : string) : Z :=
  (fix go (acc : Z) (s : string) : Z :=
     match s with
     | "" => acc
     | String c s' => go (10 * acc + (code c - 48)) s'
     end) 0 s.

(** Left padding with zeros to a width. *)
Definition pad0 (width : nat) (s : string) : string :=
  repeat "0"%char (width - String.length s) +:+ s.

End Str.

(** ** Values, field configurations, recorded commands *)

Inductive Value : Type :=
| VNull
| VBool (b : bool)
| VNum (z : Z)
| VDec (digits : Z) (scale : nat)   (** [digits / 10^scale] *)
| VStr (s : string).

Global Instance Value_eq_dec : EqDecision Value.
Proof. solve_decision. Defined.

(** [FieldConfig["type"]]: the six declared types, and [ft_other] for any
    other value of the member.  The engine only compares a type with the
    six literals, so the values outside the union need not be told apart. *)
Inductive FieldType : Type :=
| ft_string | ft_number | ft_boolean | ft_date | ft_email | ft_phone
| ft_other.

Inductive DataType : Type :=
| dt_static | dt_range | dt_lookup | dt_minmax | dt_pattern.

Global Instance FieldType_eq_dec : EqDecision FieldType.
Proof. solve_decision. Defined.
Global Instance DataType_eq_dec : EqDecision DataType.
Proof. solve_decision. Defined.

(** The strategy-specific bag [FieldConfig["config"]]; an absent key is
    [None].  ([csvFile] is only displayed, never read by the engine.) *)
Record Config : Type := mkConfig {
  staticValue : option string;
  rangeMin : option Z;
  rangeMax : option Z;
  lookupValues : option (list string);
  csvData : option (list (list string));
  csvColumn : option string;
  minLength : option Z;
  maxLength : option Z;
  pattern : option string
}.

Record FieldConfig : Type := mkField {
  id : string;
  name : string;
  type : FieldType;
  dataType : DataType;
  required : bool;
  maxFieldLength : option Z;
  generateNegativeTests : option bool;
  config : Config
}.

Definition emptyConfig : Config :=
  mkConfig None None None None None None None None None.

Record SidCommand : Type := mkCommand {
  cmd_id : string;
  label : option string;
  command : string;
  target : string;
  value : string;
  randomization : option string
}.

Record SidTest : Type := mkTest {
  test_id : string;
  test_name : string;
  commands : list SidCommand
}.

Record SidFile : Type := mkSidFile {
  file_id : string;
  version : string;
  file_name : string;
  url : string;
  tests : list SidTest
}.

(** ** Truthiness and defaults of optional members *)

(** [x || d] on an optional number: [undefined] and [0] both give [d]. *)
Definition num_or (x : option Z) (d : Z) : Z :=
  match x with
  | Some v => if v =? 0 then d else v
  | None => d
  end.

(** [x || d] on an optional string: [undefined] and [""] both give [d]. *)
Definition str_or (x : option string) (d : string) : string :=
  match x with
  | Some s => if Str.is_empty s then d else s
  | None => d
  end.

(** Truthiness of an optional number. *)
Definition num_truthy (x : option Z) : bool :=
  match x with
  | Some v => negb (v =? 0)
  | None => false
  end.

(** [x !== undefined] *)
Definition defined {A : Type} (x : option A) : bool :=
  match x with Some _ => true | None => false end.

Definition flag_truthy (x : option bool) : bool :=
  match x with Some b => b | None => false end.

Definition opt_str_truthy (x : option string) : bool :=
  match x with Some s => Str.truthy s | None => false end.

(** ** Effects: oracle reads and exceptions *)

Inductive Exn : Type := TypeError | RangeError.

(** The environment a run reads.  [random i] is the numerator of the i-th
    result of [Math.random()] (reduced modulo [2^53] when read); [clock i]
    is the i-th reading of [Date.now()], in milliseconds (brought into the
    range of [Date] when read).  The renderings of
    a drawn double by [Number.prototype.toString], in radix 10 and 36, are
    functions of its numerator. *)
Record World : Type := mkWorld {
  random : nat → Z;
  clock : nat → Z;
  toString10 : Z → string;
  toString36 : Z → string
}.

Record Cursor : Type := mkCursor { draws : nat; ticks : nat }.

(** A computation without state that may throw. *)
Inductive Try (A : Type) : Type :=
| Done (a : A)
| Raised (e : Exn).
Arguments Done {A} a.
Arguments Raised {A} e.

Inductive Outcome (A : Type) : Type :=
| Returns (a : A) (c : Cursor)
| Throws (e : Exn).
Arguments Returns {A} a c.
Arguments Throws {A} e.

Definition M (A : Type) : Type := World → Cursor → Outcome A.

Definition ret {A : Type} (a : A) : M A := fun _ c => Returns a c.

Definition bind {A B : Type} (m : M A) (k : A → M B) : M B :=
  fun w c =>
    match m w c with
    | Returns a c' => k a w c'
    | Throws e => Throws e
    end.

Definition lift {A : Type} (t : Try A) : M A :=
  fun _ c =>
    match t with
    | Done a => Returns a c
    | Raised e => Throws e
    end.

Notation "'do' x <- m ; k" := (bind m (fun x => k))
  (at level 10, x name, m at level 100, k at level 200).

Definition two53 : Z := 2 ^ 53.

(** [Math.random()]: the numerator [k] of the draw [k / 2^53]. *)
Definition Math_random : M Z :=
  fun w c =>
    Returns (random w (draws c) mod two53)
            (mkCursor (S (draws c)) (ticks c)).

(** A time since 1970 inside the range of [Date]: a reading of the clock
    is brought into that range. *)
Definition timeValue (z : Z) : Z := Z.max 0 (Z.min z 8640000000000000).

(** [Date.now()] *)
Definition Date_now : M Z :=
  fun w c =>
    Returns (timeValue (clock w (ticks c)))
            (mkCursor (draws c) (S (ticks c))).

(** [Math.floor(Math.random() * n)] *)
Definition floorRandom (n : Z) : M Z :=
  do k <- Math_random; ret (k * n / two53).

(** [list.forEach] threading the object that the callback mutates. *)
Fixpoint forEach {A S : Type} (f : S → A → M S) (l : list A) (s : S) : M S :=
  match l with
  | [] => ret s
  | x :: l' => do s' <- f s x; forEach f l' s'
  end.

(** A loop or [map] that builds an array, element by element. *)
Fixpoint collect {A B : Type} (f : A → M B) (l : list A) : M (list B) :=
  match l with
  | [] => ret []
  | x :: l' => do y <- f x; do ys <- collect f l'; ret (y :: ys)
  end.

(** ** Lookup Value Resolver: [getLookupValues] *)

(** [header.indexOf(col)], [None] for [-1]. *)
Fixpoint indexOf (col : string) (header : list string) : option nat :=
  match header with
  | [] => None
  | h :: rest =>
      if Str.eqb h col then Some O
      else match indexOf col rest with
           | Some i => Some (S i)
           | None => None
           end
  end.

(** [(v) => v.trim().length > 0] *)
Definition nonblank (v : string) : bool := 0 <? Str.length (Str.trim v).

Definition manualLookupValues (field : FieldConfig) : list string :=
  List.filter nonblank (default [] (lookupValues (config field))).

Definition getLookupValues (field : FieldConfig) : Try (list string) :=
  match csvData (config field), csvColumn (config field) with
  | Some data, Some col =>
      if Str.truthy col then
        match data with
        | [] => Raised TypeError            (* [csvData[0]] is undefined *)
        | header :: _ =>
            match indexOf col header with
            | Some columnIndex =>
                Done (List.filter nonblank
                        (List.map (fun row => nth columnIndex row "")
                                  (tail data)))
            | None => Done (manualLookupValues field)
            end
        end
      else Done (manualLookupValues field)
  | _, _ => Done (manualLookupValues field)
  end.

(** ** Value Synthesis Engine *)

Definition chars : string :=
  "ABCDEFGHIJKLMNOPQRSTUVWXYZabcdefghijklmnopqrstuvwxyz0123456789".

(** [chars.charAt(i)] *)
Definition charAt (i : Z) (s : string) : string :=
  match String.get (Z.to_nat i) s with
  | Some c => String c ""
  | None => ""
  end.

(** The loop [for (i = 0; i < length; i++) result += chars.charAt(...)]. *)
Fixpoint randomChars (n : nat) (result : string) : M string :=
  match n with
  | O => ret result
  | S k =>
      do i <- floorRandom (Str.length chars);
      randomChars k (result +:+ charAt i chars)
  end.

(** Calendar date of a day number (days since 1970-01-01), proleptic
    Gregorian, as [Date.prototype.toISOString] computes it. *)
Definition civil_from_days (days : Z) : Z * Z * Z :=
  let z := days + 719468 in
  let era := z / 146097 in
  let doe := z - era * 146097 in
  let yoe := (doe - doe / 1460 + doe / 36524 - doe / 146096) / 365 in
  let doy := doe - (365 * yoe + yoe / 4 - yoe / 100) in
  let mp := (5 * doy + 2) / 153 in
  let d := doy - (153 * mp + 2) / 5 + 1 in
  let m := if mp <? 10 then mp + 3 else mp - 9 in
  let y := yoe + era * 400 + (if m <=? 2 then 1 else 0) in
  (y, m, d).

Definition isoYear (y : Z) : string :=
  if (0 <=? y) && (y <=? 9999) then Str.pad0 4 (Str.of_Z y)
  else (if y <? 0 then "-" else "+") +:+ Str.pad0 6 (Str.of_Z (Z.abs y)).

(** [new Date(tv).toISOString().split("T")[0]] for the time value
    [tv = num / 2^53] milliseconds: the Date constructor rejects a value
    beyond 8.64e15 in magnitude (then [toISOString] throws) and truncates
    the others towards zero. *)
Definition isoDate (num : Z) : Try string :=
  if 8640000000000000 * two53 <? Z.abs num then Raised RangeError
  else
    let t := Z.quot num two53 in
    let '(y, m, d) := civil_from_days (t / 86400000) in
    Done (isoYear y +:+ "-" +:+ Str.pad0 2 (Str.of_Z m)
                    +:+ "-" +:+ Str.pad0 2 (Str.of_Z d)).

Definition generateRandomString (length : Z) (type : FieldType) : M Value :=
  do result <- randomChars (Z.to_nat length) "";
  match type with
  | ft_email => ret (VStr (Str.toLowerCase result +:+ "@example.com"))
  | ft_phone =>
      do n <- floorRandom 9000000000;
      ret (VStr ("+1" +:+ Str.of_Z (n + 1000000000)))
  | ft_number => do n <- floorRandom 1000; ret (VNum n)
  | ft_boolean => do k <- Math_random; ret (VBool (two53 <? 2 * k))
  | ft_date =>
      do now <- Date_now;
      do k <- Math_random;
      do d <- lift (isoDate
                      (now * two53 - k * (365 * 24 * 60 * 60 * 1000)));
      ret (VStr d)
  | ft_string | ft_other => ret (VStr result)     (* [default] *)
  end.

(** [s.replace(/pat/g, () => gen())] for a literal [pat]: matches are taken
    left to right and do not overlap; [skip] counts the characters of the
    current match that are still to be passed over. *)
Fixpoint replaceAll (pat : string) (gen : M string) (skip : nat) (s : string)
  : M string :=
  match s with
  | "" => ret ""
  | String c s' =>
      match skip with
      | S k => replaceAll pat gen k s'
      | O =>
          if Str.truthy pat && String.prefix pat s then
            do r <- gen;
            do rest <- replaceAll pat gen (String.length pat - 1) s';
            ret (r +:+ rest)
          else
            do rest <- replaceAll pat gen O s';
            ret (String c rest)
      end
  end.

Definition randomLetter (base : Z) : M string :=
  do n <- floorRandom 26; ret (String (Str.chr (base + n)) "").

Definition randomDigit : M string :=
  do n <- floorRandom 10; ret (Str.of_Z n).

(** [Math.random().toString(36).substring(2, 8)] *)
Definition randomToken : M string :=
  fun w c =>
    match Math_random w c with
    | Returns k c' => Returns (Str.substring 2 8 (toString36 w k)) c'
    | Throws e => Throws e
    end.

Definition generateFromPattern (pattern : string) (fieldType : FieldType)
  : M string :=
  do result <- replaceAll "{UPPER}" (randomLetter 65) O pattern;
  do result <- replaceAll "{lower}" (randomLetter 97) O result;
  do result <- replaceAll "{digit}" randomDigit O result;
  do result <- replaceAll "{random}" randomToken O result;
  if bool_decide (fieldType = ft_phone)
  then replaceAll "{digit}" randomDigit O result
  else ret result.

(** The switch of [generateFieldValue]: the value before the length limit is
    applied.  [None] stands for the early [return ""] of the lookup arm.
    (The [default] arm of the source is unreachable for the five declared
    strategies.) *)
Definition synthesize (field : FieldConfig) : M (option Value) :=
  match dataType field with
  | dt_static => ret (Some (VStr (str_or (staticValue (config field)) "")))
  | dt_range =>
      let min := num_or (rangeMin (config field)) 0 in
      let max := num_or (rangeMax (config field)) 100 in
      do n <- floorRandom (max - min + 1);
      ret (Some (VNum (n + min)))
  | dt_lookup =>
      do values <- lift (getLookupValues field);
      if bool_decide (values = []) then ret None
      else
        do i <- floorRandom (Z.of_nat (List.length values));
        ret (Some (VStr (nth (Z.to_nat i) values "")))
  | dt_minmax =>
      let minLen := num_or (minLength (config field)) 1 in
      let maxLen := num_or (maxLength (config field)) 10 in
      do n <- floorRandom (maxLen - minLen + 1);
      let length := n + minLen in
      do v <- generateRandomString length (type field);
      ret (Some v)
  | dt_pattern =>
      do s <- generateFromPattern (str_or (pattern (config field)) "")
                                  (type field);
      ret (Some (VStr s))
  end.

(** "Apply field length limit if specified". *)
Definition applyMaxFieldLength (field : FieldConfig) (v : Value) : Value :=
  match v with
  | VStr s =>
      if num_truthy (maxFieldLength field)
      then VStr (Str.substring0 (default 0 (maxFieldLength field)) s)
      else v
  | _ => v
  end.

(** [generateFieldValue]; its second parameter [isNegative] is never read
    and is omitted. *)
Definition generateFieldValue (field : FieldConfig) : M Value :=
  if Str.is_empty (name field) then ret (VStr "")
  else
    do r <- synthesize field;
    match r with
    | None => ret (VStr "")
    | Some v => ret (applyMaxFieldLength field v)
    end.

(** ** Automatic negative-test eligibility *)

Definition autoEnableTypes : list FieldType := [ft_email; ft_phone; ft_date].

Definition shouldAutoEnableNegativeTests (field : FieldConfig) : bool :=
  if required field then true
  else if num_truthy (maxFieldLength field)
          || defined (rangeMin (config field))
          || defined (rangeMax (config field)) then true
  else if bool_decide (type field ∈ autoEnableTypes) then true
  else false.

(** ** Negative Test-Case Generator *)

Definition getNegativeTestTypes (field : FieldConfig) : list string :=
  let testTypes := if required field then ["empty"; "null"] else [] in
  match type field with
  | ft_string =>
      testTypes ++ ["too_long"; "special_chars"; "sql_injection"]
                ++ (if num_truthy (maxFieldLength field)
                    then ["exceed_length"] else [])
  | ft_email =>
      testTypes ++ ["invalid_format"; "missing_at"; "missing_domain"]
  | ft_phone =>
      testTypes ++ ["invalid_format"; "too_short"; "too_long"; "letters"]
  | ft_number =>
      testTypes ++ ["string_value"; "negative"; "decimal"; "overflow"]
                ++ (if defined (rangeMin (config field))
                    then ["below_min"] else [])
                ++ (if defined (rangeMax (config field))
                    then ["above_max"] else [])
  | ft_date =>
      testTypes ++ ["invalid_format"; "future_date"; "past_date";
                    "invalid_day"]
  | ft_boolean => testTypes ++ ["string_value"; "number_value"]
  | ft_other => testTypes                          (* no [case] applies *)
  end.

(** The literal of the [special_chars] case; it contains a backslash and a
    double quote. *)
Definition specialChars : string :=
  "!@#$%^&*()_+{}|:<>?[]\;'" +:+ String (Str.chr 34) ",./".

(** ["A".repeat(n)] throws on a negative count. *)
Definition repeatA (n : Z) : Try Value :=
  if n <? 0 then Raised RangeError
  else Done (VStr (Str.repeat "A"%char (Z.to_nat n))).

(** The literal of the [overflow] case, [999999999999999999999], is no
    double: it is read as the nearest one, which is [10^21]. *)
Definition generateNegativeValue (field : FieldConfig) (testType : string)
  : Try Value :=
  if Str.eqb testType "empty" then Done (VStr "")
  else if Str.eqb testType "null" then Done VNull
  else if Str.eqb testType "too_long" then repeatA 1000
  else if Str.eqb testType "exceed_length"
       then repeatA (num_or (maxFieldLength field) 50 + 10)
  else if Str.eqb testType "special_chars" then Done (VStr specialChars)
  else if Str.eqb testType "sql_injection"
       then Done (VStr "'; DROP TABLE users; --")
  else if Str.eqb testType "invalid_format" then
         match type field with
         | ft_email => Done (VStr "invalid-email-format")
         | ft_phone => Done (VStr "abc-def-ghij")
         | ft_date => Done (VStr "2024-13-45")
         | _ => Done (VStr "invalid_format")
         end
  else if Str.eqb testType "missing_at"
       then Done (VStr "emailwithoutatsign.com")
  else if Str.eqb testType "missing_domain" then Done (VStr "email@")
  else if Str.eqb testType "too_short" then Done (VStr "123")
  else if Str.eqb testType "letters" then Done (VStr "abcdefghij")
  else if Str.eqb testType "string_value" then Done (VStr "not_a_number")
  else if Str.eqb testType "negative" then Done (VNum (-999999))
  else if Str.eqb testType "decimal" then Done (VDec 123456 3)
  else if Str.eqb testType "overflow"
       then Done (VNum 1000000000000000000000)
  else if Str.eqb testType "below_min"
       then Done (VNum (num_or (rangeMin (config field)) 0 - 1))
  else if Str.eqb testType "above_max"
       then Done (VNum (num_or (rangeMax (config field)) 100 + 1))
  else if Str.eqb testType "future_date" then Done (VStr "2099-12-31")
  else if Str.eqb testType "past_date" then Done (VStr "1900-01-01")
  else if Str.eqb testType "invalid_day" then Done (VStr "2024-02-30")
  else if Str.eqb testType "number_value" then Done (VNum 123)
  else Done (VStr "invalid_test_value").

(** ** Record Set Builder: [generateTestData] *)

Abbreviation GeneratedRecord := (gmap string Value).

(** A record while it is filled: its own properties, and whether its
    prototype is still [Object.prototype], as for every object literal. *)
Record RecordObject : Type := mkObject {
  properties : GeneratedRecord;
  hasPrototype : bool
}.

(** [{ key: value, ... }] *)
Definition objectLiteral (properties : GeneratedRecord) : RecordObject :=
  mkObject properties true.

(** [record[key] = v].  For every key but [__proto__] the assignment defines
    or overwrites an own property.  [__proto__] is an accessor property of
    [Object.prototype]: as long as the record inherits it and has no own
    property of that name, the assignment calls the setter, which creates no
    own property; the setter takes the prototype away when [v] is [null] and
    does nothing for any other value of the engine (none is an object).
    Once the prototype is gone, [__proto__] is a key like any other. *)
Definition setProperty (key : string) (v : Value) (record : RecordObject)
  : RecordObject :=
  if bool_decide (key = "__proto__") && hasPrototype record
     && bool_decide (properties record !! key = None)
  then match v with
       | VNull => mkObject (properties record) false
       | _ => record
       end
  else mkObject (<[key := v]> (properties record)) (hasPrototype record).

(** [data.push(record)]: a record of the output is given by its own
    properties. *)
Definition pushed (m : M RecordObject) : M GeneratedRecord :=
  do record <- m; ret (properties record).

(** [fields.filter((f) => f.dataType === "lookup" &&
    getLookupValues(f).length > 0)] *)
Fixpoint lookupFieldsOf (fields : list FieldConfig) : Try (list FieldConfig) :=
  match fields with
  | [] => Done []
  | f :: rest =>
      if bool_decide (dataType f = dt_lookup) then
        match getLookupValues f with
        | Raised e => Raised e
        | Done vs =>
            match lookupFieldsOf rest with
            | Raised e => Raised e
            | Done fs =>
                Done (if 0 <? Z.of_nat (List.length vs) then f :: fs else fs)
            end
        end
      else lookupFieldsOf rest
  end.

(** [lookupFields.map((f) => getLookupValues(f).length)] *)
Fixpoint lookupLengths (fields : list FieldConfig) : Try (list Z) :=
  match fields with
  | [] => Done []
  | f :: rest =>
      match getLookupValues f with
      | Raised e => Raised e
      | Done vs =>
          match lookupLengths rest with
          | Raised e => Raised e
          | Done ns => Done (Z.of_nat (List.length vs) :: ns)
          end
      end
  end.

(** [Math.max(...ns)] on a non-empty list. *)
Definition maxOf (ns : list Z) : Z :=
  match ns with
  | [] => 0
  | n :: rest => foldl Z.max n rest
  end.

(** Body of the [forEach] that fills the positive record of index [i] in
    the one-record-per-lookup-value mode. *)
Definition fillLookupMode (i : nat) (record : RecordObject)
    (field : FieldConfig) : M RecordObject :=
  if Str.is_empty (name field) then ret record
  else if bool_decide (dataType field = dt_lookup) then
    do lookupValues <- lift (getLookupValues field);
    if 0 <? Z.of_nat (List.length lookupValues)
    then ret (setProperty (name field)
                (VStr (nth (i mod List.length lookupValues)%nat
                           lookupValues ""))
                record)
    else ret (setProperty (name field) (VStr "") record)
  else
    do v <- generateFieldValue field;
    ret (setProperty (name field) v record).

(** Body of the [forEach] of the standard mode. *)
Definition fillStandard (record : RecordObject) (field : FieldConfig)
  : M RecordObject :=
  if Str.is_empty (name field) then ret record
  else
    do v <- generateFieldValue field;
    ret (setProperty (name field) v record).

Definition positiveSeed : GeneratedRecord :=
  {[ "_testType" := VStr "positive" ]}.

Definition positiveRecords (fields : list FieldConfig) (recordCount : Z)
  : M (list GeneratedRecord) :=
  do lookupFields <- lift (lookupFieldsOf fields);
  if 0 <? Z.of_nat (List.length lookupFields) then
    do lens <- lift (lookupLengths lookupFields);
    let maxLookupValues := maxOf lens in
    let actualRecordCount := Z.min maxLookupValues recordCount in
    collect (fun i => pushed (forEach (fillLookupMode i) fields
                                      (objectLiteral positiveSeed)))
            (seq 0 (Z.to_nat actualRecordCount))
  else
    collect (fun _ => pushed (forEach fillStandard fields
                                      (objectLiteral positiveSeed)))
            (seq 0 (Z.to_nat recordCount)).

Definition negativeSeed (targetField : FieldConfig) (testType : string)
  : GeneratedRecord :=
  <[ "_autoSelected" := VBool (shouldAutoEnableNegativeTests targetField) ]>
  (<[ "_targetField" := VStr (name targetField) ]>
  (<[ "_testType" := VStr ("negative_" +:+ testType) ]> ∅)).

(** Body of the inner [forEach] of the negative phase. *)
Definition fillNegative (targetField : FieldConfig) (testType : string)
    (negativeRecord : RecordObject) (field : FieldConfig)
  : M RecordObject :=
  if Str.is_empty (name field) then ret negativeRecord
  else if Str.eqb (id field) (id targetField) then
    do v <- lift (generateNegativeValue field testType);
    ret (setProperty (name field) v negativeRecord)
  else
    do v <- generateFieldValue field;
    ret (setProperty (name field) v negativeRecord).

Definition negativeRecord (fields : list FieldConfig)
    (targetField : FieldConfig) (testType : string) : M GeneratedRecord :=
  pushed (forEach (fillNegative targetField testType) fields
                  (objectLiteral (negativeSeed targetField testType))).

(** [fields.filter((f) => (f.generateNegativeTests ||
    shouldAutoEnableNegativeTests(f)) && f.name)] *)
Definition negativeTestFields (fields : list FieldConfig) : list FieldConfig :=
  List.filter
    (fun f => (flag_truthy (generateNegativeTests f)
               || shouldAutoEnableNegativeTests f) && Str.truthy (name f))
    fields.

Definition shouldIncludeNegativeTests (fields : list FieldConfig)
    (includeNegativeTests : bool) : bool :=
  includeNegativeTests || List.existsb shouldAutoEnableNegativeTests fields.

Definition negativeRecordsFor (fields : list FieldConfig)
    (targetField : FieldConfig) : M (list GeneratedRecord) :=
  collect (negativeRecord fields targetField)
          (getNegativeTestTypes targetField).

Definition negativeRecords (fields : list FieldConfig)
    (includeNegativeTests : bool) : M (list GeneratedRecord) :=
  if shouldIncludeNegativeTests fields includeNegativeTests then
    do groups <- collect (negativeRecordsFor fields)
                         (negativeTestFields fields);
    ret (concat groups)
  else ret [].

(** [generateTestData], reading the component state ([fields],
    [recordCount], [includeNegativeTests]) as arguments and returning the
    array handed to [setGeneratedData]. *)
Definition generateTestData (fields : list FieldConfig) (recordCount : Z)
    (includeNegativeTests : bool) : M (list GeneratedRecord) :=
  do positives <- positiveRecords fields recordCount;
  do negatives <- negativeRecords fields includeNegativeTests;
  ret (positives ++ negatives).

(** ** Field Inference Engine: [parseSidFile] *)

Fixpoint generatePasswordPattern (password : string) : string :=
  match password with
  | "" => ""
  | String char rest =>
      (if Str.is_upper char then "{UPPER}"
       else if Str.is_lower char then "{lower}"
       else if Str.is_digit char then "{digit}"
       else String char "") +:+ generatePasswordPattern rest
  end.

(** [phone.replace(/\d/g, "{digit}")] *)
Fixpoint generatePhonePattern (phone : string) : string :=
  match phone with
  | "" => ""
  | String char rest =>
      (if Str.is_digit char then "{digit}" else String char "")
        +:+ generatePhonePattern rest
  end.

(** [/^\d+$/.test(v)] *)
Definition allDigits (v : string) : bool :=
  Str.truthy v && Str.forallb Str.is_digit v.

(** [v.includes("@")] *)
Definition includesAt (v : string) : bool :=
  Str.existsb (fun c => bool_decide (c = "@"%char)) v.

(** [/^\d{10,}$/.test(v.replace(/\D/g, ""))] *)
Definition looksLikePhone (v : string) : bool :=
  10 <=? Str.length (Str.filter Str.is_digit v).

(** "Analyze the value to determine type and generation strategy". *)
Definition analyseCommand (c : SidCommand) : FieldType * DataType * Config :=
  let v := value c in
  if Str.eqb (command c) "password" then
    (ft_string, dt_pattern,
     mkConfig None None None None None None None None
              (Some (generatePasswordPattern v)))
  else if allDigits v then
    if 6 <=? Str.length v then
      let baseValue := Str.parse_digits v in
      (ft_number, dt_range,
       mkConfig None (Some (Z.max 1 (baseValue - 1000000)))
                (Some (baseValue + 1000000)) None None None None None None)
    else
      (ft_number, dt_static,
       mkConfig (Some v) None None None None None None None None)
  else if includesAt v then
    (ft_email, dt_pattern,
     mkConfig None None None None None None None None
              (Some ("{random}@" +:+ nth 1 (Str.split_at "@" v) "")))
  else if looksLikePhone v then
    (ft_phone, dt_pattern,
     mkConfig None None None None None None None None
              (Some (generatePhonePattern v)))
  else
    (ft_string, dt_minmax,
     mkConfig None None None None None None
              (Some (Z.max 1 (Str.length v - 2))) (Some (Str.length v + 2))
              None).

(** [command.label.toLowerCase().replace(/\s+/g, "_")] *)
Definition fieldNameOf (label : string) : string :=
  Str.underscore_ws false (Str.toLowerCase label).

(** The guard of the inner loop: a labelled [type] or [password] command
    that carries a value. *)
Definition extractable (c : SidCommand) : bool :=
  opt_str_truthy (label c) && Str.truthy (value c)
  && (Str.eqb (command c) "type" || Str.eqb (command c) "password").

(** [Date.now().toString() + Math.random()] *)
Definition freshId : M string :=
  fun w c =>
    match Date_now w c with
    | Returns now c1 =>
        match Math_random w c1 with
        | Returns k c2 => Returns (Str.of_Z now +:+ toString10 w k) c2
        | Throws e => Throws e
        end
    | Throws e => Throws e
    end.

(** Body of [test.commands.forEach]. *)
Definition extractCommand (extractedFields : list FieldConfig)
    (c : SidCommand) : M (list FieldConfig) :=
  if extractable c then
    let fieldName := fieldNameOf (default "" (label c)) in
    let '(fieldType, dataType, config) := analyseCommand c in
    if List.existsb (fun f => Str.eqb (name f) fieldName) extractedFields
    then ret extractedFields
    else
      do newId <- freshId;
      ret (extractedFields ++
             [mkField newId fieldName fieldType dataType true None None
                      config])
  else ret extractedFields.

(** The extraction loop of [parseSidFile] over the parsed file; the result
    is the array handed to [setFields]. *)
Definition parseSidFile (sidData : SidFile) : M (list FieldConfig) :=
  forEach (fun acc test => forEach extractCommand (commands test) acc)
          (tests sidData) [].

(** ** Vocabulary of the statements *)

(** The reserved metadata keys of a generated record. *)
Definition metadataKeys : list string :=
  ["_testType"; "_targetField"; "_autoSelected"].

(** Names under which the fields of a configuration are written. *)
Definition fieldNames (fields : list FieldConfig) : list string :=
  List.map name (List.filter (fun f => Str.truthy (name f)) fields).

(** [r] is a negative record built for [targetField] and [testType] at some
    point of a run in world [w]. *)
Definition NegativeOf (fields : list FieldConfig) (w : World)
    (targetField : FieldConfig) (testType : string) (r : GeneratedRecord)
  : Prop :=
  ∃ c1 c2, negativeRecord fields targetField testType w c1 = Returns r c2.

(** [v] is a value synthesized for [field] at some point of a run. *)
Definition SynthesizedFor (w : World) (field : FieldConfig) (v : Value)
  : Prop :=
  ∃ c1 c2, generateFieldValue field w c1 = Returns v c2.

(** The target fields of the negative phase of a run. *)
Definition negativeTargets (fields : list FieldConfig)
    (includeNegativeTests : bool) : list FieldConfig :=
  if shouldIncludeNegativeTests fields includeNegativeTests
  then negativeTestFields fields else [].

(** The applicable kinds in the words of the specification (section 4.6):
    the kinds unlocked by [required], then the kinds of the type in their
    listed order. *)
Definition spec_requiredKinds (field : FieldConfig) : list string :=
  if required field then ["empty"; "null"] else [].

Definition spec_typeKinds (field : FieldConfig) : list string :=
  match type field with
  | ft_string =>
      ["too_long"; "special_chars"; "sql_injection"]
        ++ (if num_truthy (maxFieldLength field) then ["exceed_length"] else [])
  | ft_email => ["invalid_format"; "missing_at"; "missing_domain"]
  | ft_phone => ["invalid_format"; "too_short"; "too_long"; "letters"]
  | ft_number =>
      ["string_value"; "negative"; "decimal"; "overflow"]
        ++ (if defined (rangeMin (config field)) then ["below_min"] else [])
        ++ (if defined (rangeMax (config field)) then ["above_max"] else [])
  | ft_date => ["invalid_format"; "future_date"; "past_date"; "invalid_day"]
  | ft_boolean => ["string_value"; "number_value"]
  | ft_other => []
  end.

Definition spec_applicableKinds (field : FieldConfig) : list string :=
  spec_requiredKinds field ++ spec_typeKinds field.

(** [p] holds for the [count] integers from [n] on. *)
Fixpoint holdsFrom (p : Z → bool) (count : nat) (n : Z) : bool :=
  match count with
  | O => true
  | S k => p n && holdsFrom p k (n + 1)
  end.

(** Length of a textual value. *)
Definition textLength (v : Value) : option Z :=
  match v with
  | VStr s => Some (Str.length s)
  | _ => None
  end.

(** The common shape of the three [forEach] bodies of the builder: a field
    without a name is skipped, for any other field the value chosen by [g]
    is assigned to the property of its name. *)
Definition fillWith (g : FieldConfig → M Value) (record : RecordObject)
    (field : FieldConfig) : M RecordObject :=
  if Str.is_empty (name field) then ret record
  else do v <- g field; ret (setProperty (name field) v record).

(** The value that the positive record of index [i] gets for a field in the
    one-record-per-lookup-value mode. *)
Definition lookupModeValue (i : nat) (field : FieldConfig) : M Value :=
  if bool_decide (dataType field = dt_lookup) then
    do vs <- lift (getLookupValues field);
    ret (VStr (if 0 <? Z.of_nat (List.length vs)
               then nth (i mod List.length vs)%nat vs "" else ""))
  else generateFieldValue field.

(** The value that a negative record gets for a field. *)
Definition negativeModeValue (targetField : FieldConfig) (testType : string)
    (field : FieldConfig) : M Value :=
  if Str.eqb (id field) (id targetField)
  then lift (generateNegativeValue field testType)
  else generateFieldValue field.

(** [r] results from filling the object literal [seed] with the fields of
    the configuration. *)
Definition FilledFrom (fields : list FieldConfig) (w : World)
    (seed r : GeneratedRecord) : Prop :=
  ∃ g c1 c2,
    pushed (forEach (fillWith g) fields (objectLiteral seed)) w c1
    = Returns r c2.

(** The result of a run that returned. *)
Definition returned {A : Type} (o : Outcome A) : option A :=
  match o with
  | Returns a _ => Some a
  | Throws _ => None
  end.

(** A computation that returns from every cursor in world [w]. *)
Definition Total {A : Type} (w : World) (m : M A) : Prop :=
  ∀ c, ∃ a c', m w c = Returns a c'.

(** Number of candidate values that a field resolves to. *)
Definition resolvedLength (field : FieldConfig) : Z :=
  match getLookupValues field with
  | Done vs => Z.of_nat (List.length vs)
  | Raised _ => 0
  end.

(** ** Sample inputs *)

Module Sample.

Definition world : World :=
  mkWorld (fun i => Z.of_nat i * 1234567890123457 + 4503599627370496)
          (fun _ => 1762041600000)
          (fun _ => "0.5")
          (fun _ => "0.k5x2m9qw").

Definition start : Cursor := mkCursor 0 0.

(** A lookup field whose CSV column is missing from the header while manual
    values are still present. *)
Definition staleCsv : FieldConfig :=
  mkField "1" "city" ft_string dt_lookup false None None
    (mkConfig None None None (Some ["a"])
              (Some [["name"]; ["x"]]) (Some "age") None None None).

(** The same with no manual values. *)
Definition missingColumn : FieldConfig :=
  mkField "1" "city" ft_string dt_lookup false None None
    (mkConfig None None None None
              (Some [["name"]; ["x"]]) (Some "age") None None None).

Definition amount : FieldConfig :=
  mkField "7" "amount" ft_number dt_range true None None
    (mkConfig None (Some 10) (Some 20) None None None None None None).

Definition username : FieldConfig :=
  mkField "2" "username" ft_string dt_minmax true None None
    (mkConfig None None None None None None (Some 3) (Some 3) None).

Definition contact : FieldConfig :=
  mkField "3" "contact" ft_email dt_minmax false None None
    (mkConfig None None None None None None (Some 3) (Some 3) None).

Definition reversedRange : FieldConfig :=
  mkField "4" "n" ft_number dt_range false None None
    (mkConfig None (Some 20) (Some 10) None None None None None None).

Definition zeroMax : FieldConfig :=
  mkField "4" "n" ft_number dt_range false None None
    (mkConfig None (Some (-10)) (Some 0) None None None None None None).

Definition colour : FieldConfig :=
  mkField "5" "colour" ft_string dt_lookup false None None
    (mkConfig None None None (Some ["red"; "green"; "blue"])
              None None None None None).

Definition size : FieldConfig :=
  mkField "6" "size" ft_string dt_lookup false None None
    (mkConfig None None None (Some ["S"; "L"])
              None None None None None).

Definition unnamed : FieldConfig :=
  mkField "8" "" ft_string dt_static true None None
    (mkConfig (Some "x") None None None None None None None None).

Definition code : FieldConfig :=
  mkField "9" "code" ft_string dt_pattern false (Some 4) None
    (mkConfig None None None None None None None None
              (Some "{UPPER}{digit}-{lower}{lower}")).

(** A date field with the length bounds 3..3. *)
Definition birthday : FieldConfig :=
  mkField "16" "born" ft_date dt_minmax false None None
    (mkConfig None None None None None None (Some 3) (Some 3) None).

(** A string field with the length bounds -3..0. *)
Definition zeroMaxLength : FieldConfig :=
  mkField "15" "s" ft_string dt_minmax false None None
    (mkConfig None None None None None None (Some (-3)) (Some 0) None).

Definition emailCommand : SidCommand :=
  mkCommand "c1" (Some "Email Address") "type" "id=email" "jane@acme.com"
            None.

(** The password command of the specification: it has no label. *)
Definition unlabelledPassword : SidCommand :=
  mkCommand "c2" None "password" "id=pw" "Ab3x" None.

Definition passwordCommand : SidCommand :=
  mkCommand "c2" (Some "Password") "password" "id=pw" "Ab3x" None.

Definition fileOf (c : SidCommand) : SidFile :=
  mkSidFile "f" "1.0" "suite" "http://localhost" [mkTest "t" "login" [c]].

End Sample.

(** * The components around the engine *)

(** The code of [src/test-data-generator.tsx] around the engine (the CSV
    parser, the handlers of the field list, the export) and the two other
    components, [src/csv-manager.tsx] and [src/sid-analysis.tsx], with the
    vocabulary of their properties. *)

(** ** CSV files: [parseCsvFile] *)

(** The parser is written twice, in the generator and in the CSV manager
    ([src/csv-manager.tsx]); the two copies differ in the check for an empty
    text only.  The text that the [FileReader] hands over is the input. *)

(** The double quote and the line feed. *)
Definition dquote : ascii := Str.chr 34.
Definition LF : ascii := Str.chr 10.

(** [s.includes(ch)] for a character [ch]. *)
Definition includesChar (ch : ascii) (s : string) : bool :=
  Str.existsb (fun c => bool_decide (c = ch)) s.

(** [s.replace(/ch$/, "")] *)
Fixpoint stripLast (ch : ascii) (s : string) : string :=
  match s with
  | "" => ""
  | String c s' =>
      match s' with
      | "" => if bool_decide (c = ch) then "" else s
      | _ => String c (stripLast ch s')
      end
  end.

(** [s.replace(/^ch|ch$/g, "")]: one occurrence at the start and one at the
    end are removed. *)
Definition stripEdges (ch : ascii) (s : string) : string :=
  match s with
  | "" => ""
  | String c s' =>
      if bool_decide (c = ch) then stripLast ch s' else stripLast ch s
  end.

(** [current.trim().replace(/^"|"$/g, "")] *)
Definition csvCell (current : string) : string :=
  stripEdges dquote (Str.trim current).

(** The loop over the characters of a line, from the state [values],
    [current], [inQuotes], and the final [values.push]. *)
Fixpoint csvLine (line : string) (values : list string) (current : string)
    (inQuotes : bool) : list string :=
  match line with
  | "" => values ++ [csvCell current]
  | String char rest =>
      if bool_decide (char = dquote)
      then csvLine rest values current (negb inQuotes)
      else if bool_decide (char = ","%char) && negb inQuotes
      then csvLine rest (values ++ [csvCell current]) "" inQuotes
      else csvLine rest values (current +:+ String char "") inQuotes
  end.

(** The callback of [lines.map]. *)
Definition parseCsvLine (line : string) : list string :=
  csvLine line [] "" false.

(** [text.split("\n").filter((line) => line.trim())] *)
Definition csvLines (text : string) : list string :=
  List.filter (fun line => Str.truthy (Str.trim line)) (Str.split_at LF text).

(** The grid that the parser builds from the text of a file. *)
Definition parseCsvText (text : string) : list (list string) :=
  List.map parseCsvLine (csvLines text).

(** The outcome of a promise. *)
Inductive Promise (A : Type) : Type :=
| Resolved (a : A)
| Rejected (message : string).
Arguments Resolved {A} a.
Arguments Rejected {A} message.

(** [parseCsvFile] of the generator, on the text read from the file. *)
Definition parseCsvFile (text : string) : Promise (list (list string)) :=
  if Str.is_empty text then Rejected "File is empty"
  else Resolved (parseCsvText text).

(** [list.join(sep)] on an array of strings. *)
Fixpoint join (sep : string) (l : list string) : string :=
  match l with
  | [] => ""
  | x :: rest =>
      match rest with
      | [] => x
      | _ => x +:+ sep +:+ join sep rest
      end
  end.

(** The CSV manager, [src/csv-manager.tsx]. *)
Module CsvManager.

(** The interface [CsvFile], without the handle of the uploaded file. *)
Record CsvFile : Type := mkCsvFile {
  csv_id : string;
  csv_name : string;
  data : list (list string);
  headers : list string;
  rowCount : Z
}.

(** This copy of the parser has no check for an empty text. *)
Definition parseCsvFile (text : string) : Promise (list (list string)) :=
  Resolved (parseCsvText text).

(** The file object that [handleFileUpload] adds to [csvFiles]; nothing is
    added when the promise is rejected. *)
Definition handleFileUpload (csvFiles : list CsvFile) (fileName text : string)
  : M (list CsvFile) :=
  match parseCsvFile text with
  | Resolved data =>
      do now <- Date_now;
      ret (csvFiles ++
             [mkCsvFile (Str.of_Z now) fileName data
                        (match data with [] => [] | header :: _ => header end)
                        (Z.of_nat (List.length data) - 1)])
  | Rejected _ => ret csvFiles
  end.

Definition sampleData : list (list string) :=
  [ ["username"; "email"; "department"; "role"];
    ["john.doe"; "john.doe@company.com"; "Engineering"; "Developer"];
    ["jane.smith"; "jane.smith@company.com"; "Marketing"; "Manager"];
    ["bob.wilson"; "bob.wilson@company.com"; "Sales"; "Representative"];
    ["alice.brown"; "alice.brown@company.com"; "HR"; "Coordinator"];
    ["charlie.davis"; "charlie.davis@company.com"; "Finance"; "Analyst"] ].

(** [rows.map((row) => row.join(",")).join("\n")], the content that
    [generateSampleCsv] offers for download. *)
Definition csvContent (rows : list (list string)) : string :=
  join (String LF "") (List.map (join ",") rows).

Definition generateSampleCsv : string := csvContent sampleData.

End CsvManager.

(** A cell of a parsed line: it holds characters of the line only, none of
    them a double quote, and it is trimmed. *)
Definition CellOf (line cell : string) : Prop :=
  (∀ ch, includesChar ch cell = true →
         includesChar ch line = true ∧ ch ≠ dquote) ∧
  Str.trim cell = cell.

(** A cell that the serialisation [csvContent] writes and the parser reads
    back unchanged: no comma, quote or line feed, no white space at its
    ends. *)
Definition plainCell (cell : string) : Prop :=
  includesChar ","%char cell = false ∧
  includesChar dquote cell = false ∧
  includesChar LF cell = false ∧
  Str.trim cell = cell.

(** ** Export: the name of the downloaded file *)

Definition dash : ascii := "-"%char.

(** [[a-z0-9]] *)
Definition isSlugChar (c : ascii) : bool := Str.is_lower c || Str.is_digit c.

(** [s.replace(/[^a-z0-9]/g, "-")] *)
Definition dashOthers (s : string) : string :=
  Str.map (fun c => if isSlugChar c then c else dash) s.

(** [s.replace(/-+/g, "-")]: [in_run] tells that the previous character
    was a dash. *)
Fixpoint collapseDashes (in_run : bool) (s : string) : string :=
  match s with
  | "" => ""
  | String c s' =>
      if bool_decide (c = dash)
      then (if in_run then collapseDashes true s'
            else String dash (collapseDashes true s'))
      else String c (collapseDashes false s')
  end.

(** The chain [name.toLowerCase().replace(/[^a-z0-9]/g, "-")
    .replace(/-+/g, "-").replace(/^-|-$/g, "")] of [exportData] and
    [downloadGeneration]. *)
Definition slug (name : string) : string :=
  stripEdges dash (collapseDashes false (dashOthers (Str.toLowerCase name))).

(** [baseFileName] in [exportData]: the slug of a non-empty generation
    name. *)
Definition baseFileName (generationName : string) : string :=
  if Str.truthy generationName then slug generationName else "test-data".

Definition slugOrDash (c : ascii) : bool :=
  isSlugChar c || bool_decide (c = dash).

Definition firstChar (s : string) : option ascii :=
  match s with
  | "" => None
  | String c _ => Some c
  end.

Fixpoint lastChar (s : string) : option ascii :=
  match s with
  | "" => None
  | String c s' =>
      match s' with
      | "" => Some c
      | _ => lastChar s'
      end
  end.

Fixpoint adjacentDashes (s : string) : bool :=
  match s with
  | "" => false
  | String c s' =>
      (bool_decide (c = dash) && bool_decide (firstChar s' = Some dash))
      || adjacentDashes s'
  end.

(** Shape of a file-name base: characters of [[a-z0-9]] and dashes, no dash
    at either end, no two dashes in a row. *)
Definition SlugShape (s : string) : Prop :=
  Str.forallb slugOrDash s = true ∧
  firstChar s ≠ Some dash ∧
  lastChar s ≠ Some dash ∧
  adjacentDashes s = false.

(** [/[A-Za-z0-9]/.test(s)] *)
Definition hasAlnum (s : string) : bool :=
  Str.existsb (fun c => Str.is_upper c || Str.is_lower c || Str.is_digit c) s.

(** A text of characters of ASCII. *)
Definition isAscii (s : string) : bool :=
  Str.forallb (fun c => Str.code c <? 128) s.

(** ** Outcomes of a run *)

(** The [case] labels of the [switch] of [generateNegativeValue]. *)
Definition caseLabels : list string :=
  ["empty"; "null"; "too_long"; "exceed_length"; "special_chars";
   "sql_injection"; "invalid_format"; "missing_at"; "missing_domain";
   "too_short"; "letters"; "string_value"; "negative"; "decimal"; "overflow";
   "below_min"; "above_max"; "future_date"; "past_date"; "invalid_day";
   "number_value"].

(** A computation that throws nothing but [e0] in world [w]. *)
Definition ThrowsOnly {A : Type} (e0 : Exn) (w : World) (m : M A) : Prop :=
  ∀ c e, m w c = Throws e → e = e0.

(** A lookup field whose resolution throws: a column is selected over a
    grid without a header row. *)
Definition emptyGrid (field : FieldConfig) : bool :=
  bool_decide (dataType field = dt_lookup)
  && bool_decide (csvData (config field) = Some [])
  && opt_str_truthy (csvColumn (config field)).

(** A field that receives, in the negative records of [targetField], a text
    of negative length: [targetField] has the kind [exceed_length], [field]
    is written under its identifier and limits the length below -10. *)
Definition negativeRepeat (targetField field : FieldConfig) : bool :=
  bool_decide (type targetField = ft_string)
  && num_truthy (maxFieldLength targetField)
  && Str.truthy (name field)
  && Str.eqb (id field) (id targetField)
  && (num_or (maxFieldLength field) 50 + 10 <? 0).

(** Whether some target of the negative phase has such a field. *)
Definition anyNegativeRepeat (fields : list FieldConfig)
    (includeNegativeTests : bool) : bool :=
  List.existsb (fun target => List.existsb (negativeRepeat target) fields)
               (negativeTargets fields includeNegativeTests).

(** ** Export: the summary of a generation *)

(** [r._testType === "positive"] *)
Definition isPositiveRecord (r : GeneratedRecord) : bool :=
  bool_decide (r !! "_testType" = Some (VStr "positive")).

(** [r._testType?.startsWith("negative")]: the optional call yields
    [undefined] on a missing or null [_testType] and throws on a number or
    a boolean, which have no method [startsWith]. *)
Definition isNegativeRecord (r : GeneratedRecord) : Try bool :=
  match r !! "_testType" with
  | None | Some VNull => Done false
  | Some (VStr s) => Done (String.prefix "negative" s)
  | Some _ => Raised TypeError
  end.

(** [generatedData.filter((r) => r._testType?.startsWith("negative")).length] *)
Fixpoint countNegative (generatedData : list GeneratedRecord) : Try Z :=
  match generatedData with
  | [] => Done 0
  | r :: rest =>
      match isNegativeRecord r with
      | Raised e => Raised e
      | Done b =>
          match countNegative rest with
          | Raised e => Raised e
          | Done k => Done (if b then k + 1 else k)
          end
      end
  end.

(** The counts and the field list of [generationInfo] in [exportData], which
    [saveGeneration] stores as well. *)
Record GenerationInfo : Type := mkGenerationInfo {
  totalRecords : Z;
  positiveTests : Z;
  negativeTests : Z;
  infoFields : list (string * FieldType)
}.

Definition generationInfo (fields : list FieldConfig)
    (generatedData : list GeneratedRecord) : Try GenerationInfo :=
  match countNegative generatedData with
  | Raised e => Raised e
  | Done negatives =>
      Done (mkGenerationInfo
              (Z.of_nat (List.length generatedData))
              (Z.of_nat (List.length
                           (List.filter isPositiveRecord generatedData)))
              negatives
              (List.map (fun f => (name f, type f))
                        (List.filter (fun f => Str.truthy (name f)) fields)))
  end.

(** ** Patterns as sequences of placeholders and plain characters *)

Inductive Token : Type :=
| TUpper | TLower | TDigit | TRandom
| TChar (c : ascii).

Global Instance Token_eq_dec : EqDecision Token.
Proof. solve_decision. Defined.

Definition tokenText (t : Token) : string :=
  match t with
  | TUpper => "{UPPER}"
  | TLower => "{lower}"
  | TDigit => "{digit}"
  | TRandom => "{random}"
  | TChar c => String c ""
  end.

(** The pattern that a sequence of tokens spells. *)
Fixpoint render (ts : list Token) : string :=
  match ts with
  | [] => ""
  | t :: rest => tokenText t +:+ render rest
  end.

(** A placeholder, or a plain character other than the opening brace. *)
Definition plainToken (t : Token) : bool :=
  match t with
  | TChar c => negb (bool_decide (c = "{"%char))
  | _ => true
  end.

(** The text that takes the place of a token when a pattern is expanded in
    world [w]. *)
Definition Expands (w : World) (t : Token) (piece : string) : Prop :=
  match t with
  | TUpper => ∃ c, Str.is_upper c = true ∧ piece = String c ""
  | TLower => ∃ c, Str.is_lower c = true ∧ piece = String c ""
  | TDigit => ∃ c, Str.is_digit c = true ∧ piece = String c ""
  | TRandom =>
      ∃ k, 0 <= k < two53 ∧ piece = Str.substring 2 8 (toString36 w k)
  | TChar c => piece = String c ""
  end.

(** Concatenation of the pieces of a text. *)
Fixpoint glue (pieces : list string) : string :=
  match pieces with
  | [] => ""
  | p :: rest => p +:+ glue rest
  end.

(** The tokens of the pattern that [generatePasswordPattern] derives from a
    password, and of the one that [generatePhonePattern] derives from a
    phone number. *)
Definition passwordToken (char : ascii) : Token :=
  if Str.is_upper char then TUpper
  else if Str.is_lower char then TLower
  else if Str.is_digit char then TDigit
  else TChar char.

Definition phoneToken (char : ascii) : Token :=
  if Str.is_digit char then TDigit else TChar char.

Fixpoint tokensOf (classify : ascii → Token) (s : string) : list Token :=
  match s with
  | "" => []
  | String c s' => classify c :: tokensOf classify s'
  end.

(** One step of a pass over a pattern: the placeholder [X] gives way to a
    character that satisfies [P], any other token stays. *)
Definition passStep (X : Token) (P : ascii → Prop) (t t' : Token) : Prop :=
  if decide (t = X) then ∃ ch, P ch ∧ t' = TChar ch else t' = t.

(** The same with the text that replaces the placeholder. *)
Definition pieceStep (X : Token) (Out : string → Prop) (t : Token)
    (piece : string) : Prop :=
  if decide (t = X) then Out piece else piece = tokenText t.

Definition isPlaceholder (X : Token) : Prop :=
  X = TUpper ∨ X = TLower ∨ X = TDigit ∨ X = TRandom.

(** The token of a pattern after the passes for [{UPPER}], [{lower}] and
    [{digit}]. *)
Definition afterLetters (t t3 : Token) : Prop :=
  match t with
  | TUpper => ∃ ch, Str.is_upper ch = true ∧ t3 = TChar ch
  | TLower => ∃ ch, Str.is_lower ch = true ∧ t3 = TChar ch
  | TDigit => ∃ ch, Str.is_digit ch = true ∧ t3 = TChar ch
  | TRandom => t3 = TRandom
  | TChar c => t3 = TChar c
  end.

(** ** Shapes of texts *)

(** Two texts of the same length whose characters are related one by one. *)
Fixpoint sameShape (R : ascii → ascii → Prop) (a b : string) : Prop :=
  match a, b with
  | "", "" => True
  | String x a', String y b' => R x y ∧ sameShape R a' b'
  | _, _ => False
  end.

(** A letter stays a letter of the same case, a digit stays a digit, any
    other character stays itself. *)
Definition keepsClass (x y : ascii) : Prop :=
  if Str.is_upper x then Str.is_upper y = true
  else if Str.is_lower x then Str.is_lower y = true
  else if Str.is_digit x then Str.is_digit y = true
  else y = x.

(** A digit stays a digit, any other character stays itself. *)
Definition keepsDigit (x y : ascii) : Prop :=
  if Str.is_digit x then Str.is_digit y = true else y = x.

(** The field that [parseSidFile] pushes for a command, given its
    identifier. *)
Definition fieldOf (newId : string) (c : SidCommand) : FieldConfig :=
  mkField newId (fieldNameOf (default "" (label c)))
          (analyseCommand c).1.1 (analyseCommand c).1.2 true None None
          (analyseCommand c).2.

(** What every field extracted from a recording has in common. *)
Definition ExtractedField (f : FieldConfig) : Prop :=
  name f ≠ "" ∧
  Str.existsb Str.is_upper (name f) = false ∧
  Str.existsb Str.is_ws (name f) = false ∧
  required f = true ∧
  maxFieldLength f = None ∧
  generateNegativeTests f = None ∧
  dataType f ≠ dt_lookup.

(** The commands that the generator hands to the analysis panel:
    [parsedSidData.tests[0].commands], when the recording has a test. *)
Definition panelCommands (sidData : SidFile) : option (list SidCommand) :=
  match tests sidData with
  | [] => None
  | test :: _ => Some (commands test)
  end.

(** The analysis panel, [src/sid-analysis.tsx]. *)
Module SidAnalysis.

(** [commands.filter((cmd) => cmd.label && cmd.value &&
    (cmd.command === "type" || cmd.command === "password"))] *)
Definition dataFields (commands : list SidCommand) : list SidCommand :=
  List.filter
    (fun cmd => opt_str_truthy (label cmd) && Str.truthy (value cmd)
                && (Str.eqb (command cmd) "type"
                    || Str.eqb (command cmd) "password"))
    commands.

End SidAnalysis.

(** ** The list of fields and its handlers *)

(** A handler reads the component state that it closes over, here the list
    [fields], and hands a new list to [setFields]: it is a function from the
    one to the other. *)

(** [Partial<FieldConfig>]: the members that an update carries.  An optional
    member can be carried with the value [undefined]. *)
Record Updates : Type := mkUpdates {
  u_id : option string;
  u_name : option string;
  u_type : option FieldType;
  u_dataType : option DataType;
  u_required : option bool;
  u_maxFieldLength : option (option Z);
  u_generateNegativeTests : option (option bool);
  u_config : option Config
}.

(** [{ ...field, ...updates }] *)
Definition applyUpdates (field : FieldConfig) (updates : Updates)
  : FieldConfig :=
  mkField (default (id field) (u_id updates))
          (default (name field) (u_name updates))
          (default (type field) (u_type updates))
          (default (dataType field) (u_dataType updates))
          (default (required field) (u_required updates))
          (default (maxFieldLength field) (u_maxFieldLength updates))
          (default (generateNegativeTests field)
                   (u_generateNegativeTests updates))
          (default (config field) (u_config updates)).

(** [updateField], from the list of fields to the list handed to
    [setFields]. *)
Definition updateField (fields : list FieldConfig) (fieldId : string)
    (updates : Updates) : list FieldConfig :=
  List.map (fun field => if Str.eqb (id field) fieldId
                         then applyUpdates field updates else field)
           fields.

Definition removeField (fields : list FieldConfig) (fieldId : string)
  : list FieldConfig :=
  List.filter (fun field => negb (Str.eqb (id field) fieldId)) fields.

Definition addField (fields : list FieldConfig) : M (list FieldConfig) :=
  do now <- Date_now;
  ret (fields ++
         [mkField (Str.of_Z now) "" ft_string dt_static false None None
                  emptyConfig]).

(** [{ ...config, csvFile: file, csvData: csvData }] *)
Definition withCsvData (cfg : Config) (grid : list (list string)) : Config :=
  mkConfig (staticValue cfg) (rangeMin cfg) (rangeMax cfg) (lookupValues cfg)
           (Some grid) (csvColumn cfg) (minLength cfg) (maxLength cfg)
           (pattern cfg).

(** [{ ...config, lookupValues: values, csvFile: undefined,
    csvData: undefined, csvColumn: undefined }] *)
Definition withLookupValues (cfg : Config) (values : list string) : Config :=
  mkConfig (staticValue cfg) (rangeMin cfg) (rangeMax cfg) (Some values)
           None None (minLength cfg) (maxLength cfg) (pattern cfg).

(** [{ ...config, csvColumn: value, lookupValues: undefined }] *)
Definition withCsvColumn (cfg : Config) (col : string) : Config :=
  mkConfig (staticValue cfg) (rangeMin cfg) (rangeMax cfg) None
           (csvData cfg) (Some col) (minLength cfg) (maxLength cfg)
           (pattern cfg).

(** [handleCsvUpload] on the text of the uploaded file: the configuration
    of the first field with the identifier is extended with the grid and
    given to every field with that identifier; a rejected promise leaves
    the fields as they are. *)
Definition handleCsvUpload (fields : list FieldConfig) (fieldId : string)
    (text : string) : list FieldConfig :=
  match parseCsvFile text with
  | Resolved grid =>
      let found := List.find (fun f => Str.eqb (id f) fieldId) fields in
      updateField fields fieldId
        (mkUpdates None None None None None None None
           (Some (withCsvData
                    (match found with
                     | Some f => config f
                     | None => emptyConfig
                     end) grid)))
  | Rejected _ => fields
  end.

(** [inputValue.split(",").map((v) => v.trim()).filter((v) => v.length > 0)] *)
Definition lookupEntries (inputValue : string) : list string :=
  List.filter (fun v => 0 <? Str.length v)
              (List.map Str.trim (Str.split_at ","%char inputValue)).

(** The [onChange] handler of the manual entry of lookup values, in the row
    of [field]. *)
Definition onLookupValuesChange (fields : list FieldConfig)
    (field : FieldConfig) (inputValue : string) : list FieldConfig :=
  updateField fields (id field)
    (mkUpdates None None None None None None None
       (Some (withLookupValues (config field) (lookupEntries inputValue)))).

(** The [onValueChange] handler of the column selector, in the row of
    [field]. *)
Definition onCsvColumnChange (fields : list FieldConfig)
    (field : FieldConfig) (col : string) : list FieldConfig :=
  updateField fields (id field)
    (mkUpdates None None None None None None None
       (Some (withCsvColumn (config field) col))).

(** The [onChange] handler of the check box for negative tests, in the row
    of [field]. *)
Definition onNegativeTestsChange (fields : list FieldConfig)
    (field : FieldConfig) (checked : bool) : list FieldConfig :=
  updateField fields (id field)
    (mkUpdates None None None None None None (Some (Some checked)) None).

(** At most one source of lookup values is set up: a field with a selected
    column has no manual values. *)
Definition exclusiveSources (f : FieldConfig) : Prop :=
  opt_str_truthy (csvColumn (config f)) = true →
  lookupValues (config f) = None.

(** ** Further sample inputs *)

Module Example.

(** A file of two records with a quoted cell and blank lines at the end. *)
Definition contacts : string :=
  "name, city" +:+ String LF "" +:+
  String dquote "Doe, J" +:+ String dquote ",Paris" +:+
  String LF "" +:+ String LF "".

(** A required text field whose length limit is below -10. *)
Definition note : FieldConfig :=
  mkField "10" "note" ft_string dt_static true (Some (-20)) None emptyConfig.

(** A lookup field with a selected column over a grid without rows. *)
Definition city : FieldConfig :=
  mkField "11" "city" ft_string dt_lookup false None None
    (mkConfig None None None None (Some []) (Some "name") None None None).

(** A field that opted in but is not automatically eligible. *)
Definition nickname : FieldConfig :=
  mkField "12" "nickname" ft_string dt_static false None (Some true)
    (mkConfig (Some "x") None None None None None None None None).

(** A lookup field over a grid with two columns of the same name, a short
    row and a blank cell; manual values are present as well. *)
Definition town : FieldConfig :=
  mkField "1" "town" ft_string dt_lookup false None None
    (mkConfig None None None (Some ["manual"])
       (Some [["id"; "city"; "city"]; ["1"; "Oslo"; "x"]; ["2"];
              ["3"; "  "; "y"]; ["4"; "Rome"]])
       (Some "city") None None None).

Definition phoneCommand : SidCommand :=
  mkCommand "c3" (Some "Mobile Phone") "type" "id=phone" "+1 (555) 123-4567"
            None.

Definition accountCommand : SidCommand :=
  mkCommand "c4" (Some "Account") "type" "id=account" "20240017" None.

Definition nameCommand : SidCommand :=
  mkCommand "c5" (Some "First Name") "type" "id=first" "Jane" None.

(** A recording whose third command repeats the label of the first. *)
Definition login : SidFile :=
  mkSidFile "f" "1.0" "suite" "http://localhost"
    [mkTest "t" "login"
       [Sample.emailCommand; Sample.passwordCommand; Sample.emailCommand]].

(** A recording of two tests. *)
Definition twoTests : SidFile :=
  mkSidFile "f" "1.0" "suite" "http://localhost"
    [mkTest "t1" "open" [Sample.emailCommand];
     mkTest "t2" "login" [Sample.passwordCommand]].

(** A field under the name of the accessor of [Object.prototype]. *)
Definition proto : FieldConfig :=
  mkField "13" "__proto__" ft_string dt_static false None None
    (mkConfig (Some "x") None None None None None None None None).

(** A required field under the same name. *)
Definition protoRequired : FieldConfig :=
  mkField "17" "__proto__" ft_string dt_static true None None
    (mkConfig (Some "y") None None None None None None None None).

(** A field of a type outside the union, as a schema import makes it, with
    the check box for negative tests ticked. *)
Definition tags : FieldConfig :=
  mkField "14" "tags" ft_other dt_static false None (Some true) emptyConfig.

End Example.

(** * Properties *)

(** Membership of a string literal in a list of string literals. *)
Ltac str_not_in H :=
  repeat (apply elem_of_cons in H as [H|H]; [discriminate H|]);
  by apply elem_of_nil in H.

Ltac str_in := repeat first [by left | right].

(** ** Runs of monadic code *)

Lemma bind_Returns {A B : Type} (m : M A) (k : A → M B) w c b c' :
  bind m k w c = Returns b c' ↔
  ∃ a c1, m w c = Returns a c1 ∧ k a w c1 = Returns b c'.
Proof.
  unfold bind. split.
  - destruct (m w c) as [a c1|e]; [eauto | discriminate].
  - intros (a & c1 & -> & H). exact H.
Qed.

Lemma bind_step {A B : Type} (m : M A) (k : A → M B) w c a c1 :
  m w c = Returns a c1 → bind m k w c = k a w c1.
Proof. unfold bind. by intros ->. Qed.

Lemma returned_length {A : Type} (o : Outcome (list A)) n :
  List.length <$> returned o = Some n →
  ∃ l c', o = Returns l c' ∧ List.length l = n.
Proof.
  destruct o as [l c'|e]; simpl; [|discriminate].
  intros [= <-]. by exists l, c'.
Qed.

Lemma lift_Returns {A : Type} (t : Try A) w c a c' :
  lift t w c = Returns a c' ↔ t = Done a ∧ c' = c.
Proof.
  unfold lift. destruct t; split; intros H; try discriminate.
  - by inversion H.
  - destruct H as [H ->]. by inversion H.
  - by destruct H.
Qed.

Lemma forEach_ext {A S : Type} (f g : S → A → M S) l :
  (∀ s x w c, f s x w c = g s x w c) →
  ∀ s w c, forEach f l s w c = forEach g l s w c.
Proof.
  intros Hfg. induction l as [|x l IH]; intros s w c; simpl; [done|].
  unfold bind. rewrite Hfg. destruct (g s x w c); [apply IH | done].
Qed.

Lemma collect_Forall2 {A B : Type} (f : A → M B) l w :
  ∀ c ys c', collect f l w c = Returns ys c' →
  Forall2 (fun x y => ∃ c1 c2, f x w c1 = Returns y c2) l ys.
Proof.
  induction l as [|x l IH]; intros c ys c' H; simpl in H.
  - inversion H. constructor.
  - apply bind_Returns in H as (y & c1 & Hy & H).
    apply bind_Returns in H as (ys' & c2 & Hys & H).
    inversion H; subst. constructor; eauto.
Qed.

Lemma collect_total {A B : Type} (f : A → M B) l w :
  (∀ x c, x ∈ l → ∃ y c', f x w c = Returns y c') →
  ∀ c, ∃ ys c', collect f l w c = Returns ys c'.
Proof.
  induction l as [|x l IH]; intros Hf c; simpl.
  - by eexists _, _.
  - destruct (Hf x c) as (y & c1 & Hy); [left|].
    destruct (IH (fun x' c0 Hx' => Hf x' c0 (list_elem_of_further _ _ _ Hx')) c1)
      as (ys & c2 & Hys).
    exists (y :: ys), c2.
    rewrite (bind_step _ _ _ _ _ _ Hy), (bind_step _ _ _ _ _ _ Hys). done.
Qed.

Lemma floorRandom_run n w c :
  floorRandom n w c =
  Returns ((random w (draws c) mod two53) * n / two53)
          (mkCursor (S (draws c)) (ticks c)).
Proof. reflexivity. Qed.

Lemma two53_pos : 0 < two53.
Proof. reflexivity. Qed.

(** [Math.floor(Math.random() * n)] lies in [0, n - 1] for a positive
    [n]. *)
Lemma floorRandom_range n w c v c' :
  0 < n → floorRandom n w c = Returns v c' → 0 <= v < n.
Proof.
  intros Hn. rewrite floorRandom_run. intros H. inversion H; subst; clear H.
  pose proof two53_pos as Hp.
  pose proof (Z.mod_pos_bound (random w (draws c)) two53 Hp) as [Hk0 Hk1].
  set (k := random w (draws c) mod two53) in *.
  split.
  - apply Z.div_pos; [nia | done].
  - apply Z.div_lt_upper_bound; [done | nia].
Qed.

(** ** Strings *)

Lemma string_length_app (a b : string) :
  String.length (a +:+ b) = (String.length a + String.length b)%nat.
Proof. induction a as [|ch a IH]; simpl; [done | by rewrite IH]. Qed.

Lemma Str_length_app (a b : string) :
  Str.length (a +:+ b) = Str.length a + Str.length b.
Proof. unfold Str.length. rewrite string_length_app. lia. Qed.

Lemma Str_length_map f s : String.length (Str.map f s) = String.length s.
Proof. induction s as [|ch s IH]; simpl; [done | by rewrite IH]. Qed.

Lemma Str_length_repeat ch n : String.length (Str.repeat ch n) = n.
Proof. induction n as [|n IH]; simpl; [done | by rewrite IH]. Qed.

Lemma Str_length_take n s :
  String.length (Str.take n s) = Nat.min n (String.length s).
Proof.
  revert s. induction n as [|n IH]; intros [|ch s]; simpl; try done.
  by rewrite IH.
Qed.

Lemma Str_is_empty_true s : Str.is_empty s = true ↔ s = "".
Proof. destruct s; simpl; split; congruence. Qed.

Lemma Str_is_empty_false s : Str.is_empty s = false ↔ s ≠ "".
Proof. destruct s; simpl; split; congruence. Qed.

Lemma Str_truthy_true s : Str.truthy s = true ↔ s ≠ "".
Proof. unfold Str.truthy. destruct s; simpl; split; congruence. Qed.

Lemma Str_eqb_true a b : Str.eqb a b = true ↔ a = b.
Proof. unfold Str.eqb. apply bool_decide_eq_true. Qed.

Lemma Str_eqb_false a b : Str.eqb a b = false ↔ a ≠ b.
Proof. unfold Str.eqb. apply bool_decide_eq_false. Qed.

(** ** Lookup Value Resolver *)

Lemma indexOf_None col header : col ∉ header → indexOf col header = None.
Proof.
  induction header as [|h rest IH]; intros Hn; simpl; [done|].
  apply not_elem_of_cons in Hn as [Hne Hrest].
  rewrite (proj2 (Str_eqb_false h col)); [|congruence].
  by rewrite IH.
Qed.

Lemma manualLookupValues_unset field :
  lookupValues (config field) = None → manualLookupValues field = [].
Proof. unfold manualLookupValues. by intros ->. Qed.

(** Lookup synthesis on an empty candidate list yields the empty string
    and reads nothing from the oracle. *)
Lemma generateFieldValue_lookup_empty field w c :
  dataType field = dt_lookup →
  getLookupValues field = Done [] →
  generateFieldValue field w c = Returns (VStr "") c.
Proof.
  intros Hd Hl. unfold generateFieldValue.
  destruct (Str.is_empty (name field)); [done|].
  unfold synthesize, bind, lift. rewrite Hd, Hl. done.
Qed.

(** C1 (as stated) fails: the column [age] is missing from the header
    [name], yet resolution returns the manual value and synthesis
    yields it. *)
Lemma getLookupValues_stale_csv_uses_manual_values :
  csvData (config Sample.staleCsv) = Some [["name"]; ["x"]] ∧
  csvColumn (config Sample.staleCsv) = Some "age" ∧
  ("age" ∉ ["name"]) ∧
  getLookupValues Sample.staleCsv = Done ["a"] ∧
  getLookupValues Sample.staleCsv ≠ Done [] ∧
  generateFieldValue Sample.staleCsv Sample.world Sample.start
    = Returns (VStr "a") (mkCursor 1 0).
Proof.
  repeat split; try reflexivity.
  - intros H. str_not_in H.
  - discriminate.
Qed.

(** C1 (amended): when the selected CSV column is missing from the header
    row, resolution falls back to the manual lookup values (those that are
    not blank); it is the empty sequence when no manual values are set, and
    lookup synthesis on an empty resolution yields the empty string. *)
Theorem getLookupValues_missing_column field header rows col :
  csvData (config field) = Some (header :: rows) →
  csvColumn (config field) = Some col →
  col ≠ "" →
  col ∉ header →
  getLookupValues field = Done (manualLookupValues field) ∧
  (lookupValues (config field) = None → getLookupValues field = Done []) ∧
  (manualLookupValues field = [] → dataType field = dt_lookup →
   ∀ w c, generateFieldValue field w c = Returns (VStr "") c).
Proof.
  intros Hdata Hcol Hne Hnotin.
  assert (Hget : getLookupValues field = Done (manualLookupValues field)).
  { unfold getLookupValues. rewrite Hdata, Hcol.
    rewrite (proj2 (Str_truthy_true col) Hne).
    by rewrite (indexOf_None _ _ Hnotin). }
  split; [done|]. split.
  - intros Hnone. by rewrite Hget, manualLookupValues_unset.
  - intros Hempty Hd w c. apply generateFieldValue_lookup_empty; [done|].
    by rewrite Hget, Hempty.
Qed.

Lemma getLookupValues_missing_column_witness :
  getLookupValues Sample.missingColumn = Done [] ∧
  generateFieldValue Sample.missingColumn Sample.world Sample.start
    = Returns (VStr "") Sample.start.
Proof.
  destruct (getLookupValues_missing_column Sample.missingColumn
              ["name"] [["x"]] "age") as (_ & H1 & H2).
  - reflexivity.
  - reflexivity.
  - discriminate.
  - intros H. str_not_in H.
  - split; [by apply H1 | by apply H2].
Defined.

(** ** Negative Test-Case Generator *)

(** The code lists the kinds in the order of the specification. *)
Lemma getNegativeTestTypes_spec field :
  getNegativeTestTypes field = spec_applicableKinds field.
Proof.
  unfold getNegativeTestTypes, spec_applicableKinds, spec_requiredKinds,
    spec_typeKinds.
  destruct (type field); try reflexivity. by rewrite app_nil_r.
Qed.

(** ** Field Inference Engine *)

Lemma forEach_single {A S : Type} (f : S → A → M S) x s w c :
  forEach f [x] s w c = f s x w c.
Proof. simpl. unfold bind. destruct (f s x w c); reflexivity. Qed.

(** What [parseSidFile] extracts from a file of one test with one
    extractable command. *)
Lemma parseSidFile_single fid ver nm addr tid tnm cmd w c :
  extractable cmd = true →
  ∃ c',
    parseSidFile (mkSidFile fid ver nm addr [mkTest tid tnm [cmd]]) w c =
    Returns [mkField (Str.of_Z (timeValue (clock w (ticks c))) +:+
                        toString10 w (random w (draws c) mod two53))
                     (fieldNameOf (default "" (label cmd)))
                     (analyseCommand cmd).1.1 (analyseCommand cmd).1.2
                     true None None (analyseCommand cmd).2] c'.
Proof.
  intros Hex. unfold parseSidFile. simpl tests.
  rewrite forEach_single. simpl commands. rewrite forEach_single.
  unfold extractCommand. rewrite Hex.
  destruct (analyseCommand cmd) as [[ft dt] cfg]. simpl.
  eexists. reflexivity.
Qed.

(** C8 (as stated) fails for the password command of the specification,
    [{command: "password", value: "Ab3x"}]: it has no label, the guard of
    the extraction loop skips it, and no field is inferred. *)
Lemma parseSidFile_unlabelled_password :
  label Sample.unlabelledPassword = None ∧
  command Sample.unlabelledPassword = "password" ∧
  value Sample.unlabelledPassword = "Ab3x" ∧
  extractable Sample.unlabelledPassword = false ∧
  parseSidFile (Sample.fileOf Sample.unlabelledPassword)
               Sample.world Sample.start
  = Returns [] Sample.start.
Proof. repeat split. Qed.

(** C8 (amended): the command [type "Email Address" "jane@acme.com"] yields
    a field named email_address of type email with strategy pattern and
    pattern [{random}@acme.com]; a password command with sample value
    [Ab3x] that carries a label yields a field named after the label, of
    type string, with strategy pattern and the pattern
    [{UPPER}{lower}{digit}{lower}], which [generatePasswordPattern] derives
    from the sample; a password command without a label, or with an empty
    one, yields no field. *)
Theorem parseSidFile_email_and_password fid ver nm addr tid tnm w c :
  (∀ cid tgt rnd, ∃ f c',
     parseSidFile
       (mkSidFile fid ver nm addr
          [mkTest tid tnm
             [mkCommand cid (Some "Email Address") "type" tgt
                        "jane@acme.com" rnd]]) w c = Returns [f] c' ∧
     name f = "email_address" ∧ type f = ft_email ∧
     dataType f = dt_pattern ∧
     pattern (config f) = Some "{random}@acme.com") ∧
  generatePasswordPattern "Ab3x" = "{UPPER}{lower}{digit}{lower}" ∧
  (∀ cid lbl tgt rnd, lbl ≠ "" → ∃ f c',
     parseSidFile
       (mkSidFile fid ver nm addr
          [mkTest tid tnm
             [mkCommand cid (Some lbl) "password" tgt "Ab3x" rnd]]) w c
       = Returns [f] c' ∧
     name f = fieldNameOf lbl ∧ type f = ft_string ∧
     dataType f = dt_pattern ∧
     pattern (config f) = Some "{UPPER}{lower}{digit}{lower}") ∧
  (∀ cid lbl tgt rnd, lbl = None ∨ lbl = Some "" →
     parseSidFile
       (mkSidFile fid ver nm addr
          [mkTest tid tnm
             [mkCommand cid lbl "password" tgt "Ab3x" rnd]]) w c
       = Returns [] c).
Proof.
  split; [|split; [|split]].
  - intros cid tgt rnd.
    destruct (parseSidFile_single fid ver nm addr tid tnm
                (mkCommand cid (Some "Email Address") "type" tgt
                           "jane@acme.com" rnd) w c) as (c' & Hrun);
      [reflexivity|].
    eexists _, c'. split; [exact Hrun|]. repeat split.
  - reflexivity.
  - intros cid lbl tgt rnd Hlbl.
    destruct (parseSidFile_single fid ver nm addr tid tnm
                (mkCommand cid (Some lbl) "password" tgt "Ab3x" rnd) w c)
      as (c' & Hrun).
    { unfold extractable. simpl.
      by rewrite (proj2 (Str_truthy_true lbl) Hlbl). }
    eexists _, c'. split; [exact Hrun|]. repeat split.
  - intros cid lbl tgt rnd Hlbl. unfold parseSidFile. simpl tests.
    rewrite forEach_single. simpl commands. rewrite forEach_single.
    by destruct Hlbl as [-> | ->].
Qed.

Lemma parseSidFile_email_and_password_witness :
  (∃ f c',
     parseSidFile (Sample.fileOf Sample.passwordCommand)
                  Sample.world Sample.start = Returns [f] c' ∧
     name f = "password" ∧
     pattern (config f) = Some "{UPPER}{lower}{digit}{lower}") ∧
  parseSidFile (Sample.fileOf Sample.unlabelledPassword)
               Sample.world Sample.start = Returns [] Sample.start.
Proof.
  destruct (parseSidFile_email_and_password "f" "1.0" "suite"
              "http://localhost" "t" "login" Sample.world Sample.start)
    as (_ & _ & H & Hnone).
  split.
  - destruct (H "c2" "Password" "id=pw" None)
      as (f & c' & Hrun & Hn & _ & _ & Hp); [discriminate|].
    exists f, c'. repeat split; [exact Hrun | exact Hn | exact Hp].
  - apply (Hnone "c2" None "id=pw" None). by left.
Defined.

(** ** Record Set Builder: the records *)

Lemma pushed_Returns (m : M RecordObject) w c r c' :
  pushed m w c = Returns r c' ↔
  ∃ record, m w c = Returns record c' ∧ properties record = r.
Proof.
  unfold pushed. rewrite bind_Returns. split.
  - intros (record & c1 & Hm & [= <- <-]). by exists record.
  - intros (record & Hm & <-). by exists record, c'.
Qed.

Lemma pushed_ext (m m' : M RecordObject) w c :
  m w c = m' w c → pushed m w c = pushed m' w c.
Proof. unfold pushed, bind. by intros ->. Qed.

(** An assignment leaves the other properties as they are. *)
Lemma setProperty_lookup_ne key v record k :
  key ≠ k →
  properties (setProperty key v record) !! k = properties record !! k.
Proof.
  intros Hne. unfold setProperty.
  destruct (bool_decide (key = "__proto__") && hasPrototype record
            && bool_decide (properties record !! key = None)).
  - by destruct v.
  - simpl. by rewrite lookup_insert_ne.
Qed.

(** An assignment to a key other than [__proto__] sets the property. *)
Lemma setProperty_lookup_eq key v record :
  key ≠ "__proto__" →
  properties (setProperty key v record) !! key = Some v.
Proof.
  intros Hne. unfold setProperty.
  rewrite (bool_decide_eq_false_2 _ Hne). simpl. apply lookup_insert_eq.
Qed.

(** While no [null] is assigned, the record keeps its prototype and gets no
    own property [__proto__]. *)
Lemma setProperty_hasPrototype key v record :
  hasPrototype record = true → properties record !! "__proto__" = None →
  v ≠ VNull →
  hasPrototype (setProperty key v record) = true ∧
  properties (setProperty key v record) !! "__proto__" = None.
Proof.
  intros Hproto Hown Hv. unfold setProperty. rewrite Hproto.
  destruct (decide (key = "__proto__")) as [->|Hne].
  - rewrite bool_decide_eq_true_2 by done.
    rewrite (bool_decide_eq_true_2 _ Hown). simpl. by destruct v.
  - rewrite (bool_decide_eq_false_2 _ Hne). simpl.
    split; [done|]. by rewrite lookup_insert_ne.
Qed.

Lemma fillStandard_fillWith rec field w c :
  fillStandard rec field w c = fillWith generateFieldValue rec field w c.
Proof. reflexivity. Qed.

Lemma fillLookupMode_fillWith i rec field w c :
  fillLookupMode i rec field w c = fillWith (lookupModeValue i) rec field w c.
Proof.
  unfold fillLookupMode, fillWith, lookupModeValue.
  destruct (Str.is_empty (name field)); [done|].
  destruct (bool_decide (dataType field = dt_lookup)); [|done].
  unfold bind, lift. destruct (getLookupValues field) as [vs|e]; [|done].
  by destruct (0 <? Z.of_nat (List.length vs)).
Qed.

Lemma fillNegative_fillWith target kind rec field w c :
  fillNegative target kind rec field w c =
  fillWith (negativeModeValue target kind) rec field w c.
Proof.
  unfold fillNegative, fillWith, negativeModeValue.
  destruct (Str.is_empty (name field)); [done|].
  by destruct (Str.eqb (id field) (id target)).
Qed.

Lemma fieldNames_cons_unnamed f fields :
  name f = "" → fieldNames (f :: fields) = fieldNames fields.
Proof. unfold fieldNames. simpl. by intros ->. Qed.

Lemma fieldNames_cons_named f fields :
  name f ≠ "" → fieldNames (f :: fields) = name f :: fieldNames fields.
Proof.
  unfold fieldNames. simpl. intros H.
  by rewrite (proj2 (Str_truthy_true _) H).
Qed.

Lemma elem_of_fieldNames k fields :
  k ∈ fieldNames fields ↔ ∃ f, f ∈ fields ∧ name f = k ∧ k ≠ "".
Proof.
  unfold fieldNames. rewrite list_elem_of_In, List.in_map_iff. split.
  - intros (f & <- & Hin). apply List.filter_In in Hin as [Hin Ht].
    exists f. rewrite list_elem_of_In. by apply Str_truthy_true in Ht.
  - intros (f & Hin & <- & Hne). exists f. split; [done|].
    apply List.filter_In. rewrite <- list_elem_of_In.
    by rewrite Str_truthy_true.
Qed.

(** The property that a filled record has under a key: the one it had
    before when no named field carries the key; otherwise, for a key other
    than [__proto__], the value chosen for the last field that carries
    it. *)
Lemma forEach_fillWith_lookup g fields w :
  ∀ rec c r c',
    forEach (fillWith g) fields rec w c = Returns r c' →
    ∀ k,
      (properties r !! k = properties rec !! k ∧ k ∉ fieldNames fields) ∨
      (∃ pre f post v c1 c2,
         fields = pre ++ f :: post ∧ name f = k ∧ k ≠ "" ∧
         (k ∉ fieldNames post) ∧
         g f w c1 = Returns v c2 ∧
         (k ≠ "__proto__" → properties r !! k = Some v)).
Proof.
  induction fields as [|x l IH]; intros rec c r c' Hrun k.
  - simpl in Hrun. inversion Hrun; subst. left. split; [done|].
    apply not_elem_of_nil.
  - simpl in Hrun. apply bind_Returns in Hrun as (rec' & c1 & Hx & Hl).
    unfold fillWith in Hx.
    destruct (Str.is_empty (name x)) eqn:Hempty.
    + apply Str_is_empty_true in Hempty.
      inversion Hx; subst rec' c1; clear Hx.
      destruct (IH _ _ _ _ Hl k) as [[Hk Hnot]|Hright].
      * left. by rewrite fieldNames_cons_unnamed.
      * right. destruct Hright as (pre & f & post & v & ca & cb & -> & H).
        by exists (x :: pre), f, post, v, ca, cb.
    + apply Str_is_empty_false in Hempty.
      apply bind_Returns in Hx as (v & c0 & Hg & Hret).
      inversion Hret; subst rec' c1; clear Hret.
      destruct (IH _ _ _ _ Hl k) as [[Hk Hnot]|Hright].
      * destruct (decide (name x = k)) as [Heq|Hne].
        -- right. exists [], x, l, v, c, c0. subst k.
           split; [done|]. split; [done|]. split; [done|].
           split; [done|]. split; [done|]. intros Hproto.
           by rewrite Hk, setProperty_lookup_eq.
        -- left. rewrite Hk, setProperty_lookup_ne by done. split; [done|].
           rewrite fieldNames_cons_named by done.
           apply not_elem_of_cons. split; congruence.
      * right. destruct Hright as (pre & f & post & v' & ca & cb & -> & H).
        by exists (x :: pre), f, post, v', ca, cb.
Qed.

Lemma forEach_app {A S : Type} (f : S → A → M S) l1 l2 s w c r c' :
  forEach f (l1 ++ l2) s w c = Returns r c' ↔
  ∃ s1 c1, forEach f l1 s w c = Returns s1 c1 ∧
           forEach f l2 s1 w c1 = Returns r c'.
Proof.
  revert s c. induction l1 as [|x l1 IH]; intros s c; simpl.
  - split; [by exists s, c | by intros (s1 & c1 & [= <- <-] & H)].
  - rewrite bind_Returns. split.
    + intros (s' & c0 & Hx & H). apply IH in H as (s1 & c1 & H1 & H2).
      exists s1, c1. split; [|done]. by rewrite (bind_step _ _ _ _ _ _ Hx).
    + intros (s1 & c1 & H1 & H2).
      apply bind_Returns in H1 as (s' & c0 & Hx & H1).
      exists s', c0. split; [done|]. apply IH. by exists s1, c1.
Qed.

(** The value chosen for a named field during the filling, and the
    property it leaves in the record: the record holds that value under the
    name of the field unless the name is [__proto__] or a field declared
    later carries the same name. *)
Lemma forEach_fillWith_at g pre f post w rec c r c' :
  forEach (fillWith g) (pre ++ f :: post) rec w c = Returns r c' →
  name f ≠ "" →
  ∃ v c1 c2,
    g f w c1 = Returns v c2 ∧
    (name f ≠ "__proto__" → name f ∉ fieldNames post →
     properties r !! name f = Some v).
Proof.
  intros Hrun Hname.
  apply forEach_app in Hrun as (rec1 & c1 & _ & Hrun). simpl in Hrun.
  apply bind_Returns in Hrun as (rec2 & c2 & Hf & Hpost).
  unfold fillWith in Hf.
  rewrite (proj2 (Str_is_empty_false _) Hname) in Hf.
  apply bind_Returns in Hf as (v & c3 & Hg & Hret).
  injection Hret as <- <-.
  exists v, c1, c3. split; [done|]. intros Hproto Hnot.
  destruct (forEach_fillWith_lookup g post w _ _ _ _ Hpost (name f))
    as [[Hk _]|(pre' & f' & post' & v' & ca & cb & -> & Hn & _ & _)].
  - by rewrite Hk, setProperty_lookup_eq.
  - exfalso. apply Hnot. apply elem_of_fieldNames. exists f'.
    split; [|done]. apply elem_of_app. right. left.
Qed.

(** A key that is no field name keeps the property it had. *)
Lemma forEach_fillWith_other g fields w rec c r c' k :
  forEach (fillWith g) fields rec w c = Returns r c' →
  k ∉ fieldNames fields → properties r !! k = properties rec !! k.
Proof.
  intros Hrun Hnot.
  destruct (forEach_fillWith_lookup g fields w _ _ _ _ Hrun k)
    as [[Hk _]|(pre & f & post & v & c1 & c2 & -> & Hname & Hne & _)];
    [done|].
  exfalso. apply Hnot. apply elem_of_fieldNames. exists f.
  split; [|done]. apply elem_of_app. right. left.
Qed.

(** The same for the record that is pushed to the output. *)
Lemma pushed_fillWith_lookup g fields w seed c r c' :
  pushed (forEach (fillWith g) fields (objectLiteral seed)) w c
  = Returns r c' →
  ∀ k,
    (r !! k = seed !! k ∧ k ∉ fieldNames fields) ∨
    (∃ pre f post v c1 c2,
       fields = pre ++ f :: post ∧ name f = k ∧ k ≠ "" ∧
       (k ∉ fieldNames post) ∧
       g f w c1 = Returns v c2 ∧
       (k ≠ "__proto__" → r !! k = Some v)).
Proof.
  intros (record & Hrun & <-)%pushed_Returns k.
  apply (forEach_fillWith_lookup g fields w _ _ _ _ Hrun k).
Qed.

Lemma pushed_fillWith_at g pre f post w seed c r c' :
  pushed (forEach (fillWith g) (pre ++ f :: post) (objectLiteral seed)) w c
  = Returns r c' →
  name f ≠ "" →
  ∃ v c1 c2,
    g f w c1 = Returns v c2 ∧
    (name f ≠ "__proto__" → name f ∉ fieldNames post →
     r !! name f = Some v).
Proof.
  intros (record & Hrun & <-)%pushed_Returns Hname.
  apply (forEach_fillWith_at _ _ _ _ _ _ _ _ _ Hrun Hname).
Qed.

Lemma pushed_fillWith_other g fields w seed c r c' k :
  pushed (forEach (fillWith g) fields (objectLiteral seed)) w c
  = Returns r c' →
  k ∉ fieldNames fields → r !! k = seed !! k.
Proof.
  intros (record & Hrun & <-)%pushed_Returns Hnot.
  apply (forEach_fillWith_other _ _ _ _ _ _ _ _ Hrun Hnot).
Qed.

Lemma positive_FilledFrom_standard fields w c r c' :
  pushed (forEach fillStandard fields (objectLiteral positiveSeed)) w c
  = Returns r c' →
  FilledFrom fields w positiveSeed r.
Proof.
  intros H. exists generateFieldValue, c, c'. rewrite <- H.
  symmetry. apply pushed_ext, forEach_ext.
  intros. apply fillStandard_fillWith.
Qed.

Lemma positive_FilledFrom_lookup i fields w c r c' :
  pushed (forEach (fillLookupMode i) fields (objectLiteral positiveSeed)) w c
  = Returns r c' →
  pushed (forEach (fillWith (lookupModeValue i)) fields
                  (objectLiteral positiveSeed)) w c
  = Returns r c'.
Proof.
  intros H. rewrite <- H. symmetry. apply pushed_ext, forEach_ext.
  intros. apply fillLookupMode_fillWith.
Qed.

Lemma negativeRecord_fillWith fields target kind w c :
  negativeRecord fields target kind w c =
  pushed (forEach (fillWith (negativeModeValue target kind)) fields
                  (objectLiteral (negativeSeed target kind))) w c.
Proof.
  unfold negativeRecord. apply pushed_ext, forEach_ext.
  intros. apply fillNegative_fillWith.
Qed.

Lemma NegativeOf_FilledFrom fields w target kind r :
  NegativeOf fields w target kind r →
  FilledFrom fields w (negativeSeed target kind) r.
Proof.
  intros (c1 & c2 & H). exists (negativeModeValue target kind), c1, c2.
  by rewrite <- negativeRecord_fillWith.
Qed.

(** ** Record Set Builder: the sequence of records *)

Lemma Forall2_Forall_right {A B : Type} (P : A → B → Prop) (Q : B → Prop)
    l ys :
  Forall2 P l ys → (∀ x y, P x y → Q y) → Forall Q ys.
Proof. induction 1; intros HPQ; constructor; eauto. Qed.

Lemma Forall2_impl_elem {A B : Type} (P Q : A → B → Prop) l ys :
  Forall2 P l ys → (∀ x y, x ∈ l → P x y → Q x y) → Forall2 Q l ys.
Proof.
  induction 1 as [|x y l ys HP _ IH]; intros HPQ; constructor.
  - apply HPQ; [left | done].
  - apply IH. intros x' y' Hin. apply HPQ. by right.
Qed.

Lemma filter_sublist {A : Type} (p : A → bool) (l : list A) :
  sublist (List.filter p l) l.
Proof.
  induction l as [|x l IH]; simpl; [constructor|].
  destruct (p x); by constructor.
Qed.

Lemma negativeTargets_sublist fields incl :
  sublist (negativeTargets fields incl) fields.
Proof.
  unfold negativeTargets, negativeTestFields.
  destruct (shouldIncludeNegativeTests fields incl).
  - apply filter_sublist.
  - apply sublist_nil_l.
Qed.

Lemma negativeTargets_named fields incl target :
  target ∈ negativeTargets fields incl → target ∈ fields ∧ name target ≠ "".
Proof.
  unfold negativeTargets, negativeTestFields.
  destruct (shouldIncludeNegativeTests fields incl);
    [|by intros ?%elem_of_nil].
  rewrite list_elem_of_In, List.filter_In, <- list_elem_of_In.
  intros [Hin Hp]. split; [done|].
  apply andb_true_iff in Hp as [_ Hp]. by apply Str_truthy_true.
Qed.

(** The target fields of a run: when the negative phase takes place, the
    named fields that opted in or are automatically eligible. *)
Lemma negativeTargets_elem fields incl target :
  target ∈ negativeTargets fields incl ↔
  shouldIncludeNegativeTests fields incl = true ∧
  target ∈ fields ∧
  (flag_truthy (generateNegativeTests target) = true ∨
   shouldAutoEnableNegativeTests target = true) ∧
  name target ≠ "".
Proof.
  unfold negativeTargets, negativeTestFields.
  destruct (shouldIncludeNegativeTests fields incl).
  - rewrite list_elem_of_In, List.filter_In, <- list_elem_of_In.
    rewrite andb_true_iff, orb_true_iff, Str_truthy_true. tauto.
  - split; [by intros ?%elem_of_nil | by intros [? _]].
Qed.

(** Every positive record is the seed [{_testType: "positive"}] filled
    with the fields. *)
Lemma positiveRecords_filled fields n w c recs c' :
  positiveRecords fields n w c = Returns recs c' →
  Forall (FilledFrom fields w positiveSeed) recs.
Proof.
  unfold positiveRecords. intros H.
  apply bind_Returns in H as (lf & c1 & _ & H).
  destruct (0 <? Z.of_nat (List.length lf)).
  - apply bind_Returns in H as (lens & c2 & _ & H).
    apply collect_Forall2 in H.
    apply (Forall2_Forall_right _ _ _ _ H).
    intros i r (ca & cb & Hr).
    exists (lookupModeValue i), ca, cb.
    by apply positive_FilledFrom_lookup.
  - apply collect_Forall2 in H.
    apply (Forall2_Forall_right _ _ _ _ H).
    intros i r (ca & cb & Hr).
    by apply positive_FilledFrom_standard in Hr.
Qed.

(** The output of a run: the positive batch, then one group of negative
    records per target field in declaration order, each group following
    the kinds of its target. *)
Lemma generateTestData_shape fields n incl w c data c' :
  generateTestData fields n incl w c = Returns data c' →
  ∃ positives groups c1,
    positiveRecords fields n w c = Returns positives c1 ∧
    data = positives ++ concat groups ∧
    Forall2 (fun target group =>
               Forall2 (NegativeOf fields w target)
                       (getNegativeTestTypes target) group)
            (negativeTargets fields incl) groups.
Proof.
  unfold generateTestData. intros H.
  apply bind_Returns in H as (positives & c1 & Hpos & H).
  apply bind_Returns in H as (negatives & c2 & Hneg & H).
  inversion H; subst data c'; clear H.
  unfold negativeRecords in Hneg. unfold negativeTargets.
  destruct (shouldIncludeNegativeTests fields incl).
  - apply bind_Returns in Hneg as (groups & c3 & Hgroups & H).
    inversion H; subst negatives c3; clear H.
    exists positives, groups, c1. split; [done|]. split; [done|].
    apply collect_Forall2 in Hgroups.
    apply (Forall2_impl _ _ _ _ Hgroups).
    intros target group (ca & cb & Hg).
    unfold negativeRecordsFor in Hg.
    by apply collect_Forall2 in Hg.
  - inversion Hneg; subst negatives c2; clear Hneg.
    exists positives, [], c1. split; [done|]. split; [done|]. constructor.
Qed.

(** Every record of a run is a seed of metadata filled with the fields. *)
Lemma generateTestData_filled fields n incl w c data c' :
  generateTestData fields n incl w c = Returns data c' →
  ∀ r, r ∈ data →
    FilledFrom fields w positiveSeed r ∨
    ∃ target kind, FilledFrom fields w (negativeSeed target kind) r.
Proof.
  intros Hrun r Hin.
  apply generateTestData_shape in Hrun
    as (positives & groups & c1 & Hpos & -> & Hgroups).
  apply elem_of_app in Hin as [Hin|Hin].
  - left. apply positiveRecords_filled in Hpos.
    by apply (proj1 (Forall_forall _ _) Hpos).
  - right. apply list_elem_of_In, List.in_concat in Hin as (group & Hgroup & Hr).
    apply list_elem_of_In in Hgroup, Hr.
    apply list_elem_of_lookup in Hgroup as (j & Hj).
    destruct (Forall2_lookup_r _ _ _ _ _ Hgroups Hj)
      as (target & _ & Hkinds).
    apply list_elem_of_lookup in Hr as (i & Hi).
    destruct (Forall2_lookup_r _ _ _ _ _ Hkinds Hi) as (kind & _ & Hneg).
    exists target, kind. by apply NegativeOf_FilledFrom.
Qed.

Lemma positiveSeed_keys k :
  is_Some (positiveSeed !! k) → k ∈ metadataKeys.
Proof.
  unfold positiveSeed, metadataKeys. intros [v Hv].
  apply lookup_singleton_Some in Hv as [<- _]. left.
Qed.

Lemma negativeSeed_keys target kind k :
  is_Some (negativeSeed target kind !! k) → k ∈ metadataKeys.
Proof.
  unfold negativeSeed, metadataKeys. intros [v Hv].
  repeat (apply lookup_insert_Some in Hv as [[<- _]|[_ Hv]];
          [str_in|]).
  by rewrite lookup_empty in Hv.
Qed.

(** The keys of a filled record: those of the seed and the names of the
    named fields. *)
Lemma FilledFrom_keys fields w seed r k :
  FilledFrom fields w seed r →
  is_Some (r !! k) →
  is_Some (seed !! k) ∨ ∃ f, f ∈ fields ∧ name f = k ∧ k ≠ "".
Proof.
  intros (g & c1 & c2 & Hrun) Hsome.
  destruct (pushed_fillWith_lookup g fields w _ _ _ _ Hrun k)
    as [[Hk _]|(pre & f & post & v & ca & cb & -> & Hname & Hne & _)].
  - left. by rewrite <- Hk.
  - right. exists f. split; [|done]. apply elem_of_app. right. left.
Qed.

(** C9: in every record of a generation run the empty string is not a key:
    each key is a reserved metadata key or the non-empty name of a
    configured field, so a field without a name contributes no key. *)
Theorem records_have_no_empty_key fields n incl w c data c' :
  generateTestData fields n incl w c = Returns data c' →
  ∀ r, r ∈ data →
    r !! "" = None ∧
    ∀ k, is_Some (r !! k) →
         k ∈ metadataKeys ∨ ∃ f, f ∈ fields ∧ name f = k ∧ k ≠ "".
Proof.
  intros Hrun r Hin.
  assert (Hkeys : ∀ k, is_Some (r !! k) →
            k ∈ metadataKeys ∨ ∃ f, f ∈ fields ∧ name f = k ∧ k ≠ "").
  { intros k Hsome.
    destruct (generateTestData_filled _ _ _ _ _ _ _ Hrun r Hin)
      as [Hfill|(target & kind & Hfill)];
      destruct (FilledFrom_keys _ _ _ _ k Hfill Hsome) as [Hseed|Hfield];
      try (by right).
    - left. by apply positiveSeed_keys.
    - left. by apply negativeSeed_keys in Hseed. }
  split; [|done].
  destruct (r !! "") as [v|] eqn:Hv; [|done]. exfalso.
  destruct (Hkeys "") as [Hmeta|(f & _ & _ & Hne)]; [by eexists| |done].
  unfold metadataKeys in Hmeta. str_not_in Hmeta.
Qed.

Lemma records_have_no_empty_key_witness :
  ∃ data c',
    generateTestData [Sample.unnamed; Sample.username] 2 false
                     Sample.world Sample.start = Returns data c' ∧
    List.length data = 7%nat ∧
    ∀ r, r ∈ data → r !! "" = None.
Proof.
  destruct (returned_length
              (generateTestData [Sample.unnamed; Sample.username] 2 false
                                Sample.world Sample.start) 7)
    as (data & c' & E & Hlen); [vm_compute; reflexivity|].
  exists data, c'. split; [exact E|]. split; [exact Hlen|].
  intros r Hr.
  exact (proj1 (records_have_no_empty_key _ _ _ _ _ _ _ E r Hr)).
Defined.

(** ** Value Synthesis Engine: every synthesis returns *)

Lemma Total_ret {A : Type} w (a : A) : Total w (ret a).
Proof. intros c. by exists a, c. Qed.

Lemma Total_bind {A B : Type} w (m : M A) (k : A → M B) :
  Total w m → (∀ a, Total w (k a)) → Total w (bind m k).
Proof.
  intros Hm Hk c. destruct (Hm c) as (a & c1 & Ha).
  destruct (Hk a c1) as (b & c2 & Hb).
  exists b, c2. by rewrite (bind_step _ _ _ _ _ _ Ha).
Qed.

Lemma Total_floorRandom w n : Total w (floorRandom n).
Proof. intros c. rewrite floorRandom_run. by eexists _, _. Qed.

Lemma Total_lift {A : Type} w (t : Try A) a : t = Done a → Total w (lift t).
Proof. intros -> c. by exists a, c. Qed.

Lemma string_get_Some n s :
  (n < String.length s)%nat → ∃ ch, String.get n s = Some ch.
Proof.
  revert n. induction s as [|ch s IH]; intros n Hn; simpl in Hn; [lia|].
  destruct n as [|n]; simpl; [by exists ch|]. apply IH. lia.
Qed.

Lemma charAt_length i s :
  0 <= i < Str.length s → String.length (charAt i s) = 1%nat.
Proof.
  unfold Str.length, charAt. intros Hi.
  destruct (string_get_Some (Z.to_nat i) s) as (ch & ->); [lia | done].
Qed.

(** The loop of [generateRandomString] appends exactly [n] characters. *)
Lemma randomChars_run n w :
  ∀ result c, ∃ s c',
    randomChars n result w c = Returns s c' ∧
    String.length s = (String.length result + n)%nat.
Proof.
  induction n as [|n IH]; intros result c; simpl.
  - exists result, c. split; [done | lia].
  - destruct (Total_floorRandom w (Str.length chars) c) as (i & c1 & Hi).
    rewrite (bind_step _ _ _ _ _ _ Hi).
    destruct (IH (result +:+ charAt i chars) c1) as (s & c2 & Hs & Hlen).
    exists s, c2. split; [done|].
    rewrite Hlen, string_length_app, charAt_length; [lia|].
    by apply (floorRandom_range _ w c i c1).
Qed.

Lemma isoDate_valid now k :
  0 <= now <= 8640000000000000 → 0 <= k < two53 →
  ∃ d, isoDate (now * two53 - k * (365 * 24 * 60 * 60 * 1000)) = Done d.
Proof.
  intros Hnow Hk. unfold isoDate.
  pose proof two53_pos as Hp.
  set (num := now * two53 - k * (365 * 24 * 60 * 60 * 1000)).
  assert (Hnum : Z.abs num <= 8640000000000000 * two53).
  { subst num. apply Z.abs_le. nia. }
  rewrite (proj2 (Z.ltb_ge _ _) Hnum).
  destruct (civil_from_days (Z.quot num two53 / 86400000)) as [[y m] d].
  by eexists.
Qed.

Lemma generateRandomString_total length ty w :
  Total w (generateRandomString length ty).
Proof.
  intros c. unfold generateRandomString.
  destruct (randomChars_run (Z.to_nat length) w "" c) as (s & c1 & Hs & _).
  rewrite (bind_step _ _ _ _ _ _ Hs).
  destruct ty; try (by eexists _, _).
  unfold bind, Date_now, Math_random.
  pose proof two53_pos as Hp.
  destruct (isoDate_valid (timeValue (clock w (ticks c1)))
              (random w (draws c1) mod two53)) as (d & Hd).
  - unfold timeValue. lia.
  - by apply Z.mod_pos_bound.
  - simpl. unfold lift. rewrite Hd. by eexists _, _.
Qed.

(** For a string field the result is the random string itself. *)
Lemma generateRandomString_string length w c :
  ∃ s c', generateRandomString length ft_string w c = Returns (VStr s) c' ∧
          String.length s = Z.to_nat length.
Proof.
  unfold generateRandomString.
  destruct (randomChars_run (Z.to_nat length) w "" c) as (s & c1 & Hs & Hl).
  rewrite (bind_step _ _ _ _ _ _ Hs). by exists s, c1.
Qed.

(** For an email field the random string is lower-cased and completed
    with [@example.com]. *)
Lemma generateRandomString_email length w c :
  ∃ s c', generateRandomString length ft_email w c
            = Returns (VStr (Str.toLowerCase s +:+ "@example.com")) c' ∧
          String.length s = Z.to_nat length.
Proof.
  unfold generateRandomString.
  destruct (randomChars_run (Z.to_nat length) w "" c) as (s & c1 & Hs & Hl).
  rewrite (bind_step _ _ _ _ _ _ Hs). by exists s, c1.
Qed.

(** For a phone field the result is [+1] followed by a ten-digit number,
    whatever the requested length. *)
Lemma generateRandomString_phone length w c :
  ∃ m c', generateRandomString length ft_phone w c
            = Returns (VStr ("+1" +:+ Str.of_Z m)) c' ∧
          1000000000 <= m < 10000000000.
Proof.
  unfold generateRandomString.
  destruct (randomChars_run (Z.to_nat length) w "" c) as (s & c1 & Hs & _).
  rewrite (bind_step _ _ _ _ _ _ Hs).
  destruct (Total_floorRandom w 9000000000 c1) as (n & c2 & Hn).
  exists (n + 1000000000), c2. rewrite (bind_step _ _ _ _ _ _ Hn).
  split; [done|]. apply floorRandom_range in Hn; lia.
Qed.

(** For a number or boolean field the result is not a string. *)
Lemma generateRandomString_not_text length ty w c :
  ty = ft_number ∨ ty = ft_boolean →
  ∃ v c', generateRandomString length ty w c = Returns v c' ∧
          textLength v = None.
Proof.
  intros Hty. unfold generateRandomString.
  destruct (randomChars_run (Z.to_nat length) w "" c) as (s & c1 & Hs & _).
  rewrite (bind_step _ _ _ _ _ _ Hs).
  destruct Hty as [-> | ->]; eexists _, _; split; reflexivity.
Qed.

Lemma replaceAll_total pat gen w :
  Total w gen → ∀ s skip, Total w (replaceAll pat gen skip s).
Proof.
  intros Hgen. induction s as [|ch s IH]; intros skip; simpl.
  - apply Total_ret.
  - destruct skip as [|k]; [|apply IH].
    match goal with |- context [if ?b then _ else _] => destruct b end.
    + apply Total_bind; [done|]. intros r.
      apply Total_bind; [apply IH|]. intros rest. apply Total_ret.
    + apply Total_bind; [apply IH|]. intros rest. apply Total_ret.
Qed.

Lemma Total_randomLetter w base : Total w (randomLetter base).
Proof.
  apply Total_bind; [apply Total_floorRandom|]. intros. apply Total_ret.
Qed.

Lemma Total_randomDigit w : Total w randomDigit.
Proof.
  apply Total_bind; [apply Total_floorRandom|]. intros. apply Total_ret.
Qed.

Lemma Total_randomToken w : Total w randomToken.
Proof. intros c. by eexists _, _. Qed.

Lemma generateFromPattern_total pat ty w :
  Total w (generateFromPattern pat ty).
Proof.
  unfold generateFromPattern.
  repeat (apply Total_bind;
          [apply replaceAll_total;
           auto using Total_randomLetter, Total_randomDigit,
                      Total_randomToken |]; intros ?).
  destruct (bool_decide (ty = ft_phone)).
  - apply replaceAll_total, Total_randomDigit.
  - apply Total_ret.
Qed.

Lemma synthesize_total field w :
  (dataType field = dt_lookup → ∃ vs, getLookupValues field = Done vs) →
  Total w (synthesize field).
Proof.
  intros Hlookup. unfold synthesize.
  destruct (dataType field).
  - apply Total_ret.
  - apply Total_bind; [apply Total_floorRandom|]. intros. apply Total_ret.
  - destruct Hlookup as (vs & Hvs); [done|].
    apply Total_bind; [by apply (Total_lift _ _ vs)|]. intros values.
    destruct (bool_decide (values = [])); [apply Total_ret|].
    apply Total_bind; [apply Total_floorRandom|]. intros. apply Total_ret.
  - apply Total_bind; [apply Total_floorRandom|]. intros len.
    apply Total_bind; [apply generateRandomString_total|].
    intros. apply Total_ret.
  - apply Total_bind; [apply generateFromPattern_total|].
    intros. apply Total_ret.
Qed.

Lemma generateFieldValue_total field w :
  (dataType field = dt_lookup → ∃ vs, getLookupValues field = Done vs) →
  Total w (generateFieldValue field).
Proof.
  intros Hlookup. unfold generateFieldValue.
  destruct (Str.is_empty (name field)); [apply Total_ret|].
  apply Total_bind; [by apply synthesize_total|].
  intros [v|]; apply Total_ret.
Qed.

(** A synthesized text never exceeds the length limit of its field. *)
Lemma generateFieldValue_truncated field w c s c' m :
  generateFieldValue field w c = Returns (VStr s) c' →
  maxFieldLength field = Some m → m ≠ 0 →
  Str.length s <= Z.max 0 m.
Proof.
  unfold generateFieldValue. intros Hrun Hm Hm0.
  destruct (Str.is_empty (name field)).
  { inversion Hrun. unfold Str.length. simpl. lia. }
  apply bind_Returns in Hrun as (r & c1 & _ & Hret).
  destruct r as [v|].
  - inversion Hret as [[Hv Hc]]. clear Hret.
    unfold applyMaxFieldLength in Hv. destruct v; try discriminate.
    rewrite Hm in Hv. simpl in Hv.
    rewrite (proj2 (Z.eqb_neq m 0) Hm0) in Hv. simpl in Hv.
    inversion Hv. unfold Str.length, Str.substring0.
    rewrite Str_length_take. lia.
  - inversion Hret. unfold Str.length. simpl. lia.
Qed.

(** ** Value Synthesis Engine: ranges and lengths *)

Lemma num_or_default x d :
  (∀ v, x = Some v → v ≠ 0) → num_or x d = default d x.
Proof.
  intros H. destruct x as [v|]; simpl; [|done].
  by rewrite (proj2 (Z.eqb_neq v 0) (H v eq_refl)).
Qed.

(** [Math.floor(Math.random() * (hi - lo + 1)) + lo] lies in [lo, hi]
    when [lo <= hi]. *)
Lemma floorRandom_between lo hi w c n c' :
  lo <= hi → floorRandom (hi - lo + 1) w c = Returns n c' →
  lo <= n + lo <= hi.
Proof.
  intros Hle Hrun.
  apply floorRandom_range in Hrun; lia.
Qed.

(** The value of a named range field: an integer between the effective
    bounds [rangeMin || 0] and [rangeMax || 100] when these are ordered;
    synthesis returns for all bounds. *)
Lemma generateFieldValue_range field w c :
  dataType field = dt_range → name field ≠ "" →
  ∃ v c', generateFieldValue field w c = Returns (VNum v) c' ∧
    (num_or (rangeMin (config field)) 0
       <= num_or (rangeMax (config field)) 100 →
     num_or (rangeMin (config field)) 0 <= v
       <= num_or (rangeMax (config field)) 100).
Proof.
  intros Hd Hname. unfold generateFieldValue, synthesize.
  rewrite (proj2 (Str_is_empty_false _) Hname), Hd.
  set (lo := num_or (rangeMin (config field)) 0).
  set (hi := num_or (rangeMax (config field)) 100).
  destruct (Total_floorRandom w (hi - lo + 1) c) as (n & c1 & Hn).
  exists (n + lo), c1. split.
  - unfold bind at 1. unfold bind at 1. rewrite Hn. reflexivity.
  - intros Hle. by apply (floorRandom_between lo hi w c n c1).
Qed.

(** C5 (as stated) fails on two inputs.  The bounds are used as they are, in
    the order given: with the bounds 20..10 and the draw 0.5 the value is
    15, which is not in [20, 10].  An upper bound set to 0 is replaced by
    the default 100, although the kinds of the negative generator count it
    as a set bound: with the bounds -10..0 and the draw 0.5 the value is
    45. *)
Lemma generateFieldValue_range_out_of_bounds :
  random Sample.world 0 mod two53 = two53 / 2 ∧
  (dataType Sample.reversedRange = dt_range ∧
   rangeMin (config Sample.reversedRange) = Some 20 ∧
   rangeMax (config Sample.reversedRange) = Some 10 ∧
   generateFieldValue Sample.reversedRange Sample.world Sample.start
     = Returns (VNum 15) (mkCursor 1 0) ∧
   ¬ (20 <= 15 <= 10)) ∧
  (dataType Sample.zeroMax = dt_range ∧
   rangeMin (config Sample.zeroMax) = Some (-10) ∧
   rangeMax (config Sample.zeroMax) = Some 0 ∧
   generateFieldValue Sample.zeroMax Sample.world Sample.start
     = Returns (VNum 45) (mkCursor 1 0) ∧
   ¬ (-10 <= 45 <= 0) ∧
   "above_max" ∈ getNegativeTestTypes Sample.zeroMax ∧
   generateNegativeValue Sample.zeroMax "above_max" = Done (VNum 101)).
Proof.
  repeat split; try reflexivity; try lia.
  unfold getNegativeTestTypes. simpl. str_in.
Qed.

(** C5 (amended): for every named range field, synthesis returns an
    integer, whatever the bounds; when the upper bound is unset or
    non-zero and the bounds are ordered, an unset bound being 0 or 100,
    the integer lies in [rangeMin, rangeMax]. *)
Theorem generateFieldValue_range_in_bounds field w c :
  dataType field = dt_range → name field ≠ "" →
  ∃ v c', generateFieldValue field w c = Returns (VNum v) c' ∧
    ((∀ b, rangeMax (config field) = Some b → b ≠ 0) →
     default 0 (rangeMin (config field))
       <= default 100 (rangeMax (config field)) →
     default 0 (rangeMin (config field)) <= v
       <= default 100 (rangeMax (config field))).
Proof.
  intros Hd Hname.
  destruct (generateFieldValue_range field w c Hd Hname)
    as (v & c' & Hrun & Hbounds).
  exists v, c'. split; [done|]. intros Hmax Hle.
  rewrite (num_or_default _ 100 Hmax) in Hbounds.
  assert (Hmin : num_or (rangeMin (config field)) 0
                 = default 0 (rangeMin (config field))).
  { destruct (rangeMin (config field)) as [b|]; simpl; [|done].
    destruct (b =? 0) eqn:E; [|done]. apply Z.eqb_eq in E. by subst. }
  rewrite Hmin in Hbounds. by apply Hbounds.
Qed.

Lemma generateFieldValue_range_in_bounds_witness :
  ∃ v c',
    generateFieldValue Sample.amount Sample.world Sample.start
      = Returns (VNum v) c' ∧
    10 <= v <= 20.
Proof.
  destruct (generateFieldValue_range_in_bounds Sample.amount Sample.world
              Sample.start) as (v & c' & Hrun & Hbounds).
  - reflexivity.
  - discriminate.
  - exists v, c'. split; [exact Hrun|]. apply Hbounds.
    + intros b [= <-]. lia.
    + simpl. lia.
Defined.


(** The length drawn for a minmax field lies between the effective bounds
    [minLength || 1] and [maxLength || 10] when these are ordered. *)
Lemma synthesize_minmax_draw field w c :
  dataType field = dt_minmax →
  num_or (minLength (config field)) 1
    <= num_or (maxLength (config field)) 10 →
  ∃ len c1,
    num_or (minLength (config field)) 1 <= len
      <= num_or (maxLength (config field)) 10 ∧
    synthesize field w c
      = (do v <- generateRandomString len (type field); ret (Some v)) w c1.
Proof.
  intros Hd Hle. unfold synthesize. rewrite Hd.
  set (lo := num_or (minLength (config field)) 1) in *.
  set (hi := num_or (maxLength (config field)) 10) in *.
  destruct (Total_floorRandom w (hi - lo + 1) c) as (n & c1 & Hn).
  exists (n + lo), c1. split.
  - by apply (floorRandom_between lo hi w c n c1).
  - by rewrite (bind_step _ _ _ _ _ _ Hn).
Qed.

(** A named string field with strategy minmax and no length limit gets a
    string with a length between the effective bounds. *)
Lemma generateFieldValue_minmax_string field w c :
  dataType field = dt_minmax → type field = ft_string →
  name field ≠ "" → maxFieldLength field = None →
  0 <= num_or (minLength (config field)) 1
    <= num_or (maxLength (config field)) 10 →
  ∃ s c', generateFieldValue field w c = Returns (VStr s) c' ∧
    num_or (minLength (config field)) 1 <= Str.length s
      <= num_or (maxLength (config field)) 10.
Proof.
  intros Hd Hty Hname Hmax [Hlo Hle].
  destruct (synthesize_minmax_draw field w c Hd Hle)
    as (len & c1 & Hlen & Hsyn).
  rewrite Hty in Hsyn.
  destruct (generateRandomString_string len w c1) as (s & c2 & Hs & Hl).
  rewrite (bind_step _ _ _ _ _ _ Hs) in Hsyn.
  exists s, c2. split.
  - unfold generateFieldValue.
    rewrite (proj2 (Str_is_empty_false _) Hname).
    unfold bind at 1. rewrite Hsyn. simpl.
    unfold applyMaxFieldLength. by rewrite Hmax.
  - unfold Str.length. rewrite Hl. lia.
Qed.

(** The draws of the random characters do not read the clock. *)
Lemma randomChars_ticks n w :
  ∀ result c s c',
    randomChars n result w c = Returns s c' → ticks c' = ticks c.
Proof.
  induction n as [|n IH]; intros result c s c' H; simpl in H.
  - by injection H as _ <-.
  - apply bind_Returns in H as (i & c1 & Hi & H).
    rewrite floorRandom_run in Hi. injection Hi as _ <-.
    by rewrite (IH _ _ _ _ H).
Qed.

(** The synthesis of a minmax field, whatever its bounds: a length is
    drawn, which lies between the effective bounds [minLength || 1] and
    [maxLength || 10] when these are ordered, and the value is generated
    for that length. *)
Lemma synthesize_minmax_run field w c :
  dataType field = dt_minmax →
  ∃ len c1,
    ticks c1 = ticks c ∧
    (num_or (minLength (config field)) 1
       <= num_or (maxLength (config field)) 10 →
     num_or (minLength (config field)) 1 <= len
       <= num_or (maxLength (config field)) 10) ∧
    synthesize field w c
      = (do v <- generateRandomString len (type field); ret (Some v)) w c1.
Proof.
  intros Hd. unfold synthesize. rewrite Hd.
  set (lo := num_or (minLength (config field)) 1) in *.
  set (hi := num_or (maxLength (config field)) 10) in *.
  exists ((random w (draws c) mod two53) * (hi - lo + 1) / two53 + lo),
         (mkCursor (S (draws c)) (ticks c)).
  split; [done|]. split.
  - intros Hle.
    by apply (floorRandom_between lo hi w c _
                (mkCursor (S (draws c)) (ticks c)) Hle).
  - by rewrite (bind_step _ _ _ _ _ _ (floorRandom_run _ w c)).
Qed.

(** For a field of type string, and for a type outside the union, the
    result is the random string itself. *)
Lemma generateRandomString_default length ty w c :
  ty = ft_string ∨ ty = ft_other →
  ∃ s c', generateRandomString length ty w c = Returns (VStr s) c' ∧
          String.length s = Z.to_nat length.
Proof.
  intros Hty. unfold generateRandomString.
  destruct (randomChars_run (Z.to_nat length) w "" c) as (s & c1 & Hs & Hl).
  rewrite (bind_step _ _ _ _ _ _ Hs).
  destruct Hty as [-> | ->]; by exists s, c1.
Qed.

(** The calendar date of a day between 1969 and the end of the year 9999. *)
Lemma civil_from_days_range days y m d :
  -365 <= days <= 2932896 →
  civil_from_days days = (y, m, d) →
  0 <= y <= 9999 ∧ 1 <= m <= 12 ∧ 1 <= d <= 31.
Proof.
  intros Hdays. unfold civil_from_days.
  set (z := days + 719468).
  set (era := z / 146097).
  set (doe := z - era * 146097).
  set (yoe := (doe - doe / 1460 + doe / 36524 - doe / 146096) / 365).
  set (doy := doe - (365 * yoe + yoe / 4 - yoe / 100)).
  set (mp := (5 * doy + 2) / 153).
  intros [= <- <- <-].
  assert (Hera : 4 <= era <= 24)
    by (subst era z; Z.div_mod_to_equations; lia).
  assert (Hdoe : 0 <= doe <= 146096)
    by (subst doe era z; Z.div_mod_to_equations; lia).
  assert (Hdoe' : era = 24 → doe <= 146036)
    by (subst doe era z; Z.div_mod_to_equations; lia).
  clearbody doe era. clear z Hdays.
  assert (Hyoe : 0 <= yoe <= 399)
    by (subst yoe; Z.div_mod_to_equations; lia).
  assert (Hdoy : 0 <= doy <= 365)
    by (subst doy yoe; Z.div_mod_to_equations; lia).
  assert (Hdoy' : era = 24 → yoe = 399 → doy <= 305)
    by (subst doy yoe; Z.div_mod_to_equations; lia).
  clearbody doy yoe.
  assert (Hmp : 0 <= mp <= 11) by (subst mp; Z.div_mod_to_equations; lia).
  assert (Hmp' : doy <= 305 → mp < 10)
    by (subst mp; Z.div_mod_to_equations; lia).
  assert (Hd : 1 <= doy - (153 * mp + 2) / 5 + 1 <= 31)
    by (subst mp; Z.div_mod_to_equations; lia).
  clearbody mp.
  destruct (mp <? 10) eqn:E; [apply Z.ltb_lt in E|apply Z.ltb_ge in E].
  - rewrite (proj2 (Z.leb_gt _ _)) by lia. lia.
  - rewrite (proj2 (Z.leb_le _ _)) by lia.
    destruct (decide (era = 24)); [|lia].
    destruct (decide (yoe = 399)); lia.
Qed.

Lemma holdsFrom_spec p count : ∀ n,
  holdsFrom p count n = true →
  ∀ m, n <= m < n + Z.of_nat count → p m = true.
Proof.
  induction count as [|k IH]; intros n H m Hm; [lia|].
  simpl in H. apply andb_true_iff in H as [Hn Hk].
  destruct (decide (m = n)) as [->|Hne]; [done|].
  apply (IH (n + 1) Hk). lia.
Qed.

(** The decimal rendering of a number below 10000 has at most four
    digits, of a number below 100 at most two. *)
Lemma of_Z_length_small n :
  0 <= n <= 9999 →
  (String.length (Str.of_Z n) <= 4)%nat ∧
  (n <= 99 → (String.length (Str.of_Z n) <= 2)%nat).
Proof.
  intros Hn.
  assert (Hall : holdsFrom
            (fun i => (String.length (Str.of_Z i) <=? 4)%nat
                      && ((99 <? i)
                          || (String.length (Str.of_Z i) <=? 2)%nat))
            (Z.to_nat 10000) 0 = true) by (vm_compute; reflexivity).
  assert (Hin : 0 <= n < 0 + Z.of_nat (Z.to_nat 10000)) by lia.
  pose proof (holdsFrom_spec _ _ _ Hall n Hin) as H.
  apply andb_true_iff in H as [H4 H2].
  split; [by apply Nat.leb_le|]. intros H99.
  apply orb_true_iff in H2 as [H2|H2]; [|by apply Nat.leb_le].
  apply Z.ltb_lt in H2. lia.
Qed.

Lemma pad0_length width s :
  (String.length s <= width)%nat → String.length (Str.pad0 width s) = width.
Proof.
  intros H. unfold Str.pad0. rewrite string_length_app, Str_length_repeat.
  lia.
Qed.

(** A date before the year 10000 is rendered with ten characters. *)
Lemma isoDate_length now k d :
  0 <= now < 253402300800000 → 0 <= k < two53 →
  isoDate (now * two53 - k * (365 * 24 * 60 * 60 * 1000)) = Done d →
  String.length d = 10%nat.
Proof.
  intros Hnow Hk. unfold isoDate.
  set (num := now * two53 - k * (365 * 24 * 60 * 60 * 1000)).
  destruct (8640000000000000 * two53 <? Z.abs num); [discriminate|].
  assert (Hdays : -365 <= Z.quot num two53 / 86400000 <= 2932896).
  { subst num. unfold two53 in *.
    change (2 ^ 53) with 9007199254740992 in *.
    Z.quot_rem_to_equations. Z.div_mod_to_equations. lia. }
  destruct (civil_from_days (Z.quot num two53 / 86400000))
    as [[y m] dd] eqn:E.
  destruct (civil_from_days_range _ _ _ _ Hdays E) as (Hy & Hm & Hd).
  intros [= <-]. unfold isoYear.
  rewrite (proj2 (andb_true_iff _ _)) by (split; apply Z.leb_le; lia).
  rewrite !string_length_app, !pad0_length; [done| | |].
  - apply of_Z_length_small; lia.
  - apply of_Z_length_small; lia.
  - apply of_Z_length_small; lia.
Qed.

(** For a date field the result is a calendar date, whatever the requested
    length; it has ten characters when the clock reads a time before the
    year 10000. *)
Lemma generateRandomString_date length w c :
  ∃ d c', generateRandomString length ft_date w c = Returns (VStr d) c' ∧
          (clock w (ticks c) < 253402300800000 → Str.length d = 10).
Proof.
  unfold generateRandomString.
  destruct (randomChars_run (Z.to_nat length) w "" c) as (s & c1 & Hs & _).
  rewrite (bind_step _ _ _ _ _ _ Hs).
  apply randomChars_ticks in Hs.
  pose proof two53_pos as Hp.
  assert (Hk : 0 <= random w (draws c1) mod two53 < two53)
    by by apply Z.mod_pos_bound.
  destruct (isoDate_valid (timeValue (clock w (ticks c1)))
              (random w (draws c1) mod two53)) as (d & Hd);
    [unfold timeValue; lia | done |].
  exists d, (mkCursor (S (draws c1)) (S (ticks c1))). split.
  - unfold bind, Date_now, Math_random, lift. simpl. by rewrite Hd.
  - intros Hclock. unfold Str.length.
    rewrite (isoDate_length (timeValue (clock w (ticks c1)))
               (random w (draws c1) mod two53) d);
      [done | | done | done].
    rewrite Hs. unfold timeValue. lia.
Qed.



(** ** Record Set Builder: order and metadata of the records *)

Lemma negativeSeed_testType target kind :
  negativeSeed target kind !! "_testType"
  = Some (VStr ("negative_" +:+ kind)).
Proof.
  unfold negativeSeed.
  rewrite lookup_insert_ne by done. rewrite lookup_insert_ne by done.
  apply lookup_insert_eq.
Qed.

Lemma negativeSeed_targetField target kind :
  negativeSeed target kind !! "_targetField" = Some (VStr (name target)).
Proof.
  unfold negativeSeed. rewrite lookup_insert_ne by done.
  apply lookup_insert_eq.
Qed.

Lemma negativeSeed_autoSelected target kind :
  negativeSeed target kind !! "_autoSelected"
  = Some (VBool (shouldAutoEnableNegativeTests target)).
Proof. unfold negativeSeed. apply lookup_insert_eq. Qed.

(** A metadata key that no field uses as its name keeps its seeded entry. *)
Lemma FilledFrom_metadata fields w seed r k :
  FilledFrom fields w seed r → k ∉ fieldNames fields → r !! k = seed !! k.
Proof.
  intros (g & c1 & c2 & Hrun) Hk.
  by apply (pushed_fillWith_other g fields w seed c1 r c2 k).
Qed.

(** C7: the output of a run is the positive batch followed by the negative
    records; these come in one group per target field, the target fields
    (the named fields that opted in or are automatically eligible, when the
    negative phase takes place) being taken in declaration order, and
    inside a group in the order of the applicable kinds: the kinds unlocked
    by [required] first, then the kinds of the type as listed.  When no
    field is named like a metadata key, the order can be read off
    [_testType] and [_targetField]. *)
Theorem generateTestData_order fields n incl w c data c' :
  generateTestData fields n incl w c = Returns data c' →
  ∃ positives groups,
    data = positives ++ concat groups ∧
    (∃ c1, positiveRecords fields n w c = Returns positives c1) ∧
    Forall (FilledFrom fields w positiveSeed) positives ∧
    sublist (negativeTargets fields incl) fields ∧
    (∀ target,
       target ∈ negativeTargets fields incl ↔
       shouldIncludeNegativeTests fields incl = true ∧
       target ∈ fields ∧
       (flag_truthy (generateNegativeTests target) = true ∨
        shouldAutoEnableNegativeTests target = true) ∧
       name target ≠ "") ∧
    Forall2 (fun target group =>
               Forall2 (NegativeOf fields w target)
                       (spec_requiredKinds target ++ spec_typeKinds target)
                       group)
            (negativeTargets fields incl) groups ∧
    ((∀ k, k ∈ metadataKeys → k ∉ fieldNames fields) →
     Forall (fun r => r !! "_testType" = Some (VStr "positive") ∧
                      r !! "_targetField" = None) positives ∧
     Forall2 (fun target group =>
                Forall2 (fun kind r =>
                           r !! "_testType"
                             = Some (VStr ("negative_" +:+ kind)) ∧
                           r !! "_targetField"
                             = Some (VStr (name target)))
                        (getNegativeTestTypes target) group)
             (negativeTargets fields incl) groups).
Proof.
  intros Hrun.
  apply generateTestData_shape in Hrun
    as (positives & groups & c1 & Hpos & -> & Hgroups).
  exists positives, groups. split; [done|]. split; [by exists c1|].
  apply positiveRecords_filled in Hpos. split; [done|].
  split; [apply negativeTargets_sublist|].
  split; [apply negativeTargets_elem|]. split.
  - apply (Forall2_impl _ _ _ _ Hgroups). intros target group Hg.
    by rewrite getNegativeTestTypes_spec in Hg.
  - intros Hmeta.
    assert (Ht : "_testType" ∉ fieldNames fields)
      by (apply Hmeta; unfold metadataKeys; str_in).
    assert (Hf : "_targetField" ∉ fieldNames fields)
      by (apply Hmeta; unfold metadataKeys; str_in).
    split.
    + apply (Forall_impl _ _ _ Hpos). intros r Hr.
      rewrite (FilledFrom_metadata _ _ _ _ _ Hr Ht).
      rewrite (FilledFrom_metadata _ _ _ _ _ Hr Hf). done.
    + apply (Forall2_impl _ _ _ _ Hgroups). intros target group Hg.
      apply (Forall2_impl _ _ _ _ Hg). intros kind r Hneg.
      apply NegativeOf_FilledFrom in Hneg.
      rewrite (FilledFrom_metadata _ _ _ _ _ Hneg Ht).
      rewrite (FilledFrom_metadata _ _ _ _ _ Hneg Hf).
      by rewrite negativeSeed_testType, negativeSeed_targetField.
Qed.

Lemma generateTestData_order_witness :
  ∃ data c' positives groups,
    generateTestData [Sample.code; Sample.username] 2 false
                     Sample.world Sample.start = Returns data c' ∧
    List.length data = 11%nat ∧
    data = positives ++ concat groups ∧
    List.length groups = 2%nat.
Proof.
  destruct (returned_length
              (generateTestData [Sample.code; Sample.username] 2 false
                                Sample.world Sample.start) 11)
    as (data & c' & E & Hlen); [vm_compute; reflexivity|].
  destruct (generateTestData_order _ _ _ _ _ _ _ E)
    as (positives & groups & Hdata & _ & _ & _ & _ & Hgroups & _).
  exists data, c', positives, groups.
  split; [exact E|]. split; [exact Hlen|]. split; [exact Hdata|].
  apply Forall2_length in Hgroups. symmetry. exact Hgroups.
Defined.

(** ** Record Set Builder: the target value of a negative record *)

Lemma exceed_length_listed target :
  "exceed_length" ∈ getNegativeTestTypes target →
  ∃ m, maxFieldLength target = Some m ∧ m ≠ 0.
Proof.
  unfold getNegativeTestTypes. intros Hin.
  assert (Hreq : "exceed_length" ∉ (if required target
                                     then ["empty"; "null"] else [])).
  { intros H. destruct (required target); str_not_in H. }
  destruct (type target);
    repeat (apply elem_of_app in Hin as [Hin|Hin]); try done;
    try (exfalso; str_not_in Hin).
  - destruct (maxFieldLength target) as [m|]; simpl in Hin.
    + destruct (m =? 0) eqn:E; simpl in Hin.
      * exfalso. str_not_in Hin.
      * exists m. split; [done|]. by apply Z.eqb_neq.
    + exfalso. str_not_in Hin.
  - exfalso. destruct (defined (rangeMin (config target))); str_not_in Hin.
  - exfalso. destruct (defined (rangeMax (config target))); str_not_in Hin.
Qed.

Lemma repeatA_Done n v :
  repeatA n = Done v → textLength v = Some n.
Proof.
  unfold repeatA. destruct (n <? 0) eqn:E; [discriminate|].
  intros [= <-]. simpl. unfold Str.length. rewrite Str_length_repeat.
  apply Z.ltb_ge in E. f_equal. lia.
Qed.

Lemma generateNegativeValue_too_long target v :
  generateNegativeValue target "too_long" = Done v →
  textLength v = Some 1000.
Proof. unfold generateNegativeValue. simpl. apply repeatA_Done. Qed.

Lemma generateNegativeValue_exceed_length target v m :
  generateNegativeValue target "exceed_length" = Done v →
  maxFieldLength target = Some m → m ≠ 0 →
  textLength v = Some (m + 10).
Proof.
  unfold generateNegativeValue. simpl. intros Hv Hm Hm0.
  rewrite Hm in Hv. simpl in Hv.
  rewrite (proj2 (Z.eqb_neq m 0) Hm0) in Hv. by apply repeatA_Done.
Qed.

(** The value computed for the target of a negative record is the value of
    the kind-to-value table; the record holds it under the name of the
    target unless that name is [__proto__] or a field declared later
    carries the same name. *)
Lemma NegativeOf_target_value fields w target kind r pre post :
  NegativeOf fields w target kind r →
  fields = pre ++ target :: post →
  name target ≠ "" →
  ∃ v, generateNegativeValue target kind = Done v ∧
       (name target ≠ "__proto__" → name target ∉ fieldNames post →
        r !! name target = Some v).
Proof.
  intros (ca & cb & Hneg) Heq Hname.
  rewrite negativeRecord_fillWith, Heq in Hneg.
  destruct (pushed_fillWith_at _ _ _ _ _ _ _ _ _ Hneg Hname)
    as (v & c2 & c3 & Hv & Hr).
  unfold negativeModeValue in Hv.
  rewrite (proj2 (Str_eqb_true _ _) eq_refl) in Hv.
  apply lift_Returns in Hv as [Hv _]. by exists v.
Qed.

(** A required field with a name is a target of every run over a
    configuration that contains it. *)
Lemma required_field_is_target fields incl field :
  required field = true → field ∈ fields → name field ≠ "" →
  field ∈ negativeTargets fields incl.
Proof.
  intros Hreq Hin Hname.
  assert (Hauto : shouldAutoEnableNegativeTests field = true).
  { unfold shouldAutoEnableNegativeTests. by rewrite Hreq. }
  apply negativeTargets_elem. split; [|split; [done|split; [by right|done]]].
  unfold shouldIncludeNegativeTests. apply orb_true_iff. right.
  apply List.existsb_exists. exists field. by rewrite <- list_elem_of_In.
Qed.

(** C2: a required number field with range 10..20 and no length limit has
    exactly the kinds empty, null, string_value, negative, decimal,
    overflow, below_min, above_max, with the values 9 for below_min and 21
    for above_max; when it has a name it is a target of every run over a
    configuration that contains it; the loop over the kinds builds one
    negative record per kind, and the records of below_min and above_max
    hold 9 and 21 under the name of the field (unless the field is named
    [__proto__], a name under which an object literal takes no own
    property, or a field declared later carries the same name). *)
Theorem negative_kinds_required_number field :
  required field = true →
  type field = ft_number →
  rangeMin (config field) = Some 10 →
  rangeMax (config field) = Some 20 →
  maxFieldLength field = None →
  getNegativeTestTypes field =
    ["empty"; "null"; "string_value"; "negative"; "decimal"; "overflow";
     "below_min"; "above_max"] ∧
  generateNegativeValue field "below_min" = Done (VNum 9) ∧
  generateNegativeValue field "above_max" = Done (VNum 21) ∧
  (∀ fields incl, field ∈ fields → name field ≠ "" →
                  field ∈ negativeTargets fields incl) ∧
  ∀ fields w c rs c',
    negativeRecordsFor fields field w c = Returns rs c' →
    Forall2 (NegativeOf fields w field)
      ["empty"; "null"; "string_value"; "negative"; "decimal"; "overflow";
       "below_min"; "above_max"] rs ∧
    ∀ pre post,
      fields = pre ++ field :: post → name field ≠ "" →
      name field ≠ "__proto__" →
      name field ∉ fieldNames post →
      ∃ r6 r7, rs !! 6%nat = Some r6 ∧ rs !! 7%nat = Some r7 ∧
               r6 !! name field = Some (VNum 9) ∧
               r7 !! name field = Some (VNum 21).
Proof.
  intros Hreq Hty Hmin Hmax Hlen.
  assert (Hkinds : getNegativeTestTypes field =
    ["empty"; "null"; "string_value"; "negative"; "decimal"; "overflow";
     "below_min"; "above_max"]).
  { unfold getNegativeTestTypes. by rewrite Hreq, Hty, Hmin, Hmax. }
  assert (Hbelow : generateNegativeValue field "below_min" = Done (VNum 9)).
  { unfold generateNegativeValue. simpl. by rewrite Hmin. }
  assert (Habove : generateNegativeValue field "above_max" = Done (VNum 21)).
  { unfold generateNegativeValue. simpl. by rewrite Hmax. }
  split; [done|]. split; [done|]. split; [done|]. split.
  { intros fields incl Hin Hname. by apply required_field_is_target. }
  intros fields w c rs c' Hrun. unfold negativeRecordsFor in Hrun.
  rewrite Hkinds in Hrun. apply collect_Forall2 in Hrun.
  split; [exact Hrun|].
  intros pre post Heq Hname Hproto Hlast.
  destruct (Forall2_lookup_l _ _ _ 6%nat "below_min" Hrun eq_refl)
    as (r6 & Hr6 & Hneg6).
  destruct (Forall2_lookup_l _ _ _ 7%nat "above_max" Hrun eq_refl)
    as (r7 & Hr7 & Hneg7).
  exists r6, r7. split; [done|]. split; [done|].
  destruct (NegativeOf_target_value _ _ _ _ _ _ _ Hneg6 Heq Hname)
    as (v6 & Hv6 & Hentry6).
  destruct (NegativeOf_target_value _ _ _ _ _ _ _ Hneg7 Heq Hname)
    as (v7 & Hv7 & Hentry7).
  rewrite Hbelow in Hv6. rewrite Habove in Hv7.
  injection Hv6 as <-. injection Hv7 as <-.
  split; [by apply Hentry6 | by apply Hentry7].
Qed.

Lemma negative_kinds_required_number_witness :
  getNegativeTestTypes Sample.amount =
    ["empty"; "null"; "string_value"; "negative"; "decimal"; "overflow";
     "below_min"; "above_max"] ∧
  generateNegativeValue Sample.amount "below_min" = Done (VNum 9) ∧
  generateNegativeValue Sample.amount "above_max" = Done (VNum 21) ∧
  ∃ rs c' r6 r7,
    negativeRecordsFor [Sample.amount] Sample.amount Sample.world Sample.start
      = Returns rs c' ∧
    List.length rs = 8%nat ∧
    rs !! 6%nat = Some r6 ∧ rs !! 7%nat = Some r7 ∧
    r6 !! "amount" = Some (VNum 9) ∧ r7 !! "amount" = Some (VNum 21).
Proof.
  destruct (negative_kinds_required_number Sample.amount)
    as (H1 & H2 & H3 & _ & H4); try reflexivity.
  repeat split; try assumption.
  destruct (returned_length
              (negativeRecordsFor [Sample.amount] Sample.amount
                                  Sample.world Sample.start) 8)
    as (rs & c' & E & Hlen); [vm_compute; reflexivity|].
  destruct (H4 _ _ _ _ _ E) as (_ & Hvalues).
  destruct (Hvalues [] [] eq_refl) as (r6 & r7 & Hr6 & Hr7 & Hv6 & Hv7).
  - discriminate.
  - discriminate.
  - unfold fieldNames. simpl. apply not_elem_of_nil.
  - exists rs, c', r6, r7. repeat split; assumption.
Defined.

(** C10: in every negative record of a run, the value computed for the
    target field is the value of the kind-to-value table as it is,
    whatever the length limit of the field: 1000 characters for too_long,
    the limit plus 10 for exceed_length; the value computed for a named
    field with another id is synthesized for it and, when a text, is at
    most as long as the limit of that field.  The record holds each of
    these values under the name of its field, unless that name is
    [__proto__] (under which an object literal takes no own property) or a
    field declared later carries the same name. *)
Theorem negative_value_not_truncated fields n incl w c data c' :
  generateTestData fields n incl w c = Returns data c' →
  ∃ positives groups,
    data = positives ++ concat groups ∧
    Forall2 (fun target group =>
      Forall2 (fun kind r =>
        (∃ v, generateNegativeValue target kind = Done v ∧
              (kind = "too_long" → textLength v = Some 1000) ∧
              (kind = "exceed_length" →
               ∃ m, maxFieldLength target = Some m ∧
                    textLength v = Some (m + 10)) ∧
              (∀ pre post,
                 fields = pre ++ target :: post →
                 name target ≠ "__proto__" →
                 name target ∉ fieldNames post →
                 r !! name target = Some v)) ∧
        (∀ pre f post,
           fields = pre ++ f :: post → name f ≠ "" → id f ≠ id target →
           ∃ v, SynthesizedFor w f v ∧
                (∀ m len, maxFieldLength f = Some m → m ≠ 0 →
                          textLength v = Some len → len <= Z.max 0 m) ∧
                (name f ≠ "__proto__" → name f ∉ fieldNames post →
                 r !! name f = Some v)))
        (getNegativeTestTypes target) group)
      (negativeTargets fields incl) groups.
Proof.
  intros Hrun.
  apply generateTestData_shape in Hrun
    as (positives & groups & c1 & _ & -> & Hgroups).
  exists positives, groups. split; [done|].
  apply (Forall2_impl_elem _ _ _ _ Hgroups).
  intros target group Htarget Hgroup.
  apply negativeTargets_named in Htarget as [Hin Hname].
  apply (Forall2_impl_elem _ _ _ _ Hgroup).
  intros kind r Hkind (ca & cb & Hneg).
  assert (Hof : NegativeOf fields w target kind r) by (by exists ca, cb).
  rewrite negativeRecord_fillWith in Hneg. split.
  - assert (Hval : ∀ pre post, fields = pre ++ target :: post →
              ∃ v, generateNegativeValue target kind = Done v ∧
                   (name target ≠ "__proto__" →
                    name target ∉ fieldNames post →
                    r !! name target = Some v)).
    { intros pre post Heq.
      by apply (NegativeOf_target_value fields w target kind r pre post). }
    apply list_elem_of_split in Hin as (pre0 & post0 & Heq0).
    destruct (Hval pre0 post0 Heq0) as (v & Hv & _).
    exists v. split; [done|]. split; [|split].
    + intros ->. by apply (generateNegativeValue_too_long target).
    + intros ->.
      destruct (exceed_length_listed target Hkind) as (m & Hm & Hm0).
      exists m. split; [done|].
      by apply (generateNegativeValue_exceed_length target).
    + intros pre post Heq Hproto Hnot.
      destruct (Hval pre post Heq) as (v' & Hv' & Hr).
      rewrite Hv in Hv'. injection Hv' as <-. by apply Hr.
  - intros pre f post Heq Hfname Hid. rewrite Heq in Hneg.
    destruct (pushed_fillWith_at _ _ _ _ _ _ _ _ _ Hneg Hfname)
      as (v & c2 & c3 & Hv & Hr).
    unfold negativeModeValue in Hv.
    rewrite (proj2 (Str_eqb_false _ _) Hid) in Hv.
    exists v. split; [by exists c2, c3|]. split; [|done].
    intros m len Hm Hm0 Hlen. destruct v; try discriminate.
    injection Hlen as <-.
    by apply (generateFieldValue_truncated f w c2 s c3 m).
Qed.

Lemma negative_value_not_truncated_witness :
  ∃ data c' positives groups,
    generateTestData [Sample.code; Sample.username] 2 false
                     Sample.world Sample.start = Returns data c' ∧
    List.length data = 11%nat ∧
    data = positives ++ concat groups ∧
    List.length groups = 2%nat.
Proof.
  destruct (returned_length
              (generateTestData [Sample.code; Sample.username] 2 false
                                Sample.world Sample.start) 11)
    as (data & c' & E & Hlen); [vm_compute; reflexivity|].
  destruct (negative_value_not_truncated _ _ _ _ _ _ _ E)
    as (positives & groups & Hdata & Hgroups).
  exists data, c', positives, groups.
  split; [exact E|]. split; [exact Hlen|]. split; [exact Hdata|].
  apply Forall2_length in Hgroups. symmetry. exact Hgroups.
Defined.

(** ** Record Set Builder: the positive batch *)

Lemma forEach_fillWith_total g fields w :
  (∀ f, f ∈ fields → Total w (g f)) →
  ∀ rec, Total w (forEach (fillWith g) fields rec).
Proof.
  induction fields as [|x l IH]; intros Hg rec; simpl.
  - apply Total_ret.
  - apply Total_bind.
    + unfold fillWith. destruct (Str.is_empty (name x)); [apply Total_ret|].
      apply Total_bind; [apply Hg; left|]. intros. apply Total_ret.
    + intros rec'. apply IH. intros f Hf. apply Hg. by right.
Qed.

Lemma Total_pushed w (m : M RecordObject) : Total w m → Total w (pushed m).
Proof.
  intros Hm. apply Total_bind; [done|]. intros. apply Total_ret.
Qed.

Lemma collect_seq_run {B : Type} (f : nat → M B) (count : nat) w c :
  (∀ i, Total w (f i)) →
  ∃ ys c', collect f (seq 0 count) w c = Returns ys c' ∧
    List.length ys = count ∧
    ∀ i y, ys !! i = Some y → ∃ c1 c2, f i w c1 = Returns y c2.
Proof.
  intros Hf.
  destruct (collect_total f (seq 0 count) w (fun x c0 _ => Hf x c0) c)
    as (ys & c' & Hrun).
  exists ys, c'. split; [done|].
  apply collect_Forall2 in Hrun. split.
  - apply Forall2_length in Hrun. by rewrite length_seq in Hrun.
  - intros i y Hy.
    destruct (Forall2_lookup_r _ _ _ _ _ Hrun Hy) as (x & Hx & Hfx).
    apply lookup_seq in Hx as [-> _]. done.
Qed.

(** The standard mode: as many positive records as requested. *)
Lemma positiveRecords_standard fields n w c :
  lookupFieldsOf fields = Done [] →
  (∀ f, f ∈ fields → Total w (generateFieldValue f)) →
  ∃ recs c',
    positiveRecords fields n w c = Returns recs c' ∧
    List.length recs = Z.to_nat n ∧
    ∀ i r, recs !! i = Some r →
      ∃ c1 c2, pushed (forEach (fillWith generateFieldValue) fields
                               (objectLiteral positiveSeed))
                      w c1 = Returns r c2.
Proof.
  intros Hlf Htotal. unfold positiveRecords.
  unfold bind at 1. unfold lift. rewrite Hlf. simpl.
  destruct (collect_seq_run
              (fun _ : nat => pushed (forEach fillStandard fields
                                              (objectLiteral positiveSeed)))
              (Z.to_nat n) w c) as (recs & c' & Hrun & Hlen & Hrecs).
  { intros _. apply Total_pushed.
    by apply (forEach_fillWith_total generateFieldValue). }
  by exists recs, c'.
Qed.

Lemma lookupFieldsOf_elem fields lf :
  lookupFieldsOf fields = Done lf →
  ∀ f, f ∈ lf →
       f ∈ fields ∧ dataType f = dt_lookup ∧ 0 < resolvedLength f.
Proof.
  revert lf. induction fields as [|x l IH]; intros lf Hlf f Hin.
  - simpl in Hlf. injection Hlf as <-. by apply elem_of_nil in Hin.
  - simpl in Hlf.
    destruct (bool_decide (dataType x = dt_lookup)) eqn:Hd.
    + apply bool_decide_eq_true in Hd.
      destruct (getLookupValues x) as [vs|e] eqn:Hvs; [|done].
      destruct (lookupFieldsOf l) as [fs|]; [|done].
      injection Hlf as <-.
      destruct (0 <? Z.of_nat (List.length vs)) eqn:Hpos.
      * apply elem_of_cons in Hin as [->|Hin].
        -- split; [left|]. split; [done|].
           unfold resolvedLength. rewrite Hvs. by apply Z.ltb_lt.
        -- destruct (IH fs eq_refl f Hin) as (? & ? & ?).
           split; [by right | done].
      * destruct (IH fs eq_refl f Hin) as (? & ? & ?).
        split; [by right | done].
    + destruct (IH lf Hlf f Hin) as (? & ? & ?). split; [by right | done].
Qed.

Lemma lookupFieldsOf_complete fields lf :
  lookupFieldsOf fields = Done lf →
  ∀ f, f ∈ fields → dataType f = dt_lookup → 0 < resolvedLength f →
       f ∈ lf.
Proof.
  revert lf. induction fields as [|x l IH]; intros lf Hlf f Hin Hd Hpos.
  - by apply elem_of_nil in Hin.
  - simpl in Hlf.
    destruct (bool_decide (dataType x = dt_lookup)) eqn:Hdx.
    + destruct (getLookupValues x) as [vs|e] eqn:Hvs; [|done].
      destruct (lookupFieldsOf l) as [fs|]; [|done].
      injection Hlf as <-.
      apply elem_of_cons in Hin as [->|Hin].
      * unfold resolvedLength in Hpos. rewrite Hvs in Hpos.
        rewrite (proj2 (Z.ltb_lt _ _) Hpos). left.
      * destruct (0 <? Z.of_nat (List.length vs)); [right|]; by eapply IH.
    + apply bool_decide_eq_false in Hdx.
      apply elem_of_cons in Hin as [->|Hin]; [done | by eapply IH].
Qed.

Lemma lookupLengths_run lf :
  (∀ f, f ∈ lf → ∃ vs, getLookupValues f = Done vs) →
  lookupLengths lf = Done (List.map resolvedLength lf).
Proof.
  induction lf as [|x l IH]; intros H; simpl; [done|].
  destruct (H x) as (vs & Hvs); [left|].
  unfold resolvedLength at 1. rewrite Hvs.
  rewrite IH; [done|]. intros f Hf. apply H. by right.
Qed.

Lemma foldl_max_spec (a : Z) (l : list Z) :
  (foldl Z.max a l ∈ a :: l) ∧ ∀ x, x ∈ a :: l → x <= foldl Z.max a l.
Proof.
  revert a. induction l as [|y l IH]; intros a; simpl.
  - split; [left|]. intros x ?%list_elem_of_singleton. lia.
  - destruct (IH (Z.max a y)) as [Hin Hub]. split.
    + apply elem_of_cons in Hin as [Hin|Hin].
      * rewrite Hin. destruct (Z.max_spec a y) as [[_ ->]|[_ ->]].
        -- right. left.
        -- left.
      * right. by right.
    + intros x Hx.
      assert (Hm : Z.max a y <= foldl Z.max (Z.max a y) l) by (apply Hub; left).
      apply elem_of_cons in Hx as [->|Hx]; [lia|].
      apply elem_of_cons in Hx as [->|Hx]; [lia|].
      apply Hub. by right.
Qed.

(** [Math.max(...ns)] is the largest element of a non-empty [ns]. *)
Lemma maxOf_spec ns :
  ns ≠ [] → maxOf ns ∈ ns ∧ ∀ x, x ∈ ns → x <= maxOf ns.
Proof.
  destruct ns as [|a l]; [done|]. intros _. apply foldl_max_spec.
Qed.

Lemma lookupModeValue_total i field w :
  (dataType field = dt_lookup → ∃ vs, getLookupValues field = Done vs) →
  Total w (lookupModeValue i field).
Proof.
  intros Hres. unfold lookupModeValue.
  destruct (bool_decide (dataType field = dt_lookup)) eqn:Hd.
  - apply bool_decide_eq_true in Hd. destruct (Hres Hd) as (vs & Hvs).
    apply Total_bind; [by apply (Total_lift _ _ vs)|].
    intros. apply Total_ret.
  - apply bool_decide_eq_false in Hd.
    apply generateFieldValue_total. by intros.
Qed.

Lemma lookupModeValue_lookup i field vs w c v c' :
  dataType field = dt_lookup → getLookupValues field = Done vs → vs ≠ [] →
  lookupModeValue i field w c = Returns v c' →
  ∃ x, vs !! (i mod List.length vs)%nat = Some x ∧ v = VStr x.
Proof.
  intros Hd Hvs Hne. unfold lookupModeValue.
  rewrite (bool_decide_eq_true_2 _ Hd).
  unfold bind, lift. rewrite Hvs. simpl.
  assert (Hlen : (0 < List.length vs)%nat) by (destruct vs; [done | simpl; lia]).
  rewrite (proj2 (Z.ltb_lt 0 (Z.of_nat (List.length vs)))) by lia.
  intros [= <- _].
  exists (nth (i mod List.length vs) vs ""). split; [|done].
  destruct (nth_lookup_or_length vs (i mod List.length vs)%nat "")
    as [Hl|Hl]; [done|].
  pose proof (Nat.mod_upper_bound i (List.length vs)). lia.
Qed.

Lemma lookupFieldsOf_total fields :
  (∀ f, f ∈ fields → dataType f = dt_lookup →
        ∃ vs, getLookupValues f = Done vs) →
  ∃ lf, lookupFieldsOf fields = Done lf.
Proof.
  induction fields as [|x l IH]; intros H; simpl; [by eexists|].
  destruct IH as (fs & Hfs). { intros f Hf. apply H. by right. }
  rewrite Hfs.
  destruct (bool_decide (dataType x = dt_lookup)) eqn:Hd; [|by eexists].
  apply bool_decide_eq_true in Hd.
  destruct (H x) as (vs & ->); [left | done | by eexists].
Qed.

(** C6 (as stated) fails: with lookup lists of 3 and 2 values the run has 3
    positive records, and the third one holds under [size] the first value
    again, the list having no third value. *)
Lemma lookup_mode_cycles_shorter_list :
  getLookupValues Sample.colour = Done ["red"; "green"; "blue"] ∧
  getLookupValues Sample.size = Done ["S"; "L"] ∧
  ∃ data c' r,
    generateTestData [Sample.colour; Sample.size] 10 false
                     Sample.world Sample.start = Returns data c' ∧
    List.length data = 3%nat ∧
    data !! 2%nat = Some r ∧
    r !! "_testType" = Some (VStr "positive") ∧
    r !! "colour" = Some (VStr "blue") ∧
    r !! "size" = Some (VStr "S") ∧
    ["S"; "L"] !! 2%nat = (None : option string) ∧
    ["S"; "L"] !! 0%nat = Some "S".
Proof.
  split; [reflexivity|]. split; [reflexivity|].
  assert (H : (fun data : list GeneratedRecord =>
                 (List.length data,
                  (fun r : GeneratedRecord =>
                     (r !! "_testType", r !! "colour", r !! "size"))
                    <$> data !! 2%nat))
                <$> returned (generateTestData [Sample.colour; Sample.size]
                                10 false Sample.world Sample.start)
              = Some (3%nat, Some (Some (VStr "positive"),
                                   Some (VStr "blue"), Some (VStr "S"))))
    by (vm_compute; reflexivity).
  destruct (generateTestData [Sample.colour; Sample.size] 10 false
              Sample.world Sample.start) as [data c'|e]; [|discriminate].
  simpl in H. injection H as Hlen Hr.
  destruct (data !! 2%nat) as [r|] eqn:Hr2; [|discriminate].
  simpl in Hr. injection Hr as H1 H2 H3.
  exists data, c', r. repeat split; done.
Qed.

(** C6 (amended): when every lookup field resolves and at least one resolves
    to a non-empty list, the positive batch has [min(M, recordCount)]
    records (none for a negative count), [M] being the largest resolved
    length, and is the beginning of the output of the run; each positive
    record carries [_testType = "positive"] unless a field is named
    [_testType]; the record of index [i] holds, for each named lookup field
    with a non-empty list, the value of index [i] modulo the length of that
    list, unless the field is named [__proto__] (under which an object
    literal takes no own property) or a field declared later carries the
    same name. *)
Theorem lookup_mode_positive_records fields n w c :
  (∀ f, f ∈ fields → dataType f = dt_lookup →
        ∃ vs, getLookupValues f = Done vs) →
  (∃ f, f ∈ fields ∧ dataType f = dt_lookup ∧ 0 < resolvedLength f) →
  ∃ M recs c1,
    (∃ f, f ∈ fields ∧ dataType f = dt_lookup ∧ resolvedLength f = M) ∧
    (∀ f, f ∈ fields → dataType f = dt_lookup → resolvedLength f <= M) ∧
    positiveRecords fields n w c = Returns recs c1 ∧
    Z.of_nat (List.length recs) = Z.max 0 (Z.min M n) ∧
    (∀ incl data c',
       generateTestData fields n incl w c = Returns data c' →
       ∃ negatives, data = recs ++ negatives) ∧
    (("_testType" ∉ fieldNames fields) →
     Forall (fun r => r !! "_testType" = Some (VStr "positive")) recs) ∧
    (∀ i r pre f post vs,
       recs !! i = Some r →
       fields = pre ++ f :: post → name f ∉ fieldNames post →
       dataType f = dt_lookup → name f ≠ "" →
       getLookupValues f = Done vs → vs ≠ [] →
       ∃ x, vs !! (i mod List.length vs)%nat = Some x ∧
            (name f ≠ "__proto__" → r !! name f = Some (VStr x))).
Proof.
  intros Hres (f0 & Hf0 & Hd0 & Hpos0).
  destruct (lookupFieldsOf_total fields Hres) as (lf & Hlf).
  pose proof (lookupFieldsOf_complete fields lf Hlf f0 Hf0 Hd0 Hpos0) as Hin0.
  assert (Hlens : lookupLengths lf = Done (List.map resolvedLength lf)).
  { apply lookupLengths_run. intros f Hf.
    destruct (lookupFieldsOf_elem fields lf Hlf f Hf) as (? & ? & _).
    by apply Hres. }
  set (M := maxOf (List.map resolvedLength lf)).
  destruct (maxOf_spec (List.map resolvedLength lf)) as [HMin HMub].
  { destruct lf; [by apply elem_of_nil in Hin0 | done]. }
  fold M in HMin, HMub.
  apply list_elem_of_In, List.in_map_iff in HMin as (fM & HfM & HfMin).
  apply list_elem_of_In in HfMin.
  destruct (lookupFieldsOf_elem fields lf Hlf fM HfMin) as (HfM1 & HfM2 & HfM3).
  assert (Hnonempty : (0 <? Z.of_nat (List.length lf)) = true).
  { apply Z.ltb_lt. destruct lf; [by apply elem_of_nil in Hin0 | simpl; lia]. }
  destruct (collect_seq_run
              (fun i => pushed (forEach (fillLookupMode i) fields
                                        (objectLiteral positiveSeed)))
              (Z.to_nat (Z.min M n)) w c)
    as (recs & c1 & Hrun & Hlen & Hrecs).
  { intros i c0.
    rewrite (pushed_ext _ _ _ _
               (forEach_ext _ _ _ (fillLookupMode_fillWith i) _ _ _)).
    apply Total_pushed.
    apply forEach_fillWith_total. intros f Hf.
    apply lookupModeValue_total. by apply Hres. }
  assert (Hpos : positiveRecords fields n w c = Returns recs c1).
  { unfold positiveRecords. unfold bind at 1. unfold lift at 1.
    rewrite Hlf, Hnonempty. unfold bind at 1. unfold lift at 1.
    rewrite Hlens. exact Hrun. }
  exists M, recs, c1.
  split; [by exists fM|]. split.
  { intros f Hf Hd. destruct (decide (0 < resolvedLength f)) as [Hp|Hp].
    - apply HMub. apply list_elem_of_In, List.in_map, list_elem_of_In.
      by apply (lookupFieldsOf_complete fields lf Hlf).
    - rewrite HfM in HfM3. lia. }
  split; [done|]. split; [lia|]. split; [|split].
  - intros incl data c' Hdata. unfold generateTestData in Hdata.
    apply bind_Returns in Hdata as (positives & c2 & Hp & Hdata).
    apply bind_Returns in Hdata as (negatives & c3 & _ & Hdata).
    rewrite Hpos in Hp. injection Hp as <- <-.
    injection Hdata as <- _. by exists negatives.
  - intros Htag. apply Forall_lookup. intros i r Hr.
    destruct (Hrecs i r Hr) as (ca & cb & Hfill).
    apply positive_FilledFrom_lookup in Hfill.
    by rewrite (pushed_fillWith_other _ _ _ _ _ _ _ _ Hfill Htag).
  - intros i r pre f post vs Hr Heq Hlast Hd Hname Hvs Hne.
    destruct (Hrecs i r Hr) as (ca & cb & Hfill).
    apply positive_FilledFrom_lookup in Hfill. rewrite Heq in Hfill.
    destruct (pushed_fillWith_at _ _ _ _ _ _ _ _ _ Hfill Hname)
      as (v & c2 & c3 & Hv & Hrv).
    destruct (lookupModeValue_lookup i f vs w c2 v c3 Hd Hvs Hne Hv)
      as (x & Hx & ->).
    exists x. split; [done|]. intros Hproto. by apply Hrv.
Qed.

Lemma lookup_mode_positive_records_witness :
  ∃ recs c1,
    positiveRecords [Sample.colour; Sample.username] 10
                    Sample.world Sample.start = Returns recs c1 ∧
    List.length recs = 3%nat.
Proof.
  destruct (lookup_mode_positive_records [Sample.colour; Sample.username] 10
              Sample.world Sample.start)
    as (M & recs & c1 & (f & Hf & Hd & HM) & Hub & Hrun & Hlen & _).
  - intros f Hf Hd.
    apply elem_of_cons in Hf as [->|Hf]; [by eexists|].
    apply elem_of_cons in Hf as [->|Hf]; [discriminate Hd|].
    by apply elem_of_nil in Hf.
  - exists Sample.colour. split; [left|]. split; reflexivity.
  - exists recs, c1. split; [exact Hrun|].
    assert (HM3 : M = 3).
    { apply elem_of_cons in Hf as [->|Hf]; [by rewrite <- HM|].
      apply elem_of_cons in Hf as [->|Hf]; [discriminate Hd|].
      by apply elem_of_nil in Hf. }
    rewrite HM3 in Hlen. simpl in Hlen. lia.
Defined.

(** ** A single required string field *)

Lemma collect_cons_run {A B : Type} (f : A → M B) x l w c y c1 ys c2 :
  f x w c = Returns y c1 →
  collect f l w c1 = Returns ys c2 →
  collect f (x :: l) w c = Returns (y :: ys) c2.
Proof.
  intros Hx Hl. simpl.
  by rewrite (bind_step _ _ _ _ _ _ Hx), (bind_step _ _ _ _ _ _ Hl).
Qed.

(** The negative record of a configuration that consists of its target
    alone. *)
Lemma negativeRecord_single field kind v w c :
  name field ≠ "" →
  generateNegativeValue field kind = Done v →
  negativeRecord [field] field kind w c
  = Returns (properties
               (setProperty (name field) v
                  (objectLiteral (negativeSeed field kind)))) c.
Proof.
  intros Hname Hv. unfold negativeRecord, pushed.
  unfold bind at 1. rewrite forEach_single.
  unfold fillNegative.
  rewrite (proj2 (Str_is_empty_false _) Hname).
  rewrite (proj2 (Str_eqb_true _ _) eq_refl).
  unfold bind, lift. by rewrite Hv.
Qed.

(** C3: a configuration of one named string field that is required, with
    strategy minmax 3..3, without explicit opt-in and without length limit,
    yields after the positive batch exactly the negative records of kinds
    empty, null, too_long, special_chars, sql_injection for that field,
    which is automatically eligible; unless the field is named like a
    metadata key, these records carry the kinds in [_testType], the field
    in [_targetField] and [_autoSelected = true].  The value synthesized
    for a positive record is a string of 3 characters, which the record
    holds under the name of the field unless that name is [__proto__]
    (under which an object literal takes no own property). *)
Theorem single_required_string_field field n incl w c :
  type field = ft_string →
  required field = true →
  dataType field = dt_minmax →
  minLength (config field) = Some 3 →
  maxLength (config field) = Some 3 →
  generateNegativeTests field = None →
  maxFieldLength field = None →
  name field ≠ "" →
  shouldAutoEnableNegativeTests field = true ∧
  ∃ positives negatives c',
    generateTestData [field] n incl w c
      = Returns (positives ++ negatives) c' ∧
    List.length positives = Z.to_nat n ∧
    Forall (fun r => ∃ s, SynthesizedFor w field (VStr s) ∧
                          Str.length s = 3 ∧
                          (name field ≠ "__proto__" →
                           r !! name field = Some (VStr s)))
           positives ∧
    Forall2 (NegativeOf [field] w field)
      ["empty"; "null"; "too_long"; "special_chars"; "sql_injection"]
      negatives ∧
    ((name field ∉ metadataKeys) →
     Forall (fun r => r !! "_testType" = Some (VStr "positive")) positives ∧
     (fun r : GeneratedRecord => r !! "_testType") <$> negatives
       = [Some (VStr "negative_empty"); Some (VStr "negative_null");
          Some (VStr "negative_too_long");
          Some (VStr "negative_special_chars");
          Some (VStr "negative_sql_injection")] ∧
     Forall (fun r =>
               r !! "_autoSelected" = Some (VBool true) ∧
               r !! "_targetField" = Some (VStr (name field)))
            negatives).
Proof.
  intros Hty Hreq Hd Hmin Hmax Hgen Hlimit Hname.
  assert (Hauto : shouldAutoEnableNegativeTests field = true).
  { unfold shouldAutoEnableNegativeTests. by rewrite Hreq. }
  split; [done|].
  (* the positive batch *)
  destruct (positiveRecords_standard [field] n w c)
    as (positives & c1 & Hpos & Hlen & Hrecs).
  { simpl. by rewrite Hd. }
  { intros f ->%list_elem_of_singleton.
    apply generateFieldValue_total. by rewrite Hd. }
  assert (Hfilled : ∀ i r, positives !! i = Some r →
            (∃ s, SynthesizedFor w field (VStr s) ∧ Str.length s = 3 ∧
                  (name field ≠ "__proto__" →
                   r !! name field = Some (VStr s))) ∧
            (name field ≠ "_testType" →
             r !! "_testType" = Some (VStr "positive"))).
  { intros i r Hr. destruct (Hrecs i r Hr) as (ca & cb & Hfill). split.
    - destruct (pushed_fillWith_at _ [] field [] _ _ _ _ _ Hfill Hname)
        as (v & c2 & c3 & Hv & Hentry).
      destruct (generateFieldValue_minmax_string field w c2)
        as (s & c4 & Hs & Hbounds); try done.
      { rewrite Hmin, Hmax. simpl. lia. }
      rewrite Hs in Hv. injection Hv as <- <-.
      exists s. split; [by exists c2, c4|]. split.
      + rewrite Hmin, Hmax in Hbounds. simpl in Hbounds. lia.
      + intros Hproto. apply Hentry; [done|]. apply not_elem_of_nil.
    - intros Htag.
      rewrite (pushed_fillWith_other _ _ _ _ _ _ _ "_testType" Hfill);
        [done|].
      rewrite fieldNames_cons_named by done.
      apply not_elem_of_cons. split; [done|]. apply not_elem_of_nil. }
  (* the negative batch *)
  set (rec := fun kind v =>
                properties (setProperty (name field) v
                              (objectLiteral (negativeSeed field kind)))).
  assert (Hkinds : getNegativeTestTypes field =
    ["empty"; "null"; "too_long"; "special_chars"; "sql_injection"]).
  { unfold getNegativeTestTypes. by rewrite Hreq, Hty, Hlimit. }
  assert (Hfor : negativeRecordsFor [field] field w c1 =
    Returns [rec "empty" (VStr ""); rec "null" VNull;
             rec "too_long" (VStr (Str.repeat "A"%char 1000));
             rec "special_chars" (VStr specialChars);
             rec "sql_injection" (VStr "'; DROP TABLE users; --")] c1).
  { unfold negativeRecordsFor. rewrite Hkinds.
    repeat (eapply collect_cons_run;
            [apply negativeRecord_single; [exact Hname | reflexivity]|]).
    reflexivity. }
  assert (Hneg : negativeRecords [field] incl w c1 =
    Returns [rec "empty" (VStr ""); rec "null" VNull;
             rec "too_long" (VStr (Str.repeat "A"%char 1000));
             rec "special_chars" (VStr specialChars);
             rec "sql_injection" (VStr "'; DROP TABLE users; --")] c1).
  { assert (Hinc : shouldIncludeNegativeTests [field] incl = true).
    { unfold shouldIncludeNegativeTests. simpl. rewrite Hauto.
      apply orb_true_r. }
    assert (Htargets : negativeTestFields [field] = [field]).
    { unfold negativeTestFields. simpl.
      by rewrite Hauto, (proj2 (Str_truthy_true _) Hname), orb_true_r. }
    unfold negativeRecords. rewrite Hinc, Htargets.
    rewrite (bind_step _ _ _ _ _ _
               (collect_cons_run _ _ [] _ _ _ _ [] _ Hfor eq_refl)).
    reflexivity. }
  eexists positives, _, c1. split.
  { unfold generateTestData.
    rewrite (bind_step _ _ _ _ _ _ Hpos), (bind_step _ _ _ _ _ _ Hneg).
    reflexivity. }
  split; [done|]. split; [|split].
  - apply Forall_lookup. intros i r Hr.
    by destruct (Hfilled i r Hr) as [Hs _].
  - unfold negativeRecordsFor in Hfor. rewrite Hkinds in Hfor.
    by apply collect_Forall2 in Hfor.
  - intros Hmeta.
    assert (Ht : name field ≠ "_testType")
      by (intros E; apply Hmeta; rewrite E; unfold metadataKeys; str_in).
    assert (Hf : name field ≠ "_targetField")
      by (intros E; apply Hmeta; rewrite E; unfold metadataKeys; str_in).
    assert (Ha : name field ≠ "_autoSelected")
      by (intros E; apply Hmeta; rewrite E; unfold metadataKeys; str_in).
    split; [|split].
    + apply Forall_lookup. intros i r Hr.
      destruct (Hfilled i r Hr) as [_ Htag]. by apply Htag.
    + unfold rec. simpl.
      rewrite !setProperty_lookup_ne by done. cbn [properties objectLiteral].
      by rewrite !negativeSeed_testType.
    + unfold rec.
      repeat (apply Forall_cons; split;
              [rewrite !setProperty_lookup_ne by done;
               cbn [properties objectLiteral];
               by rewrite negativeSeed_autoSelected,
                    negativeSeed_targetField, Hauto|]).
      apply Forall_nil_2.
Qed.

Lemma single_required_string_field_witness :
  ∃ positives negatives c',
    generateTestData [Sample.username] 10 false Sample.world Sample.start
      = Returns (positives ++ negatives) c' ∧
    List.length positives = 10%nat ∧
    List.length negatives = 5%nat.
Proof.
  destruct (single_required_string_field Sample.username 10 false
              Sample.world Sample.start)
    as (_ & positives & negatives & c' & Hrun & Hlen & _ & Hkinds & _);
    try reflexivity.
  - discriminate.
  - exists positives, negatives, c'. split; [exact Hrun|].
    split; [exact Hlen|].
    apply Forall2_length in Hkinds. symmetry. exact Hkinds.
Defined.

(** * Properties of the components around the engine *)

(** ** Characters of a string *)

Lemma includesChar_cons ch c s :
  includesChar ch (String c s) = bool_decide (c = ch) || includesChar ch s.
Proof. reflexivity. Qed.

Lemma includesChar_app ch a b :
  includesChar ch (a +:+ b) = includesChar ch a || includesChar ch b.
Proof.
  induction a as [|c a IH]; [done|].
  change (String c a +:+ b) with (String c (a +:+ b)).
  rewrite !includesChar_cons, IH. by rewrite orb_assoc.
Qed.

Lemma trimStart_chars ch s :
  includesChar ch (Str.trimStart s) = true → includesChar ch s = true.
Proof.
  induction s as [|c s IH]; [done|]. simpl.
  destruct (Str.is_ws c); [|done].
  intros H. rewrite includesChar_cons, (IH H). apply orb_true_r.
Qed.

Lemma trimEnd_chars ch s :
  includesChar ch (Str.trimEnd s) = true → includesChar ch s = true.
Proof.
  induction s as [|c s IH]; [done|]. simpl.
  destruct (Str.is_ws c && Str.is_empty (Str.trimEnd s)); [done|].
  rewrite !includesChar_cons. intros [H|H]%orb_true_iff.
  - by rewrite H.
  - rewrite (IH H). apply orb_true_r.
Qed.

Lemma trim_chars ch s :
  includesChar ch (Str.trim s) = true → includesChar ch s = true.
Proof. intros H. by apply trimStart_chars, trimEnd_chars. Qed.

Lemma trimEnd_idem s : Str.trimEnd (Str.trimEnd s) = Str.trimEnd s.
Proof.
  induction s as [|c s IH]; [done|]. simpl.
  destruct (Str.is_ws c && Str.is_empty (Str.trimEnd s)) eqn:E; [done|].
  simpl. by rewrite IH, E.
Qed.

Lemma trimStart_trimEnd s :
  Str.trimStart s = s → Str.trimStart (Str.trimEnd s) = Str.trimEnd s.
Proof.
  destruct s as [|c s]; [done|]. simpl.
  destruct (Str.is_ws c) eqn:E.
  - intros H. exfalso.
    assert (Hlen : ∀ t, (String.length (Str.trimStart t) <= String.length t)%nat).
    { induction t as [|d t IH]; simpl; [lia|].
      destruct (Str.is_ws d); simpl; lia. }
    specialize (Hlen s). rewrite H in Hlen. simpl in Hlen. lia.
  - intros _. simpl. by rewrite E.
Qed.

Lemma trimStart_idem s : Str.trimStart (Str.trimStart s) = Str.trimStart s.
Proof.
  induction s as [|c s IH]; [done|]. simpl.
  destruct (Str.is_ws c) eqn:E; [done|]. simpl. by rewrite E.
Qed.

Lemma trim_idem s : Str.trim (Str.trim s) = Str.trim s.
Proof.
  unfold Str.trim.
  rewrite (trimStart_trimEnd (Str.trimStart s)) by apply trimStart_idem.
  apply trimEnd_idem.
Qed.

Lemma stripLast_id ch s : includesChar ch s = false → stripLast ch s = s.
Proof.
  induction s as [|c s IH]; [done|].
  rewrite includesChar_cons. intros [Hc Hs]%orb_false_iff.
  simpl. destruct s as [|d s]; [by rewrite Hc|].
  by rewrite (IH Hs).
Qed.

Lemma stripEdges_id ch s : includesChar ch s = false → stripEdges ch s = s.
Proof.
  intros H. destruct s as [|c s]; [done|]. unfold stripEdges.
  pose proof H as H'. rewrite includesChar_cons in H'.
  apply orb_false_iff in H' as [-> _]. by apply stripLast_id.
Qed.

Lemma includesChar_false_trim ch s :
  includesChar ch s = false → includesChar ch (Str.trim s) = false.
Proof.
  intros H. destruct (includesChar ch (Str.trim s)) eqn:E; [|done].
  apply trim_chars in E. congruence.
Qed.

Lemma csvCell_unquoted current :
  includesChar dquote current = false → csvCell current = Str.trim current.
Proof.
  intros H. unfold csvCell. by apply stripEdges_id, includesChar_false_trim.
Qed.

(** ** The parser of CSV lines *)


Lemma csvLine_values line : ∀ pre values current inQuotes,
  csvLine line (pre ++ values) current inQuotes
  = pre ++ csvLine line values current inQuotes.
Proof.
  induction line as [|ch line IH]; intros pre values current inQuotes; simpl.
  - by rewrite app_assoc.
  - destruct (bool_decide (ch = dquote)); [apply IH|].
    destruct (bool_decide (ch = ","%char) && negb inQuotes); [|apply IH].
    rewrite <- app_assoc. apply IH.
Qed.

Lemma csvLine_nonempty line values current inQuotes :
  csvLine line values current inQuotes ≠ [].
Proof.
  revert values current inQuotes.
  induction line as [|ch line IH]; intros values current inQuotes; simpl.
  - by destruct values.
  - destruct (bool_decide (ch = dquote)); [apply IH|].
    destruct (bool_decide (ch = ","%char) && negb inQuotes); apply IH.
Qed.

Lemma CellOf_csvCell full current :
  (∀ ch, includesChar ch current = true →
         includesChar ch full = true ∧ ch ≠ dquote) →
  CellOf full (csvCell current).
Proof.
  intros H.
  assert (Hq : includesChar dquote current = false).
  { destruct (includesChar dquote current) eqn:E; [|done].
    by destruct (H _ E). }
  rewrite (csvCell_unquoted _ Hq). split; [|apply trim_idem].
  intros ch Hch. apply H. by apply trim_chars.
Qed.

Lemma csvLine_cells full line : ∀ values current inQuotes,
  (∀ ch, includesChar ch line = true → includesChar ch full = true) →
  (∀ ch, includesChar ch current = true →
         includesChar ch full = true ∧ ch ≠ dquote) →
  Forall (CellOf full) values →
  Forall (CellOf full) (csvLine line values current inQuotes).
Proof.
  induction line as [|c line IH]; intros values current inQuotes Hline Hcur Hv;
    simpl.
  - apply Forall_app. split; [done|].
    apply Forall_cons. split; [by apply CellOf_csvCell | apply Forall_nil_2].
  - assert (Hrest : ∀ ch, includesChar ch line = true →
                          includesChar ch full = true).
    { intros ch H. apply Hline. rewrite includesChar_cons, H.
      apply orb_true_r. }
    destruct (bool_decide (c = dquote)) eqn:Eq; [by apply IH|].
    destruct (bool_decide (c = ","%char) && negb inQuotes).
    + apply IH; [done|done|].
      apply Forall_app. split; [done|].
      apply Forall_cons. split; [by apply CellOf_csvCell | apply Forall_nil_2].
    + apply IH; [done| |done].
      intros ch. rewrite includesChar_app, includesChar_cons.
      intros [H|H]%orb_true_iff; [by apply Hcur|].
      rewrite orb_false_r in H. apply bool_decide_eq_true in H as <-.
      split.
      * apply Hline. rewrite includesChar_cons.
        by rewrite bool_decide_eq_true_2.
      * by apply bool_decide_eq_false in Eq.
Qed.

Lemma parseCsvLine_cells line : Forall (CellOf line) (parseCsvLine line).
Proof.
  apply csvLine_cells; [done| |apply Forall_nil_2].
  intros ch H. discriminate H.
Qed.

(** ** Splitting and joining *)

Lemma split_at_nonempty sep s : Str.split_at sep s ≠ [].
Proof.
  destruct s as [|c s]; [done|]. simpl.
  destruct (bool_decide (c = sep)); [done|].
  by destruct (Str.split_at sep s).
Qed.

Lemma split_at_pieces sep s :
  Forall (fun p => includesChar sep p = false) (Str.split_at sep s).
Proof.
  induction s as [|c s IH]; simpl.
  - apply Forall_cons. split; [done | apply Forall_nil_2].
  - destruct (bool_decide (c = sep)) eqn:E.
    + apply Forall_cons. by split.
    + destruct (Str.split_at sep s) as [|p ps]; apply Forall_cons.
      * split; [|apply Forall_nil_2].
        by rewrite includesChar_cons, E.
      * apply Forall_cons in IH as [Hp Hps]. split; [|done].
        by rewrite includesChar_cons, E.
Qed.

Lemma split_at_plain sep s :
  includesChar sep s = false → Str.split_at sep s = [s].
Proof.
  induction s as [|c s IH]; [done|].
  rewrite includesChar_cons. intros [Hc Hs]%orb_false_iff.
  simpl. by rewrite Hc, (IH Hs).
Qed.

Lemma split_at_app sep a b :
  includesChar sep a = false →
  Str.split_at sep (a +:+ String sep b) = a :: Str.split_at sep b.
Proof.
  induction a as [|c a IH].
  - intros _. change ("" +:+ String sep b) with (String sep b). simpl.
    by rewrite bool_decide_eq_true_2.
  - rewrite includesChar_cons. intros [Hc Ha]%orb_false_iff.
    change (String c a +:+ String sep b) with (String c (a +:+ String sep b)).
    simpl. by rewrite Hc, (IH Ha).
Qed.

Lemma split_at_join sep l :
  l ≠ [] → Forall (fun p => includesChar sep p = false) l →
  Str.split_at sep (join (String sep "") l) = l.
Proof.
  induction l as [|x l IH]; [done|]. intros _ Hall.
  apply Forall_cons in Hall as [Hx Hl].
  destruct l as [|y l].
  - simpl. by apply split_at_plain.
  - change (join (String sep "") (x :: y :: l))
      with (x +:+ String sep "" +:+ join (String sep "") (y :: l)).
    change (String sep "" +:+ join (String sep "") (y :: l))
      with (String sep (join (String sep "") (y :: l))).
    rewrite (split_at_app _ _ _ Hx). f_equal. by apply IH.
Qed.

(** ** Lines without quotes *)

Lemma string_app_empty_r (s : string) : s +:+ "" = s.
Proof.
  induction s as [|c s IH]; [done|].
  change (String c (s +:+ "") = String c s). by rewrite IH.
Qed.

Lemma string_app_assoc (a b c : string) : (a +:+ b) +:+ c = a +:+ (b +:+ c).
Proof.
  induction a as [|d a IH]; [done|].
  change (String d ((a +:+ b) +:+ c) = String d (a +:+ (b +:+ c))).
  by rewrite IH.
Qed.

Lemma csvLine_unquoted line : ∀ values current,
  includesChar dquote line = false →
  includesChar dquote current = false →
  csvLine line values current false
  = values ++
    match Str.split_at ","%char line with
    | [] => []
    | p :: ps => Str.trim (current +:+ p) :: List.map Str.trim ps
    end.
Proof.
  induction line as [|c line IH]; intros values current Hline Hcur.
  - simpl. rewrite csvCell_unquoted by done.
    by rewrite string_app_empty_r.
  - rewrite includesChar_cons in Hline.
    apply orb_false_iff in Hline as [Hc Hline].
    simpl. rewrite Hc.
    pose proof (split_at_nonempty ","%char line) as Hne.
    destruct (bool_decide (c = ","%char)) eqn:Ec; simpl.
    + rewrite IH by done. rewrite <- app_assoc. f_equal. simpl.
      rewrite csvCell_unquoted by done.
      destruct (Str.split_at ","%char line) as [|p ps]; [done|].
      by rewrite string_app_empty_r.
    + rewrite IH; [|done|].
      * destruct (Str.split_at ","%char line) as [|p ps]; [done|].
        by rewrite string_app_assoc.
      * by rewrite includesChar_app, Hcur, includesChar_cons, Hc.
Qed.

(** ** Quoted cells *)

Lemma csvLine_inside_quotes s : ∀ rest values current,
  includesChar dquote s = false →
  csvLine (s +:+ rest) values current true
  = csvLine rest values (current +:+ s) true.
Proof.
  induction s as [|c s IH]; intros rest values current Hs.
  - by rewrite string_app_empty_r.
  - rewrite includesChar_cons in Hs. apply orb_false_iff in Hs as [Hc Hs].
    change (String c s +:+ rest) with (String c (s +:+ rest)).
    simpl. rewrite Hc, andb_false_r, IH by done.
    by rewrite string_app_assoc.
Qed.

Lemma csvLine_quoted s rest values current :
  includesChar dquote s = false →
  csvLine (String dquote (s +:+ String dquote rest)) values current false
  = csvLine rest values (current +:+ s) false.
Proof.
  intros Hs. simpl. rewrite csvLine_inside_quotes by done. reflexivity.
Qed.

(** X1: every row that the CSV parser builds has at least one cell, and no
    cell holds a double quote or a line feed or starts or ends with white
    space: quotes only switch the quoted mode and never reach a cell. *)
Theorem parseCsvText_cells text row :
  row ∈ parseCsvText text →
  row ≠ [] ∧
  ∀ cell, cell ∈ row →
    includesChar dquote cell = false ∧
    includesChar LF cell = false ∧
    Str.trim cell = cell.
Proof.
  unfold parseCsvText, csvLines. intros Hrow.
  apply list_elem_of_In, in_map_iff in Hrow as (line & <- & Hline).
  apply filter_In in Hline as [Hline _].
  apply list_elem_of_In in Hline.
  pose proof (split_at_pieces LF text) as Hpieces.
  rewrite Forall_forall in Hpieces. specialize (Hpieces _ Hline).
  split; [apply csvLine_nonempty|].
  intros cell Hcell.
  pose proof (parseCsvLine_cells line) as Hcells.
  rewrite Forall_forall in Hcells.
  destruct (Hcells _ Hcell) as [Hchars Htrim].
  split; [|split; [|done]].
  - destruct (includesChar dquote cell) eqn:E; [|done].
    by destruct (Hchars _ E).
  - destruct (includesChar LF cell) eqn:E; [|done].
    destruct (Hchars _ E). congruence.
Qed.

Lemma parseCsvText_cells_witness :
  parseCsvText Example.contacts = [["name"; "city"]; ["Doe, J"; "Paris"]] ∧
  ∀ cell, cell ∈ ["Doe, J"; "Paris"] →
    includesChar dquote cell = false ∧
    includesChar LF cell = false ∧
    Str.trim cell = cell.
Proof.
  split; [vm_compute; reflexivity|].
  apply (parseCsvText_cells Example.contacts).
  vm_compute. right. left.
Defined.

(** X2: a line without double quotes is cut at every comma, and each piece
    is trimmed. *)
Theorem parseCsvLine_unquoted line :
  includesChar dquote line = false →
  parseCsvLine line = List.map Str.trim (Str.split_at ","%char line).
Proof.
  intros H. unfold parseCsvLine. rewrite csvLine_unquoted by done.
  pose proof (split_at_nonempty ","%char line) as Hne.
  by destruct (Str.split_at ","%char line).
Qed.

Lemma parseCsvLine_unquoted_witness :
  parseCsvLine "john.doe , Engineering,,x" = ["john.doe"; "Engineering"; ""; "x"].
Proof.
  rewrite (parseCsvLine_unquoted "john.doe , Engineering,,x");
    vm_compute; reflexivity.
Defined.

(** X3: between two double quotes a comma does not end the cell: a quoted
    text without inner quotes is one cell, trimmed and without its quotes,
    whether it ends the line or is followed by a comma and further cells. *)
Theorem parseCsvLine_quoted s rest :
  includesChar dquote s = false →
  parseCsvLine (String dquote (s +:+ String dquote "")) = [Str.trim s] ∧
  parseCsvLine (String dquote (s +:+ String dquote (String ","%char rest)))
  = Str.trim s :: parseCsvLine rest.
Proof.
  intros Hs. unfold parseCsvLine. rewrite !csvLine_quoted by done.
  change ("" +:+ s) with s. split.
  - simpl. by rewrite csvCell_unquoted.
  - simpl. rewrite csvCell_unquoted by done.
    apply (csvLine_values rest [Str.trim s] [] "" false).
Qed.

Lemma parseCsvLine_quoted_witness :
  parseCsvLine (String dquote ("Doe, J" +:+ String dquote ",Paris"))
  = ["Doe, J"; "Paris"].
Proof.
  destruct (parseCsvLine_quoted "Doe, J" "Paris") as [_ H];
    [vm_compute; reflexivity|].
  rewrite H. vm_compute. reflexivity.
Defined.

(** ** Reading back a serialised grid *)

Lemma includesChar_join ch sep l :
  includesChar ch sep = false →
  Forall (fun x => includesChar ch x = false) l →
  includesChar ch (join sep l) = false.
Proof.
  intros Hsep. induction l as [|x l IH]; [done|].
  intros [Hx Hl]%Forall_cons. destruct l as [|y l]; [done|].
  change (join sep (x :: y :: l)) with (x +:+ sep +:+ join sep (y :: l)).
  by rewrite !includesChar_app, Hx, Hsep, (IH Hl).
Qed.

Lemma trimStart_keeps ch s :
  Str.is_ws ch = false → includesChar ch s = true →
  includesChar ch (Str.trimStart s) = true.
Proof.
  intros Hws. induction s as [|c s IH]; [done|].
  rewrite includesChar_cons. simpl.
  destruct (Str.is_ws c) eqn:E.
  - intros [H|H]%orb_true_iff; [|by apply IH].
    apply bool_decide_eq_true in H as ->. congruence.
  - by rewrite includesChar_cons.
Qed.

Lemma trimEnd_keeps ch s :
  Str.is_ws ch = false → includesChar ch s = true →
  includesChar ch (Str.trimEnd s) = true.
Proof.
  intros Hws. induction s as [|c s IH]; [done|].
  rewrite includesChar_cons. simpl. intros H.
  destruct (Str.is_ws c && Str.is_empty (Str.trimEnd s)) eqn:E.
  - apply andb_true_iff in E as [Ec Ee]. exfalso.
    apply orb_true_iff in H as [H|H].
    + apply bool_decide_eq_true in H as ->. congruence.
    + specialize (IH H). by destruct (Str.trimEnd s).
  - rewrite includesChar_cons.
    apply orb_true_iff in H as [->|H]; [done|].
    rewrite (IH H). apply orb_true_r.
Qed.

Lemma trim_keeps ch s :
  Str.is_ws ch = false → includesChar ch s = true →
  includesChar ch (Str.trim s) = true.
Proof. intros Hws H. by apply trimEnd_keeps, trimStart_keeps. Qed.

Lemma join_cons sep x y l :
  join sep (x :: y :: l) = x +:+ sep +:+ join sep (y :: l).
Proof. reflexivity. Qed.

Lemma parseCsvLine_join row :
  Forall plainCell row → row ≠ [] →
  parseCsvLine (join "," row) = row.
Proof.
  intros Hrow Hne.
  rewrite parseCsvLine_unquoted.
  - rewrite (split_at_join ","%char row Hne).
    + induction Hrow as [|x l (_ & _ & _ & Hx) _ IH]; [done|].
      simpl. rewrite Hx. f_equal. destruct l; [done|]. by apply IH.
    + eapply Forall_impl; [exact Hrow|]. by intros x (H & _).
  - apply includesChar_join; [done|].
    eapply Forall_impl; [exact Hrow|]. by intros x (_ & H & _).
Qed.

Lemma join_nonblank row :
  Forall plainCell row → row ≠ [] → row ≠ [""] →
  Str.truthy (Str.trim (join "," row)) = true.
Proof.
  intros Hrow Hne Hne'. apply Str_truthy_true.
  destruct row as [|x [|y l]]; [done| |].
  - simpl. apply Forall_cons in Hrow as [(_ & _ & _ & ->) _]. congruence.
  - rewrite join_cons. intros E.
    assert (H : includesChar ","%char
                  (Str.trim (x +:+ "," +:+ join "," (y :: l))) = true).
    { apply trim_keeps; [done|].
      rewrite !includesChar_app. apply orb_true_iff. right. done. }
    by rewrite E in H.
Qed.

Lemma csvContent_lines rows :
  Forall (fun row => row ≠ [] ∧ row ≠ [""] ∧ Forall plainCell row) rows →
  csvLines (CsvManager.csvContent rows) = List.map (join ",") rows.
Proof.
  intros Hrows. unfold csvLines, CsvManager.csvContent.
  destruct (decide (rows = [])) as [->|Hne]; [done|].
  rewrite split_at_join.
  - induction Hrows as [|row l (H1 & H2 & H3) _ IH]; [done|].
    simpl. rewrite join_nonblank by done. f_equal.
    destruct l; [done|]. by apply IH.
  - by destruct rows.
  - apply Forall_forall. intros line Hline.
    apply list_elem_of_In, in_map_iff in Hline as (row & <- & Hrow).
    apply list_elem_of_In in Hrow.
    rewrite Forall_forall in Hrows.
    destruct (Hrows _ Hrow) as (_ & _ & Hcells).
    apply includesChar_join; [done|].
    eapply Forall_impl; [exact Hcells|]. by intros x (_ & _ & H & _).
Qed.

(** X4: the serialisation that the CSV manager offers for download (cells
    joined by commas, rows by line feeds) is read back unchanged by the
    parser, for rows of cells without comma, quote, line feed and outer
    white space, no row being empty or a single empty cell; an upload of
    that text is registered with these rows, the first of them as header,
    and one less as row count. *)
Theorem csvContent_roundtrip rows :
  Forall (fun row => row ≠ [] ∧ row ≠ [""] ∧ Forall plainCell row) rows →
  parseCsvText (CsvManager.csvContent rows) = rows ∧
  CsvManager.parseCsvFile (CsvManager.csvContent rows) = Resolved rows ∧
  (rows ≠ [] → parseCsvFile (CsvManager.csvContent rows) = Resolved rows) ∧
  ∀ csvFiles fileName w c, ∃ csvFile c',
    CsvManager.handleFileUpload csvFiles fileName
      (CsvManager.csvContent rows) w c = Returns (csvFiles ++ [csvFile]) c' ∧
    CsvManager.data csvFile = rows ∧
    CsvManager.headers csvFile = List.hd [] rows ∧
    CsvManager.rowCount csvFile = Z.of_nat (List.length rows) - 1.
Proof.
  intros Hrows.
  assert (Hparse : parseCsvText (CsvManager.csvContent rows) = rows).
  { unfold parseCsvText. rewrite csvContent_lines by done.
    induction Hrows as [|row l (H1 & H2 & H3) _ IH]; [done|].
    simpl. rewrite parseCsvLine_join by done. by rewrite IH. }
  split; [done|]. split; [|split].
  - unfold CsvManager.parseCsvFile. by rewrite Hparse.
  - intros Hne. unfold parseCsvFile. rewrite Hparse.
    destruct (Str.is_empty (CsvManager.csvContent rows)) eqn:E; [|done].
    apply Str_is_empty_true in E. rewrite E in Hparse.
    by rewrite <- Hparse in Hne.
  - intros csvFiles fileName w c.
    unfold CsvManager.handleFileUpload, CsvManager.parseCsvFile.
    rewrite Hparse. unfold bind, Date_now, ret. eexists _, _.
    split; [reflexivity|]. simpl. by destruct rows.
Qed.

Lemma csvContent_roundtrip_witness :
  parseCsvText CsvManager.generateSampleCsv = CsvManager.sampleData.
Proof.
  apply (csvContent_roundtrip CsvManager.sampleData).
  repeat (apply Forall_cons; split;
          [split; [discriminate|]; split; [discriminate|];
           repeat (apply Forall_cons; split; [by vm_compute|]);
           apply Forall_nil_2|]).
  apply Forall_nil_2.
Defined.

(** ** File names *)

Lemma Str_forallb_cons p c s :
  Str.forallb p (String c s) = p c && Str.forallb p s.
Proof. reflexivity. Qed.

Lemma adjacentDashes_cons c s :
  adjacentDashes (String c s)
  = (bool_decide (c = dash) && bool_decide (firstChar s = Some dash))
    || adjacentDashes s.
Proof. reflexivity. Qed.

Lemma dashOthers_chars s : Str.forallb slugOrDash (dashOthers s) = true.
Proof.
  induction s as [|c s IH]; [done|].
  unfold dashOthers in *. simpl. rewrite IH, andb_true_r.
  unfold slugOrDash. destruct (isSlugChar c) eqn:E; [by rewrite E|done].
Qed.

Lemma collapseDashes_chars p s : ∀ in_run,
  Str.forallb p s = true → Str.forallb p (collapseDashes in_run s) = true.
Proof.
  induction s as [|c s IH]; [done|]. intros in_run.
  rewrite Str_forallb_cons. intros [Hc Hs]%andb_true_iff. simpl.
  destruct (bool_decide (c = dash)) eqn:E.
  - apply bool_decide_eq_true in E as ->.
    destruct in_run; [by apply IH|].
    rewrite Str_forallb_cons, Hc. by apply IH.
  - rewrite Str_forallb_cons, Hc. by apply IH.
Qed.

Lemma collapseDashes_first s : firstChar (collapseDashes true s) ≠ Some dash.
Proof.
  induction s as [|c s IH]; [done|]. simpl.
  destruct (bool_decide (c = dash)) eqn:E; [done|].
  apply bool_decide_eq_false in E. simpl. congruence.
Qed.

Lemma collapseDashes_adjacent s : ∀ in_run,
  adjacentDashes (collapseDashes in_run s) = false.
Proof.
  induction s as [|c s IH]; [done|]. intros in_run. simpl.
  destruct (bool_decide (c = dash)) eqn:E.
  - destruct in_run; [apply IH|].
    rewrite adjacentDashes_cons, IH, orb_false_r.
    apply andb_false_iff. right. apply bool_decide_eq_false.
    apply collapseDashes_first.
  - by rewrite adjacentDashes_cons, E, IH.
Qed.

Lemma stripLast_chars p ch s :
  Str.forallb p s = true → Str.forallb p (stripLast ch s) = true.
Proof.
  induction s as [|c s IH]; [done|].
  rewrite Str_forallb_cons. intros [Hc Hs]%andb_true_iff. simpl.
  destruct s as [|d s].
  - destruct (bool_decide (c = ch)); [done|]. by rewrite Str_forallb_cons, Hc.
  - by rewrite Str_forallb_cons, Hc, (IH Hs).
Qed.

Lemma stripLast_empty ch s :
  stripLast ch s = "" → s = "" ∨ s = String ch "".
Proof.
  destruct s as [|c [|d s]]; simpl; [by left| |done].
  destruct (bool_decide (c = ch)) eqn:E; [|done].
  apply bool_decide_eq_true in E as ->. by right.
Qed.

Lemma stripLast_first ch s :
  firstChar s ≠ Some ch → firstChar (stripLast ch s) ≠ Some ch.
Proof.
  destruct s as [|c [|d s]]; simpl; [done| |done].
  by destruct (bool_decide (c = ch)).
Qed.

Lemma stripLast_adjacent s :
  adjacentDashes s = false → adjacentDashes (stripLast dash s) = false.
Proof.
  induction s as [|c s IH]; [done|].
  rewrite adjacentDashes_cons.
  intros [Hc Hs]%orb_false_iff.
  destruct s as [|d s].
  - simpl. destruct (bool_decide (c = dash)); [done|].
    rewrite adjacentDashes_cons. simpl. by rewrite andb_false_r.
  - change (adjacentDashes (String c (stripLast dash (String d s))) = false).
    rewrite adjacentDashes_cons, (IH Hs), orb_false_r.
    apply andb_false_iff in Hc as [Hc|Hc]; [by rewrite Hc|].
    apply andb_false_iff. right. apply bool_decide_eq_false.
    apply stripLast_first. by apply bool_decide_eq_false in Hc.
Qed.

Lemma stripLast_last s :
  adjacentDashes s = false → lastChar (stripLast dash s) ≠ Some dash.
Proof.
  induction s as [|c s IH]; [done|].
  rewrite adjacentDashes_cons.
  intros [Hc Hs]%orb_false_iff.
  destruct s as [|d s].
  - simpl. destruct (bool_decide (c = dash)) eqn:E; [done|].
    apply bool_decide_eq_false in E. simpl. congruence.
  - change (stripLast dash (String c (String d s)))
      with (String c (stripLast dash (String d s))).
    destruct (stripLast dash (String d s)) as [|e t] eqn:Et.
    + apply stripLast_empty in Et as [Et|Et]; [done|].
      injection Et as -> ->. simpl in Hc. simpl.
      rewrite andb_true_r in Hc. apply bool_decide_eq_false in Hc. congruence.
    + specialize (IH Hs). done.
Qed.

Lemma adjacentDashes_tail c s :
  adjacentDashes (String c s) = false → adjacentDashes s = false.
Proof. rewrite adjacentDashes_cons. by intros [_ H]%orb_false_iff. Qed.

Lemma stripEdges_shape s :
  Str.forallb slugOrDash s = true → adjacentDashes s = false →
  SlugShape (stripEdges dash s).
Proof.
  intros Hchars Hadj. destruct s as [|c s].
  - by repeat split.
  - unfold stripEdges. destruct (bool_decide (c = dash)) eqn:E.
    + pose proof Hadj as Hadj'. rewrite adjacentDashes_cons in Hadj'.
      apply orb_false_iff in Hadj' as [Hc Hs].
      rewrite E in Hc. simpl in Hc. apply bool_decide_eq_false in Hc.
      rewrite Str_forallb_cons in Hchars. apply andb_true_iff in Hchars as [_ Hch].
      split; [by apply stripLast_chars|].
      split; [by apply stripLast_first|].
      split; [by apply stripLast_last | by apply stripLast_adjacent].
    + split; [by apply stripLast_chars|].
      split; [|split; [by apply stripLast_last | by apply stripLast_adjacent]].
      apply stripLast_first. simpl. apply bool_decide_eq_false in E. congruence.
Qed.

(** X5: the base of a download file name holds only characters of
    [[a-z0-9]] and dashes, neither starts nor ends with a dash, and has no
    two dashes in a row. *)
Theorem slug_shape name : SlugShape (slug name).
Proof.
  apply stripEdges_shape.
  - apply collapseDashes_chars, dashOthers_chars.
  - apply collapseDashes_adjacent.
Qed.

Lemma lower_char_slugOrDash c : slugOrDash c = true → Str.lower_char c = c.
Proof.
  unfold slugOrDash, isSlugChar, Str.lower_char, Str.is_lower, Str.is_digit,
    Str.is_upper.
  intros H.
  assert (Hcode : 97 <= Str.code c <= 122 ∨ 48 <= Str.code c <= 57
                  ∨ Str.code c = 45).
  { apply orb_true_iff in H as [H|H].
    - apply orb_true_iff in H as [H|H]; apply andb_true_iff in H as [H1 H2];
        lia.
    - apply bool_decide_eq_true in H as ->. right. right. reflexivity. }
  destruct (65 <=? Str.code c) eqn:E1, (Str.code c <=? 90) eqn:E2; simpl;
    try lia;
    destruct (192 <=? Str.code c) eqn:E3; simpl; try lia; try done;
    destruct (Str.code c <=? 222) eqn:E4; simpl; try lia; done.
Qed.

Lemma toLowerCase_slug s :
  Str.forallb slugOrDash s = true → Str.toLowerCase s = s.
Proof.
  induction s as [|c s IH]; [done|].
  rewrite Str_forallb_cons. intros [Hc Hs]%andb_true_iff.
  unfold Str.toLowerCase in *. simpl.
  by rewrite (lower_char_slugOrDash _ Hc), (IH Hs).
Qed.

Lemma dashOthers_slug s :
  Str.forallb slugOrDash s = true → dashOthers s = s.
Proof.
  induction s as [|c s IH]; [done|].
  rewrite Str_forallb_cons. intros [Hc Hs]%andb_true_iff.
  unfold dashOthers in *. simpl. rewrite (IH Hs). f_equal.
  unfold slugOrDash in Hc. destruct (isSlugChar c); [done|].
  simpl in Hc. by apply bool_decide_eq_true in Hc.
Qed.

Lemma collapseDashes_id s : ∀ in_run,
  adjacentDashes s = false →
  (in_run = true → firstChar s ≠ Some dash) →
  collapseDashes in_run s = s.
Proof.
  induction s as [|c s IH]; [done|]. intros in_run Hadj Hfirst.
  pose proof (adjacentDashes_tail _ _ Hadj) as Hs.
  rewrite adjacentDashes_cons in Hadj.
  apply orb_false_iff in Hadj as [Hc _]. simpl.
  destruct (bool_decide (c = dash)) eqn:E.
  - apply bool_decide_eq_true in E as ->.
    destruct in_run; [by destruct Hfirst|].
    rewrite IH; [done|done|]. intros _.
    simpl in Hc. by apply bool_decide_eq_false in Hc.
  - rewrite IH; [done|done|done].
Qed.

Lemma stripLast_keep ch s : lastChar s ≠ Some ch → stripLast ch s = s.
Proof.
  induction s as [|c s IH]; [done|]. intros H.
  destruct s as [|d s].
  - simpl. destruct (bool_decide (c = ch)) eqn:E; [|done].
    apply bool_decide_eq_true in E as ->. by destruct H.
  - change (stripLast ch (String c (String d s)))
      with (String c (stripLast ch (String d s))).
    by rewrite IH.
Qed.



Lemma isSlugChar_lower_char c :
  isSlugChar (Str.lower_char c)
  = Str.is_upper c || Str.is_lower c || Str.is_digit c.
Proof. by destruct c as [[] [] [] [] [] [] [] []]. Qed.

Lemma Str_existsb_cons p c s :
  Str.existsb p (String c s) = p c || Str.existsb p s.
Proof. reflexivity. Qed.

Lemma hasSlug_toLowerCase s :
  Str.existsb isSlugChar (Str.toLowerCase s) = hasAlnum s.
Proof.
  induction s as [|c s IH]; [done|].
  unfold Str.toLowerCase, hasAlnum in *. simpl.
  by rewrite IH, isSlugChar_lower_char.
Qed.

Lemma isSlugChar_dash : isSlugChar dash = false.
Proof. reflexivity. Qed.

Lemma hasSlug_dashOthers s :
  Str.existsb isSlugChar (dashOthers s) = Str.existsb isSlugChar s.
Proof.
  induction s as [|c s IH]; [done|].
  unfold dashOthers in *. simpl. rewrite IH.
  destruct (isSlugChar c) eqn:E; [by rewrite E|by rewrite isSlugChar_dash].
Qed.

Lemma hasSlug_collapseDashes s : ∀ in_run,
  Str.existsb isSlugChar (collapseDashes in_run s) = Str.existsb isSlugChar s.
Proof.
  induction s as [|c s IH]; [done|]. intros in_run. simpl.
  destruct (bool_decide (c = dash)) eqn:E.
  - apply bool_decide_eq_true in E as ->. rewrite isSlugChar_dash. simpl.
    destruct in_run; [apply IH|].
    by rewrite Str_existsb_cons, isSlugChar_dash, IH.
  - by rewrite Str_existsb_cons, IH.
Qed.

Lemma hasSlug_stripLast s :
  Str.existsb isSlugChar (stripLast dash s) = Str.existsb isSlugChar s.
Proof.
  induction s as [|c s IH]; [done|].
  destruct s as [|d s].
  - simpl. destruct (bool_decide (c = dash)) eqn:E; [|done].
    apply bool_decide_eq_true in E as ->. by rewrite isSlugChar_dash.
  - change (stripLast dash (String c (String d s)))
      with (String c (stripLast dash (String d s))).
    by rewrite !Str_existsb_cons, IH.
Qed.

Lemma hasSlug_slug name : Str.existsb isSlugChar (slug name) = hasAlnum name.
Proof.
  unfold slug.
  rewrite <- hasSlug_toLowerCase,
    <- (hasSlug_dashOthers (Str.toLowerCase name)),
    <- (hasSlug_collapseDashes (dashOthers (Str.toLowerCase name)) false).
  destruct (collapseDashes false (dashOthers (Str.toLowerCase name)))
    as [|c s]; [done|].
  unfold stripEdges. destruct (bool_decide (c = dash)) eqn:E.
  - apply bool_decide_eq_true in E as ->.
    by rewrite hasSlug_stripLast, Str_existsb_cons, isSlugChar_dash.
  - apply hasSlug_stripLast.
Qed.

Lemma slug_empty name : slug name = "" ↔ hasAlnum name = false.
Proof.
  rewrite <- hasSlug_slug. split; [by intros ->|].
  intros H. destruct (slug_shape name) as (Hchars & Hfirst & _).
  destruct (slug name) as [|c s]; [done|]. exfalso.
  rewrite Str_existsb_cons in H. apply orb_false_iff in H as [Hc _].
  rewrite Str_forallb_cons in Hchars. apply andb_true_iff in Hchars as [Hd _].
  unfold slugOrDash in Hd. rewrite Hc in Hd. simpl in Hd.
  apply bool_decide_eq_true in Hd as ->. by apply Hfirst.
Qed.

(** X7: [exportData] falls back to the base [test-data] for the empty
    generation name only.  The base of a name is empty only if the name is
    not empty and holds no letter or digit of ASCII; and a name of ASCII
    characters that is not empty and holds no letter or digit has the empty
    base, so that the download is named by the extension alone.  (Beyond
    ASCII the converse depends on the lower-casing of Unicode, which maps
    some characters to ASCII letters.) *)
Theorem baseFileName_empty generationName :
  baseFileName "" = "test-data" ∧
  (baseFileName generationName = "" →
   generationName ≠ "" ∧ hasAlnum generationName = false) ∧
  (isAscii generationName = true →
   generationName ≠ "" → hasAlnum generationName = false →
   baseFileName generationName = "") ∧
  baseFileName "!!!" = "".
Proof.
  split; [done|].
  assert (H : baseFileName generationName = "" ↔
              generationName ≠ "" ∧ hasAlnum generationName = false).
  { unfold baseFileName. destruct (Str.truthy generationName) eqn:E.
    - apply Str_truthy_true in E. rewrite slug_empty. tauto.
    - split; [discriminate|]. intros [Hne _]. exfalso.
      apply Hne. destruct generationName; [done|discriminate E]. }
  split; [apply H|]. split; [|reflexivity].
  intros _ Hne Hnone. by apply H.
Qed.

(** ** Kinds of negative tests *)

Lemma repeatA_not n s :
  firstChar s ≠ Some "A"%char → s ≠ "" → repeatA n ≠ Done (VStr s).
Proof.
  intros Hfirst Hne. unfold repeatA. destruct (n <? 0); [discriminate|].
  destruct (Z.to_nat n) as [|k]; simpl; intros [= <-]; [done|].
  by apply Hfirst.
Qed.

Lemma caseLabels_value field kind s :
  kind ∈ caseLabels →
  (kind = "invalid_format" → type field ∈ [ft_email; ft_phone; ft_date]) →
  s = "invalid_test_value" ∨ s = "invalid_format" →
  generateNegativeValue field kind ≠ Done (VStr s).
Proof.
  intros Hkind Hty Hs. unfold caseLabels in Hkind.
  assert (Hrep : ∀ n, repeatA n ≠ Done (VStr s)).
  { intros n. apply repeatA_not; destruct Hs as [-> | ->]; done. }
  repeat (apply elem_of_cons in Hkind as [->|Hkind];
          [first [ apply Hrep
                 | destruct Hs as [-> | ->]; by vm_compute
                 | idtac ]|]).
  - specialize (Hty eq_refl). unfold generateNegativeValue.
    change (Str.eqb "invalid_format" "empty") with false.
    change (Str.eqb "invalid_format" "null") with false.
    change (Str.eqb "invalid_format" "too_long") with false.
    change (Str.eqb "invalid_format" "exceed_length") with false.
    change (Str.eqb "invalid_format" "special_chars") with false.
    change (Str.eqb "invalid_format" "sql_injection") with false.
    change (Str.eqb "invalid_format" "invalid_format") with true.
    cbv iota.
    destruct (type field);
      try (destruct Hs as [-> | ->]; discriminate);
      exfalso; str_not_in Hty.
  - by apply elem_of_nil in Hkind.
Qed.

(** X8: the kinds listed for a field are pairwise distinct, each of them is
    a [case] label of the value switch, and [invalid_format] is listed only
    for the types email, phone and date: no negative record is built from
    the fallback values of the switch. *)
Theorem getNegativeTestTypes_handled field :
  NoDup (getNegativeTestTypes field) ∧
  ∀ kind, kind ∈ getNegativeTestTypes field →
    kind ∈ caseLabels ∧
    (kind = "invalid_format" → type field ∈ [ft_email; ft_phone; ft_date]) ∧
    generateNegativeValue field kind ≠ Done (VStr "invalid_test_value") ∧
    generateNegativeValue field kind ≠ Done (VStr "invalid_format").
Proof.
  assert (Hlist : NoDup (getNegativeTestTypes field) ∧
            ∀ kind, kind ∈ getNegativeTestTypes field →
              kind ∈ caseLabels ∧
              (kind = "invalid_format" →
               type field ∈ [ft_email; ft_phone; ft_date])).
  { unfold getNegativeTestTypes.
    destruct (type field) eqn:Ety, (required field);
      repeat match goal with
             | |- context [if ?b then _ else _] => destruct b
             end;
      (split; [apply (bool_decide_unpack _); by vm_compute|]);
      intros kind Hkind; simpl in Hkind;
      repeat (apply elem_of_cons in Hkind as [->|Hkind];
              [split; [unfold caseLabels; str_in|];
               try discriminate; intros _; str_in|]);
      by apply elem_of_nil in Hkind. }
  destruct Hlist as [Hnodup Hkinds]. split; [done|].
  intros kind Hkind. destruct (Hkinds kind Hkind) as [Hlabel Hty].
  split; [done|]. split; [done|].
  split; apply caseLabels_value; auto.
Qed.

(** ** Exceptions of a run *)

Lemma getLookupValues_Raised field e :
  getLookupValues field = Raised e ↔
  csvData (config field) = Some [] ∧
  opt_str_truthy (csvColumn (config field)) = true ∧ e = TypeError.
Proof.
  unfold getLookupValues, opt_str_truthy.
  destruct (csvData (config field)) as [[|header rows]|];
    destruct (csvColumn (config field)) as [col|];
    try destruct (Str.truthy col);
    try destruct (indexOf col header);
    (split; [intros H | intros (H1 & H2 & H3)]);
    try discriminate; try done; try (by subst).
  by injection H as <-.
Qed.

Lemma emptyGrid_false field :
  emptyGrid field = false →
  dataType field = dt_lookup → ∃ vs, getLookupValues field = Done vs.
Proof.
  intros Hgrid Hdt. destruct (getLookupValues field) as [vs|e] eqn:E;
    [by exists vs|].
  apply getLookupValues_Raised in E as (Hdata & Hcol & _).
  unfold emptyGrid in Hgrid.
  by rewrite Hcol, !bool_decide_eq_true_2 in Hgrid.
Qed.

Lemma emptyGrid_true field :
  emptyGrid field = true →
  dataType field = dt_lookup ∧ getLookupValues field = Raised TypeError.
Proof.
  unfold emptyGrid.
  intros [[Hdt Hdata]%andb_true_iff Hcol]%andb_true_iff.
  apply bool_decide_eq_true in Hdt, Hdata. split; [done|].
  by apply getLookupValues_Raised.
Qed.

Lemma lookupFieldsOf_Raised fields :
  ∀ e, lookupFieldsOf fields = Raised e →
       e = TypeError ∧ ∃ f, f ∈ fields ∧ emptyGrid f = true.
Proof.
  induction fields as [|x l IH]; intros e; simpl; [discriminate|].
  destruct (bool_decide (dataType x = dt_lookup)) eqn:Hd.
  - apply bool_decide_eq_true in Hd.
    destruct (getLookupValues x) as [vs|e1] eqn:Ex.
    + destruct (lookupFieldsOf l) as [fs|e2] eqn:El; [discriminate|].
      intros [= <-]. destruct (IH e2 eq_refl) as [-> (f & Hf & Hgrid)].
      split; [done|]. exists f. split; [by right|done].
    + apply getLookupValues_Raised in Ex as (Hdata & Hcol & ->).
      intros [= <-]. split; [done|]. exists x. split; [left|].
      unfold emptyGrid. by rewrite Hcol, !bool_decide_eq_true_2.
  - intros H. destruct (IH e H) as [-> (f & Hf & Hgrid)].
    split; [done|]. exists f. split; [by right|done].
Qed.

Lemma lookupFieldsOf_emptyGrid fields f :
  f ∈ fields → emptyGrid f = true → lookupFieldsOf fields = Raised TypeError.
Proof.
  intros Hf Hgrid. destruct (lookupFieldsOf fields) as [lf|e] eqn:E.
  - exfalso. revert lf E.
    induction fields as [|x l IH]; intros lf; [by apply elem_of_nil in Hf|].
    simpl. apply elem_of_cons in Hf as [<-|Hf].
    + apply emptyGrid_true in Hgrid as [Hdt Hr].
      by rewrite bool_decide_eq_true_2, Hr.
    + destruct (bool_decide (dataType x = dt_lookup)); [|by apply IH].
      destruct (getLookupValues x); [|discriminate].
      destruct (lookupFieldsOf l) as [fs|]; [|discriminate].
      intros _. by apply (IH Hf fs).
  - by apply lookupFieldsOf_Raised in E as [-> _].
Qed.

Lemma ThrowsOnly_Total {A : Type} e0 w (m : M A) :
  Total w m → ThrowsOnly e0 w m.
Proof. intros H c e E. destruct (H c) as (a & c' & Ha). congruence. Qed.

Lemma ThrowsOnly_bind {A B : Type} e0 w (m : M A) (k : A → M B) :
  ThrowsOnly e0 w m → (∀ a, ThrowsOnly e0 w (k a)) →
  ThrowsOnly e0 w (bind m k).
Proof.
  intros Hm Hk c e. unfold bind.
  destruct (m w c) as [a c1|e1] eqn:E.
  - apply Hk.
  - intros [= <-]. by apply (Hm c).
Qed.

Lemma ThrowsOnly_collect {A B : Type} e0 w (f : A → M B) l :
  (∀ x, x ∈ l → ThrowsOnly e0 w (f x)) → ThrowsOnly e0 w (collect f l).
Proof.
  induction l as [|x l IH]; intros H; simpl.
  - apply ThrowsOnly_Total, Total_ret.
  - apply ThrowsOnly_bind; [apply H; left|]. intros y.
    apply ThrowsOnly_bind; [apply IH; intros z Hz; apply H; by right|].
    intros ys. apply ThrowsOnly_Total, Total_ret.
Qed.

Lemma ThrowsOnly_forEach {A S : Type} e0 w (f : S → A → M S) l :
  (∀ s x, x ∈ l → ThrowsOnly e0 w (f s x)) →
  ∀ s, ThrowsOnly e0 w (forEach f l s).
Proof.
  induction l as [|x l IH]; intros H s; simpl.
  - apply ThrowsOnly_Total, Total_ret.
  - apply ThrowsOnly_bind; [apply H; left|]. intros s'.
    apply IH. intros s0 z Hz. apply H. by right.
Qed.

Lemma generateNegativeValue_Raised field kind e :
  generateNegativeValue field kind = Raised e ↔
  kind = "exceed_length" ∧ num_or (maxFieldLength field) 50 + 10 < 0 ∧
  e = RangeError.
Proof.
  unfold generateNegativeValue.
  destruct (Str.eqb kind "empty") eqn:E1;
    [apply Str_eqb_true in E1 as ->; split; [discriminate|by intros [[=] _]]|].
  destruct (Str.eqb kind "null") eqn:E2;
    [apply Str_eqb_true in E2 as ->; split; [discriminate|by intros [[=] _]]|].
  destruct (Str.eqb kind "too_long") eqn:E3;
    [apply Str_eqb_true in E3 as ->; split; [discriminate|by intros [[=] _]]|].
  destruct (Str.eqb kind "exceed_length") eqn:E4.
  - apply Str_eqb_true in E4 as ->. unfold repeatA.
    destruct (num_or (maxFieldLength field) 50 + 10 <? 0) eqn:E.
    + apply Z.ltb_lt in E. split; [by intros [= <-]|by intros (_ & _ & ->)].
    + apply Z.ltb_ge in E. split; [discriminate|]. intros (_ & H & _). lia.
  - apply Str_eqb_false in E4. split; [|by intros [? _]].
    repeat match goal with
           | |- context [if ?b then _ else _] => destruct b
           end; try discriminate.
    all: destruct (type field); discriminate.
Qed.

Lemma ThrowsOnly_ext {A : Type} e0 w (m m' : M A) :
  (∀ c, m w c = m' w c) → ThrowsOnly e0 w m' → ThrowsOnly e0 w m.
Proof. intros Heq H c e. rewrite Heq. apply H. Qed.

Lemma Total_ext {A : Type} w (m m' : M A) :
  (∀ c, m w c = m' w c) → Total w m' → Total w m.
Proof. intros Heq H c. rewrite Heq. apply H. Qed.

Lemma forEach_fillWith_ThrowsOnly g fields e0 w :
  (∀ f, f ∈ fields → name f ≠ "" → ThrowsOnly e0 w (g f)) →
  ∀ rec, ThrowsOnly e0 w (forEach (fillWith g) fields rec).
Proof.
  intros Hg. apply ThrowsOnly_forEach. intros s f Hf. unfold fillWith.
  destruct (Str.is_empty (name f)) eqn:E;
    [apply ThrowsOnly_Total, Total_ret|].
  apply Str_is_empty_false in E.
  apply ThrowsOnly_bind; [by apply Hg|].
  intros v. apply ThrowsOnly_Total, Total_ret.
Qed.

Lemma forEach_fillWith_total_named g fields w :
  (∀ f, f ∈ fields → name f ≠ "" → Total w (g f)) →
  ∀ rec, Total w (forEach (fillWith g) fields rec).
Proof.
  induction fields as [|x l IH]; intros Hg rec; simpl.
  - apply Total_ret.
  - apply Total_bind.
    + unfold fillWith. destruct (Str.is_empty (name x)) eqn:E;
        [apply Total_ret|].
      apply Str_is_empty_false in E.
      apply Total_bind; [apply Hg; [left|done]|]. intros. apply Total_ret.
    + intros rec'. apply IH. intros f Hf. apply Hg. by right.
Qed.

Lemma positiveRecords_total fields n w :
  (∀ f, f ∈ fields → emptyGrid f = false) →
  Total w (positiveRecords fields n).
Proof.
  intros Hgrid c.
  assert (Hres : ∀ f, f ∈ fields → dataType f = dt_lookup →
                      ∃ vs, getLookupValues f = Done vs).
  { intros f Hf. apply emptyGrid_false. by apply Hgrid. }
  destruct (lookupFieldsOf_total fields Hres) as (lf & Hlf).
  unfold positiveRecords. unfold bind at 1. unfold lift. rewrite Hlf.
  destruct (0 <? Z.of_nat (List.length lf)).
  - rewrite (bind_step _ _ w c (List.map resolvedLength lf) c).
    + apply collect_total. intros i c1 _.
      apply (Total_ext w _
               (pushed (forEach (fillWith (lookupModeValue i)) fields
                                (objectLiteral positiveSeed)))).
      * intros c2. apply pushed_ext, forEach_ext.
        apply fillLookupMode_fillWith.
      * apply Total_pushed, forEach_fillWith_total. intros f Hf.
        apply lookupModeValue_total. by apply Hres.
    + rewrite lookupLengths_run; [done|].
      intros f Hf. destruct (lookupFieldsOf_elem _ _ Hlf f Hf) as (Hin & Hdt & _).
      by apply Hres.
  - apply collect_total. intros i c1 _.
    apply Total_pushed.
    apply (forEach_fillWith_total generateFieldValue). intros f Hf.
    apply generateFieldValue_total. by apply Hres.
Qed.

Lemma negativeModeValue_ThrowsOnly target kind f w :
  emptyGrid f = false →
  ThrowsOnly RangeError w (negativeModeValue target kind f).
Proof.
  intros Hgrid. unfold negativeModeValue.
  destruct (Str.eqb (id f) (id target)).
  - intros c e. unfold lift.
    destruct (generateNegativeValue f kind) as [v|e1] eqn:E; [discriminate|].
    intros [= <-]. by apply generateNegativeValue_Raised in E as (_ & _ & ->).
  - apply ThrowsOnly_Total, generateFieldValue_total.
    by apply emptyGrid_false.
Qed.

Lemma negativeRecords_ThrowsOnly fields incl w :
  (∀ f, f ∈ fields → emptyGrid f = false) →
  ThrowsOnly RangeError w (negativeRecords fields incl).
Proof.
  intros Hgrid. unfold negativeRecords.
  destruct (shouldIncludeNegativeTests fields incl);
    [|apply ThrowsOnly_Total, Total_ret].
  apply ThrowsOnly_bind; [|intros; apply ThrowsOnly_Total, Total_ret].
  apply ThrowsOnly_collect. intros target _.
  apply ThrowsOnly_collect. intros kind _.
  apply (ThrowsOnly_ext _ _ _ _ (negativeRecord_fillWith fields target kind w)).
  apply ThrowsOnly_bind; [|intros; apply ThrowsOnly_Total, Total_ret].
  apply forEach_fillWith_ThrowsOnly. intros f Hf _.
  apply negativeModeValue_ThrowsOnly. by apply Hgrid.
Qed.

Lemma generateTestData_ThrowsOnly fields n incl w :
  (∀ f, f ∈ fields → emptyGrid f = false) →
  ThrowsOnly RangeError w (generateTestData fields n incl).
Proof.
  intros Hgrid. unfold generateTestData.
  apply ThrowsOnly_bind;
    [by apply ThrowsOnly_Total, positiveRecords_total|].
  intros positives. apply ThrowsOnly_bind;
    [by apply negativeRecords_ThrowsOnly|].
  intros. apply ThrowsOnly_Total, Total_ret.
Qed.

Lemma exceed_length_string target :
  "exceed_length" ∈ getNegativeTestTypes target ↔
  type target = ft_string ∧ num_truthy (maxFieldLength target) = true.
Proof.
  unfold getNegativeTestTypes. split.
  - intros Hin.
    destruct (type target), (required target);
      repeat match goal with
             | H : context [if ?b then _ else _] |- _ => destruct b
             end; simpl in Hin; try done; exfalso; str_not_in Hin.
  - intros [-> ->]. destruct (required target); simpl; str_in.
Qed.

(** X9: a run throws [TypeError] exactly when some lookup field has a
    selected column over a grid without rows; the field need not be named,
    and no record is produced. *)
Theorem generateTestData_TypeError fields n incl w c :
  generateTestData fields n incl w c = Throws TypeError ↔
  ∃ f, f ∈ fields ∧ emptyGrid f = true.
Proof.
  split.
  - intros Hrun. destruct (List.existsb emptyGrid fields) eqn:E.
    + apply existsb_exists in E as (f & Hf & Hgrid).
      exists f. split; [by apply list_elem_of_In|done].
    + exfalso.
      assert (Hgrid : ∀ f, f ∈ fields → emptyGrid f = false).
      { intros f Hf. destruct (emptyGrid f) eqn:Ef; [|done].
        assert (H : List.existsb emptyGrid fields = true); [|congruence].
        apply existsb_exists. exists f. split; [by apply list_elem_of_In|done]. }
      by pose proof (generateTestData_ThrowsOnly fields n incl w Hgrid c _ Hrun).
  - intros (f & Hf & Hgrid).
    unfold generateTestData, positiveRecords, bind, lift.
    by rewrite (lookupFieldsOf_emptyGrid fields f Hf Hgrid).
Qed.

Lemma generateTestData_TypeError_witness :
  generateTestData [Sample.username; Example.city] 3 false
                   Sample.world Sample.start = Throws TypeError.
Proof.
  apply (generateTestData_TypeError [Sample.username; Example.city]).
  exists Example.city. split; [right; left|reflexivity].
Defined.

Lemma negativeRecords_total fields incl w :
  (∀ f, f ∈ fields → emptyGrid f = false) →
  (∀ target f, target ∈ negativeTargets fields incl → f ∈ fields →
               negativeRepeat target f = false) →
  Total w (negativeRecords fields incl).
Proof.
  intros Hgrid Hrep. unfold negativeRecords.
  unfold negativeTargets in Hrep.
  destruct (shouldIncludeNegativeTests fields incl); [|apply Total_ret].
  apply Total_bind; [|intros; apply Total_ret].
  intros c. apply collect_total. intros target c1 Htarget.
  apply collect_total. intros kind c2 Hkind.
  apply (Total_ext _ _ _ (negativeRecord_fillWith fields target kind w)).
  apply Total_pushed.
  apply forEach_fillWith_total_named. intros f Hf Hname.
  unfold negativeModeValue.
  destruct (Str.eqb (id f) (id target)) eqn:Eid.
  - destruct (generateNegativeValue f kind) as [v|e] eqn:E;
      [by apply (Total_lift _ _ v)|].
    exfalso.
    apply generateNegativeValue_Raised in E as (-> & Hlen & _).
    apply exceed_length_string in Hkind as [Hty Hmfl].
    specialize (Hrep target f Htarget Hf). unfold negativeRepeat in Hrep.
    rewrite bool_decide_eq_true_2, Hmfl, Eid in Hrep by done.
    rewrite (proj2 (Str_truthy_true _) Hname) in Hrep. simpl in Hrep.
    apply Z.ltb_ge in Hrep. lia.
  - apply generateFieldValue_total. apply emptyGrid_false. by apply Hgrid.
Qed.

Lemma returned_no_negativeRepeat fields n incl w c data c' target f :
  generateTestData fields n incl w c = Returns data c' →
  target ∈ negativeTargets fields incl → f ∈ fields →
  negativeRepeat target f = false.
Proof.
  intros Hrun Htarget Hf.
  destruct (negativeRepeat target f) eqn:E; [exfalso|done].
  unfold negativeRepeat in E.
  apply andb_true_iff in E as [E Hlen].
  apply andb_true_iff in E as [E Hid].
  apply andb_true_iff in E as [E Hname].
  apply andb_true_iff in E as [Hty Hmfl].
  apply bool_decide_eq_true in Hty. apply Str_truthy_true in Hname.
  apply Z.ltb_lt in Hlen.
  destruct (generateTestData_shape _ _ _ _ _ _ _ Hrun)
    as (positives & groups & c1 & _ & _ & Hgroups).
  apply list_elem_of_lookup in Htarget as (i & Hi).
  destruct (Forall2_lookup_l _ _ _ _ _ Hgroups Hi) as (group & _ & Hgroup).
  assert (Hkind : "exceed_length" ∈ getNegativeTestTypes target)
    by by apply exceed_length_string.
  apply list_elem_of_lookup in Hkind as (j & Hj).
  destruct (Forall2_lookup_l _ _ _ _ _ Hgroup Hj) as (r & _ & (ca & cb & Hr)).
  rewrite negativeRecord_fillWith in Hr.
  apply list_elem_of_split in Hf as (pre & post & ->).
  destruct (pushed_fillWith_at _ _ _ _ _ _ _ _ _ Hr Hname)
    as (v & cc & cd & Hv & _).
  unfold negativeModeValue in Hv. rewrite Hid in Hv.
  apply lift_Returns in Hv as [Hv _].
  assert (Hraised : generateNegativeValue f "exceed_length"
                    = Raised RangeError)
    by by apply generateNegativeValue_Raised.
  congruence.
Qed.

(** X10: when no lookup field has a selected column over an empty grid, a
    run returns unless the negative value of the kind [exceed_length] has a
    negative length: that is, unless a target of type string with a length
    limit shares its identifier with a named field (itself, as a rule)
    whose length limit is below -10; the run then throws [RangeError]. *)
Theorem generateTestData_returns fields n incl w c :
  (∀ f, f ∈ fields → emptyGrid f = false) →
  ((∃ data c', generateTestData fields n incl w c = Returns data c') ↔
   ∀ target f, target ∈ negativeTargets fields incl → f ∈ fields →
               negativeRepeat target f = false) ∧
  (generateTestData fields n incl w c = Throws RangeError ↔
   ∃ target f, target ∈ negativeTargets fields incl ∧ f ∈ fields ∧
               negativeRepeat target f = true).
Proof.
  intros Hgrid.
  assert (Hret : (∀ target f, target ∈ negativeTargets fields incl →
                    f ∈ fields → negativeRepeat target f = false) →
                 ∃ data c', generateTestData fields n incl w c
                            = Returns data c').
  { intros Hrep. unfold generateTestData.
    apply Total_bind; [by apply positiveRecords_total|].
    intros positives. apply Total_bind; [by apply negativeRecords_total|].
    intros. apply Total_ret. }
  split; [split; [|done]|split].
  - intros (data & c' & Hrun) target f.
    by apply (returned_no_negativeRepeat _ _ _ _ _ _ _ _ _ Hrun).
  - intros Hrun. destruct (anyNegativeRepeat fields incl) eqn:E.
    + unfold anyNegativeRepeat in E.
      apply existsb_exists in E as (target & Htarget & E).
      apply existsb_exists in E as (f & Hf & E).
      exists target, f. by rewrite !list_elem_of_In.
    + exfalso. destruct Hret as (data & c' & Hdata); [|congruence].
      intros target f Htarget Hf.
      destruct (negativeRepeat target f) eqn:Ef; [|done].
      assert (H : anyNegativeRepeat fields incl = true); [|congruence].
      unfold anyNegativeRepeat. apply existsb_exists.
      exists target. split; [by apply list_elem_of_In|].
      apply existsb_exists. exists f. split; [by apply list_elem_of_In|done].
  - intros (target & f & Htarget & Hf & Hrep).
    destruct (generateTestData fields n incl w c) as [data c'|e] eqn:Hrun.
    + pose proof (returned_no_negativeRepeat _ _ _ _ _ _ _ _ _
                    Hrun Htarget Hf). congruence.
    + f_equal.
      by apply (generateTestData_ThrowsOnly fields n incl w Hgrid c).
Qed.

Lemma generateTestData_returns_witness :
  generateTestData [Sample.username; Example.note] 3 false
                   Sample.world Sample.start = Throws RangeError.
Proof.
  apply (generateTestData_returns [Sample.username; Example.note]).
  - intros f Hf.
    repeat (apply elem_of_cons in Hf as [->|Hf]; [reflexivity|]).
    by apply elem_of_nil in Hf.
  - exists Example.note, Example.note.
    split; [|split; [right; left|reflexivity]].
    vm_compute. right. left.
Defined.

(** ** Keys and number of the records *)

Lemma FilledFrom_key fields w seed r k :
  FilledFrom fields w seed r → k ≠ "__proto__" →
  is_Some (r !! k) ↔ is_Some (seed !! k) ∨ k ∈ fieldNames fields.
Proof.
  intros (g & c1 & c2 & Hrun) Hproto.
  destruct (pushed_fillWith_lookup g fields w _ _ _ _ Hrun k)
    as [[Hk Hnot]|(pre & f & post & v & ca & cb & -> & Hname & Hne & _ & _ & Hv)].
  - rewrite Hk. split; [by left|]. by intros [H|H].
  - rewrite (Hv Hproto). split; [|by eexists]. intros _. right.
    apply elem_of_fieldNames. exists f. split; [|done].
    apply elem_of_app. right. left.
Qed.

Lemma positiveSeed_key k : is_Some (positiveSeed !! k) ↔ k = "_testType".
Proof.
  unfold positiveSeed. split.
  - intros H. destruct (decide (k = "_testType")) as [|Hne]; [done|].
    rewrite lookup_singleton_ne in H by done. by destruct H.
  - intros ->. rewrite lookup_singleton_eq. by eexists.
Qed.

Lemma negativeSeed_key target kind k :
  is_Some (negativeSeed target kind !! k) ↔ k ∈ metadataKeys.
Proof.
  split; [apply negativeSeed_keys|].
  unfold metadataKeys. intros H.
  repeat (apply elem_of_cons in H as [->|H]).
  - rewrite negativeSeed_testType. by eexists.
  - rewrite negativeSeed_targetField. by eexists.
  - rewrite negativeSeed_autoSelected. by eexists.
  - by apply elem_of_nil in H.
Qed.

Lemma negative_groups_filled fields w targets groups :
  Forall2 (fun target group =>
             Forall2 (NegativeOf fields w target)
                     (getNegativeTestTypes target) group) targets groups →
  Forall (fun r => ∃ target kind,
            target ∈ targets ∧ kind ∈ getNegativeTestTypes target ∧
            FilledFrom fields w (negativeSeed target kind) r)
         (concat groups).
Proof.
  induction 1 as [|target group targets groups Hgroup _ IH]; simpl;
    [apply Forall_nil_2|].
  apply Forall_app. split.
  - apply Forall_forall. intros r Hr.
    apply list_elem_of_lookup in Hr as (j & Hj).
    destruct (Forall2_lookup_r _ _ _ _ _ Hgroup Hj) as (kind & Hkind & Hneg).
    exists target, kind. split; [left|]. split.
    + by apply list_elem_of_lookup_2 in Hkind.
    + by apply NegativeOf_FilledFrom.
  - eapply Forall_impl; [exact IH|].
    intros r (t & kind & Ht & Hk & Hf). exists t, kind.
    split; [by right|done].
Qed.

(** No synthesis yields [null]. *)
Lemma generateRandomString_not_null length ty w c v c' :
  generateRandomString length ty w c = Returns v c' → v ≠ VNull.
Proof.
  unfold generateRandomString. intros H.
  apply bind_Returns in H as (s & c1 & _ & H).
  destruct ty;
    repeat (apply bind_Returns in H as (? & ? & _ & H));
    by injection H as <- _.
Qed.

Lemma synthesize_not_null field w c v c' :
  synthesize field w c = Returns (Some v) c' → v ≠ VNull.
Proof.
  unfold synthesize. intros H. destruct (dataType field).
  - by injection H as <- _.
  - apply bind_Returns in H as (? & ? & _ & H). by injection H as <- _.
  - apply bind_Returns in H as (values & ? & _ & H).
    destruct (bool_decide (values = [])); [discriminate|].
    apply bind_Returns in H as (? & ? & _ & H). by injection H as <- _.
  - apply bind_Returns in H as (? & ? & _ & H).
    apply bind_Returns in H as (v0 & ? & Hv0 & H).
    injection H as <- _. by apply generateRandomString_not_null in Hv0.
  - apply bind_Returns in H as (? & ? & _ & H). by injection H as <- _.
Qed.

Lemma generateFieldValue_not_null field w c v c' :
  generateFieldValue field w c = Returns v c' → v ≠ VNull.
Proof.
  unfold generateFieldValue. intros H.
  destruct (Str.is_empty (name field)); [by injection H as <- _|].
  apply bind_Returns in H as ([v0|] & c1 & Hsyn & H);
    [|by injection H as <- _].
  injection H as <- _. apply synthesize_not_null in Hsyn.
  unfold applyMaxFieldLength. destruct v0; try done.
  by destruct (num_truthy (maxFieldLength field)).
Qed.

Lemma lookupModeValue_not_null i field w c v c' :
  lookupModeValue i field w c = Returns v c' → v ≠ VNull.
Proof.
  unfold lookupModeValue.
  destruct (bool_decide (dataType field = dt_lookup));
    [|apply generateFieldValue_not_null].
  intros H. apply bind_Returns in H as (? & ? & _ & H).
  by injection H as <- _.
Qed.

(** Only the kind [null] has the value [null]. *)
Lemma generateNegativeValue_null field kind :
  generateNegativeValue field kind = Done VNull → kind = "null".
Proof.
  unfold generateNegativeValue, repeatA.
  destruct (Str.eqb kind "empty"); [discriminate|].
  destruct (Str.eqb kind "null") eqn:E; [by apply Str_eqb_true in E|].
  repeat match goal with
         | |- context [if ?b then _ else _] => destruct b
         end; try discriminate.
  all: destruct (type field); discriminate.
Qed.

Lemma negativeModeValue_not_null target kind field w c v c' :
  kind ≠ "null" →
  negativeModeValue target kind field w c = Returns v c' → v ≠ VNull.
Proof.
  intros Hkind. unfold negativeModeValue.
  destruct (Str.eqb (id field) (id target));
    [|apply generateFieldValue_not_null].
  intros [Hv _]%lift_Returns ->.
  by apply generateNegativeValue_null in Hv.
Qed.

(** A record that is filled with values other than [null] keeps its
    prototype, and [__proto__] does not become a key of it. *)
Lemma forEach_fillWith_hasPrototype g fields w :
  (∀ f c1 v c2, g f w c1 = Returns v c2 → v ≠ VNull) →
  ∀ rec c r c',
    forEach (fillWith g) fields rec w c = Returns r c' →
    hasPrototype rec = true → properties rec !! "__proto__" = None →
    hasPrototype r = true ∧ properties r !! "__proto__" = None.
Proof.
  intros Hg. induction fields as [|x l IH]; intros rec c r c' Hrun Hp Hown.
  - simpl in Hrun. by injection Hrun as <- _.
  - simpl in Hrun. apply bind_Returns in Hrun as (rec' & c1 & Hx & Hl).
    unfold fillWith in Hx.
    destruct (Str.is_empty (name x)).
    + injection Hx as <- <-. by apply (IH _ _ _ _ Hl).
    + apply bind_Returns in Hx as (v & c0 & Hv & Hret).
      injection Hret as <- <-.
      destruct (setProperty_hasPrototype (name x) v rec Hp Hown
                  (Hg _ _ _ _ Hv)) as [Hp' Hown'].
      by apply (IH _ _ _ _ Hl).
Qed.

Lemma pushed_fillWith_no_proto g fields w seed c r c' :
  (∀ f c1 v c2, g f w c1 = Returns v c2 → v ≠ VNull) →
  seed !! "__proto__" = None →
  pushed (forEach (fillWith g) fields (objectLiteral seed)) w c
  = Returns r c' →
  r !! "__proto__" = None.
Proof.
  intros Hg Hseed (record & Hrun & <-)%pushed_Returns.
  by apply (forEach_fillWith_hasPrototype g fields w Hg _ _ _ _ Hrun).
Qed.

Lemma positiveSeed_no_proto : positiveSeed !! "__proto__" = None.
Proof. unfold positiveSeed. by apply lookup_singleton_ne. Qed.

Lemma negativeSeed_no_proto target kind :
  negativeSeed target kind !! "__proto__" = None.
Proof.
  unfold negativeSeed. rewrite !lookup_insert_ne by done.
  apply lookup_empty.
Qed.

Lemma positiveRecords_no_proto fields n w c recs c' :
  positiveRecords fields n w c = Returns recs c' →
  Forall (fun r : GeneratedRecord => r !! "__proto__" = None) recs.
Proof.
  unfold positiveRecords. intros H.
  apply bind_Returns in H as (lf & c1 & _ & H).
  destruct (0 <? Z.of_nat (List.length lf)).
  - apply bind_Returns in H as (lens & c2 & _ & H).
    apply collect_Forall2 in H.
    apply (Forall2_Forall_right _ _ _ _ H).
    intros i r (ca & cb & Hr). apply positive_FilledFrom_lookup in Hr.
    apply (pushed_fillWith_no_proto _ _ _ _ _ _ _
             (fun f => lookupModeValue_not_null i f w)
             positiveSeed_no_proto Hr).
  - apply collect_Forall2 in H.
    apply (Forall2_Forall_right _ _ _ _ H).
    intros i r (ca & cb & Hr).
    apply (pushed_fillWith_no_proto generateFieldValue fields w
             positiveSeed ca r cb
             (fun f => generateFieldValue_not_null f w)
             positiveSeed_no_proto).
    rewrite <- Hr. apply pushed_ext, forEach_ext.
    intros. symmetry. apply fillStandard_fillWith.
Qed.

(** The kind null is apart: once [null] was assigned under the name
    [__proto__], the record has no prototype any more, and a later
    assignment under that name creates a key. *)
Lemma negativeRecord_proto_after_null :
  (λ r : GeneratedRecord, (r !! "__proto__", r !! "_testType"))
    <$> returned (negativeRecord [Example.protoRequired; Example.proto]
                    Example.protoRequired "null" Sample.world Sample.start)
  = Some (Some (VStr "x"), Some (VStr "negative_null")) ∧
  (λ r : GeneratedRecord, (r !! "__proto__", r !! "_testType"))
    <$> returned (negativeRecord [Example.protoRequired; Example.proto]
                    Example.protoRequired "empty" Sample.world Sample.start)
  = Some (None, Some (VStr "negative_empty")).
Proof. split; vm_compute; reflexivity. Qed.

(** X11: every positive record has the key [_testType] and the names of the
    named fields, every negative record the three metadata keys and these
    names, and no other key; the name [__proto__] is apart, under which an
    object literal takes no own property: it is a key of no positive record
    and of no negative record of a kind other than null.  So no record
    lacks a configured field, unless the field is named [__proto__]. *)
Theorem record_keys fields n incl w c data c' :
  generateTestData fields n incl w c = Returns data c' →
  ∃ positives groups,
    data = positives ++ concat groups ∧
    (∃ c1, positiveRecords fields n w c = Returns positives c1) ∧
    Forall (fun r : GeneratedRecord =>
              (∀ k, k ≠ "__proto__" →
                    (is_Some (r !! k) ↔
                     k = "_testType" ∨ k ∈ fieldNames fields)) ∧
              r !! "__proto__" = None) positives ∧
    Forall2 (fun target group =>
      Forall2 (fun kind (r : GeneratedRecord) =>
                 (∀ k, k ≠ "__proto__" →
                       (is_Some (r !! k) ↔
                        k ∈ metadataKeys ∨ k ∈ fieldNames fields)) ∧
                 (kind ≠ "null" → r !! "__proto__" = None))
              (getNegativeTestTypes target) group)
      (negativeTargets fields incl) groups.
Proof.
  intros Hrun.
  destruct (generateTestData_shape _ _ _ _ _ _ _ Hrun)
    as (positives & groups & c1 & Hpos & -> & Hgroups).
  exists positives, groups.
  split; [done|]. split; [by exists c1|]. split.
  - apply Forall_forall. intros r Hr. split.
    + intros k Hk.
      pose proof (positiveRecords_filled _ _ _ _ _ _ Hpos) as Hfilled.
      rewrite Forall_forall in Hfilled.
      rewrite (FilledFrom_key _ _ _ _ k (Hfilled r Hr) Hk).
      by rewrite positiveSeed_key.
    + pose proof (positiveRecords_no_proto _ _ _ _ _ _ Hpos) as Hno.
      rewrite Forall_forall in Hno. by apply Hno.
  - apply (Forall2_impl _ _ _ _ Hgroups). intros target group Hgroup.
    apply (Forall2_impl _ _ _ _ Hgroup). intros kind r Hneg. split.
    + intros k Hk.
      rewrite (FilledFrom_key _ _ _ _ k (NegativeOf_FilledFrom _ _ _ _ _ Hneg)
                 Hk).
      by rewrite negativeSeed_key.
    + intros Hkind. destruct Hneg as (ca & cb & Hneg).
      rewrite negativeRecord_fillWith in Hneg.
      apply (pushed_fillWith_no_proto _ _ _ _ _ _ _
               (fun f c1 v c2 =>
                  negativeModeValue_not_null target kind f w c1 v c2 Hkind)
               (negativeSeed_no_proto target kind) Hneg).
Qed.

Lemma record_keys_witness :
  ∃ data c' positives groups,
    generateTestData [Sample.unnamed; Sample.username; Example.proto] 2 false
                     Sample.world Sample.start = Returns data c' ∧
    List.length data = 7%nat ∧
    data = positives ++ concat groups ∧
    Forall (fun r : GeneratedRecord =>
              (∀ k, k ≠ "__proto__" →
                    (is_Some (r !! k) ↔
                     k = "_testType" ∨ k ∈ ["username"; "__proto__"])) ∧
              r !! "__proto__" = None) positives.
Proof.
  destruct (returned_length
              (generateTestData [Sample.unnamed; Sample.username; Example.proto]
                                2 false Sample.world Sample.start) 7%nat)
    as (data & c' & Hrun & Hlen); [vm_compute; reflexivity|].
  destruct (record_keys _ _ _ _ _ _ _ Hrun)
    as (positives & groups & Hdata & _ & Hpos & _).
  exists data, c', positives, groups.
  split; [exact Hrun|]. split; [exact Hlen|]. split; [exact Hdata|].
  exact Hpos.
Defined.

Lemma getNegativeTestTypes_length field :
  (List.length (getNegativeTestTypes field) <= 8)%nat ∧
  (required field = true ∨ type field ≠ ft_other →
   (2 <= List.length (getNegativeTestTypes field))%nat) ∧
  (required field = false → type field = ft_other →
   getNegativeTestTypes field = []).
Proof.
  unfold getNegativeTestTypes.
  destruct (type field), (required field);
    repeat match goal with
           | |- context [if ?b then _ else _] => destruct b
           end; simpl;
    (split; [lia|split; [intros [?|?]; first [lia | done]|done]]).
Qed.

(** X12: a run that returns has, after its positive records, one group of
    negative records per target field, in the order of the targets, each
    group with one record for every applicable kind of its target: at most
    8, and at least 2 when the target is required or has one of the six
    declared types.  A target that is not required and has a type outside
    the union, as a schema import can make it, gets no negative record.
    Without a lookup field that resolves to at least one value the positive
    records are as many as requested. *)
Theorem record_count fields n incl w c data c' :
  generateTestData fields n incl w c = Returns data c' →
  ∃ positives groups,
    data = positives ++ concat groups ∧
    (∃ c1, positiveRecords fields n w c = Returns positives c1) ∧
    (lookupFieldsOf fields = Done [] →
     List.length positives = Z.to_nat n) ∧
    Forall2 (fun target (group : list GeneratedRecord) =>
               List.length group
               = List.length (getNegativeTestTypes target) ∧
               (List.length group <= 8)%nat ∧
               (required target = true ∨ type target ≠ ft_other →
                (2 <= List.length group)%nat) ∧
               (required target = false → type target = ft_other →
                group = []))
            (negativeTargets fields incl) groups.
Proof.
  intros Hrun.
  destruct (generateTestData_shape _ _ _ _ _ _ _ Hrun)
    as (positives & groups & c1 & Hpos & -> & Hgroups).
  exists positives, groups.
  split; [done|]. split; [by exists c1|]. split.
  - intros Hlf. revert Hpos. unfold positiveRecords.
    unfold bind at 1. unfold lift. rewrite Hlf. simpl. intros Hpos.
    pose proof (collect_Forall2 _ _ _ _ _ _ Hpos) as H.
    apply Forall2_length in H. by rewrite length_seq in H.
  - apply (Forall2_impl _ _ _ _ Hgroups). intros target group Hgroup.
    apply Forall2_length in Hgroup.
    destruct (getNegativeTestTypes_length target) as (Hmax & Hmin & Hnone).
    split; [done|]. rewrite <- Hgroup.
    split; [done|]. split; [done|].
    intros Hreq Hty. rewrite (Hnone Hreq Hty) in Hgroup.
    by destruct group.
Qed.

Lemma record_count_witness :
  ∃ data c' positives group1 group2,
    negativeTargets [Sample.username; Example.tags] false
    = [Sample.username; Example.tags] ∧
    generateTestData [Sample.username; Example.tags] 3 false
                     Sample.world Sample.start
    = Returns data c' ∧
    data = positives ++ concat [group1; group2] ∧
    List.length positives = 3%nat ∧
    List.length group1 = 5%nat ∧ group2 = [].
Proof.
  destruct (returned_length
              (generateTestData [Sample.username; Example.tags] 3 false
                                Sample.world Sample.start) 8%nat)
    as (data & c' & Hrun & _); [vm_compute; reflexivity|].
  destruct (record_count _ _ _ _ _ _ _ Hrun)
    as (positives & groups & Hdata & _ & Hpos & Hgroups).
  change (negativeTargets [Sample.username; Example.tags] false)
    with [Sample.username; Example.tags] in Hgroups.
  apply Forall2_cons_inv_l in Hgroups
    as (group1 & rest & (H1 & _) & Hgroups & ->).
  apply Forall2_cons_inv_l in Hgroups
    as (group2 & rest2 & (_ & _ & _ & H2) & Hgroups & ->).
  apply Forall2_nil_inv_l in Hgroups as ->.
  exists data, c', positives, group1, group2.
  split; [reflexivity|]. split; [exact Hrun|]. split; [exact Hdata|].
  split; [apply Hpos; reflexivity|]. split; [exact H1|].
  apply H2; reflexivity.
Defined.

(** X13: with the option for negative tests off, the negative phase takes
    place only if some field is automatically eligible; if none is, the run
    is its positive phase alone, also when fields have opted in. *)
Theorem negative_phase_needs_trigger fields n w c :
  List.existsb shouldAutoEnableNegativeTests fields = false →
  negativeTargets fields false = [] ∧
  generateTestData fields n false w c = positiveRecords fields n w c.
Proof.
  intros Hauto.
  assert (Hinc : shouldIncludeNegativeTests fields false = false)
    by (unfold shouldIncludeNegativeTests; by rewrite Hauto).
  split; [unfold negativeTargets; by rewrite Hinc|].
  unfold generateTestData, negativeRecords, bind, ret. rewrite Hinc.
  destruct (positiveRecords fields n w c) as [positives c1|e]; [|done].
  by rewrite app_nil_r.
Qed.

Lemma negative_phase_needs_trigger_witness :
  flag_truthy (generateNegativeTests Example.nickname) = true ∧
  negativeTargets [Example.nickname] false = [] ∧
  negativeTargets [Example.nickname] true = [Example.nickname] ∧
  generateTestData [Example.nickname] 2 false Sample.world Sample.start
  = positiveRecords [Example.nickname] 2 Sample.world Sample.start.
Proof.
  destruct (negative_phase_needs_trigger [Example.nickname] 2
              Sample.world Sample.start) as [H1 H2]; [reflexivity|].
  split; [reflexivity|]. split; [exact H1|]. split; [reflexivity|exact H2].
Defined.

(** ** The summary of an export *)

Lemma countNegative_app l1 l2 k1 k2 :
  countNegative l1 = Done k1 → countNegative l2 = Done k2 →
  countNegative (l1 ++ l2) = Done (k1 + k2).
Proof.
  revert k1. induction l1 as [|r l1 IH]; intros k1; simpl.
  - intros [= <-]. by intros ->.
  - destruct (isNegativeRecord r) as [b|]; [|discriminate].
    destruct (countNegative l1) as [k|] eqn:E; [|discriminate].
    intros [= <-] H2. rewrite (IH k eq_refl H2).
    f_equal. destruct b; lia.
Qed.

Lemma countNegative_none l :
  Forall (fun r : GeneratedRecord =>
            r !! "_testType" = Some (VStr "positive")) l →
  countNegative l = Done 0 ∧ List.filter isPositiveRecord l = l.
Proof.
  induction 1 as [|r l Hr _ [IH1 IH2]]; [done|]. simpl.
  assert (Hpos : isPositiveRecord r = true)
    by (unfold isPositiveRecord; by rewrite bool_decide_eq_true_2).
  unfold isNegativeRecord. by rewrite Hr, IH1, Hpos, IH2.
Qed.

Lemma prefix_negative kind : String.prefix "negative" ("negative_" +:+ kind) = true.
Proof. reflexivity. Qed.

Lemma countNegative_all l :
  Forall (fun r : GeneratedRecord =>
            ∃ kind, r !! "_testType" = Some (VStr ("negative_" +:+ kind))) l →
  countNegative l = Done (Z.of_nat (List.length l)) ∧
  List.filter isPositiveRecord l = [].
Proof.
  induction 1 as [|r l (kind & Hr) _ [IH1 IH2]]; [done|]. simpl.
  assert (Hpos : isPositiveRecord r = false).
  { unfold isPositiveRecord. rewrite Hr.
    by rewrite bool_decide_eq_false_2 by discriminate. }
  unfold isNegativeRecord. rewrite Hr, IH1, prefix_negative, Hpos.
  split; [f_equal; lia|done].
Qed.

(** X14: for the records of a run over fields none of which is named
    [_testType], the summary of an export counts the positive batch as
    [positiveTests] and the negative records as [negativeTests]; the two add
    up to [totalRecords], and the listed fields are the named ones. *)
Theorem generationInfo_counts fields n incl w c data c' :
  generateTestData fields n incl w c = Returns data c' →
  ("_testType" ∉ fieldNames fields) →
  ∃ positives negatives info,
    data = positives ++ negatives ∧
    (∃ c1, positiveRecords fields n w c = Returns positives c1) ∧
    generationInfo fields data = Done info ∧
    totalRecords info = Z.of_nat (List.length data) ∧
    positiveTests info = Z.of_nat (List.length positives) ∧
    negativeTests info = Z.of_nat (List.length negatives) ∧
    positiveTests info + negativeTests info = totalRecords info ∧
    List.map fst (infoFields info) = fieldNames fields.
Proof.
  intros Hrun Hname.
  destruct (generateTestData_shape _ _ _ _ _ _ _ Hrun)
    as (positives & groups & c1 & Hpos & -> & Hgroups).
  assert (Hp : Forall (fun r : GeneratedRecord =>
                         r !! "_testType" = Some (VStr "positive")) positives).
  { eapply Forall_impl; [exact (positiveRecords_filled _ _ _ _ _ _ Hpos)|].
    intros r Hr. by rewrite (FilledFrom_metadata _ _ _ _ _ Hr Hname). }
  assert (Hn : Forall (fun r : GeneratedRecord =>
                         ∃ kind, r !! "_testType"
                                 = Some (VStr ("negative_" +:+ kind)))
                      (concat groups)).
  { eapply Forall_impl; [exact (negative_groups_filled _ _ _ _ Hgroups)|].
    intros r (target & kind & _ & _ & Hr). exists kind.
    by rewrite (FilledFrom_metadata _ _ _ _ _ Hr Hname),
      negativeSeed_testType. }
  destruct (countNegative_none _ Hp) as [Hp1 Hp2].
  destruct (countNegative_all _ Hn) as [Hn1 Hn2].
  pose proof (countNegative_app _ _ _ _ Hp1 Hn1) as Hcount.
  exists positives, (concat groups). unfold generationInfo.
  rewrite Hcount. eexists. split; [done|]. split; [by exists c1|].
  split; [reflexivity|]. simpl.
  rewrite List.filter_app, Hp2, Hn2, app_nil_r, length_app.
  split; [done|]. split; [done|]. split; [done|]. split; [lia|].
  unfold fieldNames. by rewrite List.map_map.
Qed.

Lemma generationInfo_counts_witness :
  ∃ data c' info,
    generateTestData [Sample.unnamed; Sample.username; Sample.code] 2 false
                     Sample.world Sample.start = Returns data c' ∧
    generationInfo [Sample.unnamed; Sample.username; Sample.code] data
      = Done info ∧
    totalRecords info = 11 ∧ positiveTests info = 2 ∧ negativeTests info = 9.
Proof.
  destruct (returned_length
              (generateTestData [Sample.unnamed; Sample.username; Sample.code]
                                2 false Sample.world Sample.start) 11%nat)
    as (data & c' & Hrun & Hlen); [vm_compute; reflexivity|].
  destruct (generationInfo_counts _ _ _ _ _ _ _ Hrun)
    as (positives & negatives & info & Hdata & (c1 & Hpos) & Hinfo & Htotal
        & Hp & Hn & Hsum & _).
  { intros H. str_not_in H. }
  exists data, c', info. split; [exact Hrun|]. split; [exact Hinfo|].
  assert (Hlenp : List.length positives = 2%nat).
  { destruct (returned_length
                (positiveRecords [Sample.unnamed; Sample.username; Sample.code]
                                 2 Sample.world Sample.start) 2%nat)
      as (p & c2 & Hp' & Hlp); [vm_compute; reflexivity|].
    rewrite Hpos in Hp'. by injection Hp' as -> _. }
  rewrite Hlen in Htotal. rewrite Hlenp in Hp.
  split; [exact Htotal|]. split; [exact Hp|]. lia.
Defined.

(** ** Lookup values and the length limit *)

Lemma Str_take_take n s : Str.take n (Str.take n s) = Str.take n s.
Proof.
  revert s. induction n as [|n IH]; intros [|c s]; simpl; try done.
  by rewrite IH.
Qed.

(** X15: applying the length limit twice is the same as applying it once;
    it never lengthens a text and leaves every value that is not a text
    unchanged.  A limit of 0 counts as no limit, and a negative limit
    empties every text. *)
Theorem applyMaxFieldLength_idempotent field v :
  applyMaxFieldLength field (applyMaxFieldLength field v)
  = applyMaxFieldLength field v ∧
  (∀ len, textLength v = Some len →
     ∃ len', textLength (applyMaxFieldLength field v) = Some len' ∧
             len' <= len) ∧
  (textLength v = None → applyMaxFieldLength field v = v) ∧
  (maxFieldLength field = Some 0 → applyMaxFieldLength field v = v) ∧
  (∀ m s, maxFieldLength field = Some m → m < 0 → v = VStr s →
          applyMaxFieldLength field v = VStr "").
Proof.
  split; [|split; [|split; [|split]]].
  - unfold applyMaxFieldLength. destruct v as [| | | |s]; try done.
    destruct (num_truthy (maxFieldLength field)); [|done].
    unfold Str.substring0. by rewrite Str_take_take.
  - unfold applyMaxFieldLength. destruct v as [| | | |s]; try done.
    intros len [= <-].
    destruct (num_truthy (maxFieldLength field)).
    + eexists. split; [reflexivity|].
      unfold Str.length, Str.substring0. rewrite Str_length_take. lia.
    + eexists. split; [reflexivity|lia].
  - by destruct v.
  - intros Hm. unfold applyMaxFieldLength. rewrite Hm. by destruct v.
  - intros m s Hm Hneg ->. unfold applyMaxFieldLength. rewrite Hm. simpl.
    rewrite (proj2 (Z.eqb_neq m 0)) by lia. simpl.
    unfold Str.substring0. simpl.
    assert (Hz : Z.to_nat m = 0%nat) by lia. rewrite Hz. by destruct s.
Qed.

Lemma nonblank_trim v : nonblank v = true ↔ Str.trim v ≠ "".
Proof.
  unfold nonblank, Str.length. destruct (Str.trim v) as [|ch t]; simpl.
  - split; [discriminate|done].
  - split; [done|]. intros _. apply Z.ltb_lt. lia.
Qed.

Lemma indexOf_Some col header i :
  indexOf col header = Some i →
  header !! i = Some col ∧ ∀ j, (j < i)%nat → header !! j ≠ Some col.
Proof.
  revert i. induction header as [|h rest IH]; intros i; simpl; [discriminate|].
  destruct (Str.eqb h col) eqn:E.
  - apply Str_eqb_true in E as ->. intros [= <-]. split; [done|]. lia.
  - apply Str_eqb_false in E.
    destruct (indexOf col rest) as [k|]; [|discriminate].
    intros [= <-]. destruct (IH k eq_refl) as [Hk Hlt]. split; [done|].
    intros [|j] Hj; simpl; [congruence|]. apply Hlt. lia.
Qed.

Lemma indexOf_elem col header :
  col ∈ header → ∃ i, indexOf col header = Some i.
Proof.
  induction header as [|h rest IH]; [by intros H%elem_of_nil|].
  intros H. simpl. destruct (Str.eqb h col) eqn:E; [by eexists|].
  apply Str_eqb_false in E.
  apply elem_of_cons in H as [->|H]; [done|].
  destruct (IH H) as (i & ->). by eexists.
Qed.

(** X16: when the selected column is a cell of the header row, resolution
    reads that column (the first one of that name) from the rows below the
    header, a row too short counting as an empty cell, and keeps the cells
    that are not blank; the manual values are not read.  In every case the
    resolved values are not blank. *)
Theorem getLookupValues_column field header rows col :
  csvData (config field) = Some (header :: rows) →
  csvColumn (config field) = Some col →
  col ≠ "" →
  col ∈ header →
  (∃ i, header !! i = Some col ∧
        (∀ j, (j < i)%nat → header !! j ≠ Some col) ∧
        getLookupValues field
        = Done (List.filter nonblank
                  (List.map (fun row => default "" (row !! i)) rows))) ∧
  ∀ f vs, getLookupValues f = Done vs → Forall (fun v => Str.trim v ≠ "") vs.
Proof.
  intros Hdata Hcol Hne Hin. split.
  - destruct (indexOf_elem _ _ Hin) as (i & Hi).
    destruct (indexOf_Some _ _ _ Hi) as [Hhead Hfirst].
    exists i. split; [done|]. split; [done|].
    unfold getLookupValues. rewrite Hdata, Hcol.
    rewrite (proj2 (Str_truthy_true col) Hne), Hi. simpl.
    f_equal. f_equal. apply map_ext. intros row.
    by rewrite nth_lookup.
  - intros f vs. unfold getLookupValues, manualLookupValues.
    assert (Hfilter : ∀ l, Forall (fun v => Str.trim v ≠ "")
                             (List.filter nonblank l)).
    { intros l. apply Forall_forall. intros v Hv.
      apply list_elem_of_In, filter_In in Hv as [_ Hv].
      by apply nonblank_trim. }
    destruct (csvData (config f)) as [[|h r]|];
      destruct (csvColumn (config f)) as [cl|];
      try destruct (Str.truthy cl); try destruct (indexOf cl h);
      intros [= <-]; apply Hfilter.
Qed.

Lemma getLookupValues_column_witness :
  ∃ i, ["id"; "city"; "city"] !! i = Some "city" ∧
       getLookupValues Example.town = Done ["Oslo"; "Rome"].
Proof.
  destruct (getLookupValues_column Example.town
              ["id"; "city"; "city"]
              [["1"; "Oslo"; "x"]; ["2"]; ["3"; "  "; "y"]; ["4"; "Rome"]]
              "city") as [(i & Hi & Hfirst & Hres) _];
    [reflexivity | reflexivity | discriminate | right; left |].
  exists i. split; [exact Hi|]. rewrite Hres. clear Hres.
  destruct i as [|[|[|i]]];
    [discriminate Hi | reflexivity | | discriminate Hi].
  exfalso. apply (Hfirst 1%nat); [lia|reflexivity].
Defined.

(** X17: for a named lookup field that resolves to at least one value, the
    synthesized value is one of the resolved values, cut to the length
    limit of the field. *)
Theorem generateFieldValue_lookup_member field vs w c :
  dataType field = dt_lookup →
  name field ≠ "" →
  getLookupValues field = Done vs →
  vs ≠ [] →
  ∃ v c', v ∈ vs ∧
    generateFieldValue field w c
    = Returns (applyMaxFieldLength field (VStr v)) c'.
Proof.
  intros Hdt Hname Hvs Hne. unfold generateFieldValue.
  rewrite (proj2 (Str_is_empty_false _) Hname).
  unfold synthesize. rewrite Hdt. unfold bind at 1 2. unfold lift.
  rewrite Hvs. rewrite bool_decide_eq_false_2 by done.
  unfold bind. rewrite floorRandom_run.
  set (i := random w (draws c) mod two53 * Z.of_nat (List.length vs) / two53).
  assert (Hi : 0 <= i < Z.of_nat (List.length vs)).
  { apply (floorRandom_range _ w c i (mkCursor (S (draws c)) (ticks c))).
    - destruct vs; [done|]. simpl. lia.
    - apply floorRandom_run. }
  unfold ret. eexists _, _. split; [|reflexivity].
  apply list_elem_of_In, nth_In. lia.
Qed.

Lemma generateFieldValue_lookup_member_witness :
  ∃ v c', v ∈ ["red"; "green"; "blue"] ∧
    generateFieldValue Sample.colour Sample.world Sample.start
    = Returns (VStr v) c'.
Proof.
  destruct (generateFieldValue_lookup_member Sample.colour
              ["red"; "green"; "blue"] Sample.world Sample.start)
    as (v & c' & Hv & Hrun); [reflexivity|discriminate|reflexivity|discriminate|].
  exists v, c'. split; [exact Hv|exact Hrun].
Defined.

(** ** Expansion of patterns *)

Lemma String_prefix_app p r : String.prefix p (p +:+ r) = true.
Proof.
  induction p as [|c p IH]; [change ("" +:+ r) with r; by destruct r|].
  change (String c p +:+ r) with (String c (p +:+ r)). simpl.
  destruct (ascii_dec c c) as [_|Hne]; [exact IH|by destruct Hne].
Qed.

Lemma replaceAll_skip pat gen q r w c :
  replaceAll pat gen (String.length q) (q +:+ r) w c
  = replaceAll pat gen 0 r w c.
Proof.
  induction q as [|d q IH]; [reflexivity|].
  change (String d q +:+ r) with (String d (q +:+ r)). exact IH.
Qed.

Lemma replaceAll_match p0 q gen r w c :
  replaceAll (String p0 q) gen 0 (String p0 q +:+ r) w c
  = (do out <- gen;
     do rest <- replaceAll (String p0 q) gen 0 r;
     ret (out +:+ rest)) w c.
Proof.
  change (String p0 q +:+ r) with (String p0 (q +:+ r)).
  unfold replaceAll at 1. fold replaceAll.
  change (String p0 (q +:+ r)) with (String p0 q +:+ r).
  rewrite String_prefix_app.
  change (Str.truthy (String p0 q) && true) with true. cbv iota.
  unfold bind. destruct (gen w c) as [out c1|e]; [|done].
  change (String.length (String p0 q) - 1)%nat with (String.length q - 0)%nat.
  by rewrite Nat.sub_0_r, replaceAll_skip.
Qed.

Lemma replaceAll_char pat gen ch s w c :
  String.prefix pat (String ch s) = false →
  replaceAll pat gen 0 (String ch s) w c
  = (do rest <- replaceAll pat gen 0 s; ret (String ch rest)) w c.
Proof.
  intros H. unfold replaceAll at 1. fold replaceAll.
  by rewrite H, andb_false_r.
Qed.

Lemma String_append_cons c s r : String c s +:+ r = String c (s +:+ r).
Proof. reflexivity. Qed.

Lemma String_append_nil r : "" +:+ r = r.
Proof. reflexivity. Qed.

Lemma prefix_head a p b s :
  a ≠ b → String.prefix (String a p) (String b s) = false.
Proof. intros Hne. simpl. by destruct (ascii_dec a b). Qed.

Lemma prefix_plain X ch s :
  isPlaceholder X → ch ≠ "{"%char →
  String.prefix (tokenText X) (String ch s) = false.
Proof.
  intros HX Hch.
  destruct HX as [-> | [-> | [-> | ->]]]; unfold tokenText;
    apply prefix_head; congruence.
Qed.

Lemma pass_pieces X gen (Out : string → Prop) w :
  isPlaceholder X →
  (∀ c, ∃ out c', gen w c = Returns out c' ∧ Out out) →
  ∀ ts c, Forall (fun t => plainToken t = true) ts →
    ∃ pieces c',
      replaceAll (tokenText X) gen 0 (render ts) w c
      = Returns (glue pieces) c' ∧
      Forall2 (pieceStep X Out) ts pieces.
Proof.
  intros HX Hgen. induction ts as [|t ts IH]; intros c Hplain.
  - exists [], c. split; [done|apply Forall2_nil_2].
  - apply Forall_cons in Hplain as [Ht Hts].
    destruct (decide (t = X)) as [->|Hne].
    + destruct (Hgen c) as (out & c1 & Hout & HOut).
      destruct (IH c1 Hts) as (pieces & c' & Hrun & Hsteps).
      exists (out :: pieces), c'. split.
      * change (render (X :: ts)) with (tokenText X +:+ render ts).
        assert (Hpat : ∃ p0 q, tokenText X = String p0 q)
          by (destruct HX as [-> | [-> | [-> | ->]]]; by eexists _, _).
        destruct Hpat as (p0 & q & Hpat). rewrite Hpat.
        rewrite replaceAll_match. rewrite <- Hpat.
        unfold bind. by rewrite Hout, Hrun.
      * apply Forall2_cons. split; [|done].
        unfold pieceStep. by rewrite decide_True.
    + destruct (IH c Hts) as (pieces & c' & Hrun & Hsteps).
      exists (tokenText t :: pieces), c'. split.
      * change (render (t :: ts)) with (tokenText t +:+ render ts).
        destruct t as [| | | |ch].
        5: { simpl in Ht. apply negb_true_iff, bool_decide_eq_false in Ht.
             change (tokenText (TChar ch) +:+ render ts)
               with (String ch (render ts)).
             rewrite replaceAll_char by by apply prefix_plain.
             unfold bind. by rewrite Hrun. }
        all: destruct HX as [-> | [-> | [-> | ->]]]; try done;
          unfold tokenText at 2; rewrite !String_append_cons, String_append_nil;
          repeat (rewrite replaceAll_char by reflexivity; unfold bind at 1);
          by rewrite Hrun.
      * apply Forall2_cons. split; [|done].
        unfold pieceStep. by rewrite decide_False.
Qed.

Lemma glue_tokenText ts : glue (List.map tokenText ts) = render ts.
Proof. induction ts as [|t ts IH]; [done|]. simpl. by rewrite IH. Qed.

Lemma pass_tokens X gen (P : ascii → Prop) w :
  isPlaceholder X →
  (∀ c, ∃ ch c', gen w c = Returns (String ch "") c' ∧ P ch ∧
                 ch ≠ "{"%char) →
  ∀ ts c, Forall (fun t => plainToken t = true) ts →
    ∃ ts' c',
      replaceAll (tokenText X) gen 0 (render ts) w c
      = Returns (render ts') c' ∧
      Forall2 (passStep X P) ts ts' ∧
      Forall (fun t => plainToken t = true) ts'.
Proof.
  intros HX Hgen ts c Hplain.
  destruct (pass_pieces X gen
              (fun out => ∃ ch, out = String ch "" ∧ P ch ∧ ch ≠ "{"%char) w
              HX) with (ts := ts) (c := c)
    as (pieces & c' & Hrun & Hsteps); [|done|].
  { intros c0. destruct (Hgen c0) as (ch & c1 & Hout & HP & Hch).
    exists (String ch ""), c1. split; [done|]. by exists ch. }
  assert (Htokens : ∃ ts', glue pieces = render ts' ∧
                      Forall2 (passStep X P) ts ts' ∧
                      Forall (fun t => plainToken t = true) ts').
  { clear Hrun. induction Hsteps as [|t piece ts pieces Hstep _ IH].
    - exists []. by repeat split.
    - apply Forall_cons in Hplain as [Ht Hts].
      destruct (IH Hts) as (ts' & Hglue & Hsteps' & Hplain').
      unfold pieceStep in Hstep.
      destruct (decide (t = X)) as [->|Hne].
      + destruct Hstep as (ch & -> & HP & Hch).
        exists (TChar ch :: ts'). split; [simpl; by rewrite Hglue|]. split.
        * apply Forall2_cons. split; [|done].
          unfold passStep. rewrite decide_True by done. by exists ch.
        * apply Forall_cons. split; [|done]. simpl.
          by rewrite bool_decide_eq_false_2.
      + subst piece. exists (t :: ts'). split; [simpl; by rewrite Hglue|].
        split.
        * apply Forall2_cons. split; [|done].
          unfold passStep. by rewrite decide_False.
        * by apply Forall_cons. }
  destruct Htokens as (ts' & Hglue & Hsteps' & Hplain').
  exists ts', c'. by rewrite <- Hglue.
Qed.

Lemma code_chr z : 0 <= z < 256 → Str.code (Str.chr z) = z.
Proof.
  intros Hz. unfold Str.code, Str.chr.
  rewrite N_ascii_embedding; lia.
Qed.

Lemma randomLetter_upper w c :
  ∃ ch c', randomLetter 65 w c = Returns (String ch "") c' ∧
           Str.is_upper ch = true ∧ ch ≠ "{"%char.
Proof.
  unfold randomLetter, bind, ret.
  destruct (floorRandom 26 w c) as [n c1|e] eqn:E;
    [|by rewrite floorRandom_run in E].
  pose proof (floorRandom_range 26 w c n c1 ltac:(lia) E) as Hn.
  exists (Str.chr (65 + n)), c1. split; [done|].
  assert (Hcode : Str.code (Str.chr (65 + n)) = 65 + n)
    by (apply code_chr; lia).
  split.
  - unfold Str.is_upper. rewrite Hcode. apply andb_true_iff. lia.
  - intros H. rewrite H in Hcode.
    change (Str.code "{"%char) with 123 in Hcode. lia.
Qed.

Lemma randomLetter_lower w c :
  ∃ ch c', randomLetter 97 w c = Returns (String ch "") c' ∧
           Str.is_lower ch = true ∧ ch ≠ "{"%char.
Proof.
  unfold randomLetter, bind, ret.
  destruct (floorRandom 26 w c) as [n c1|e] eqn:E;
    [|by rewrite floorRandom_run in E].
  pose proof (floorRandom_range 26 w c n c1 ltac:(lia) E) as Hn.
  exists (Str.chr (97 + n)), c1. split; [done|].
  assert (Hcode : Str.code (Str.chr (97 + n)) = 97 + n)
    by (apply code_chr; lia).
  split.
  - unfold Str.is_lower. rewrite Hcode. apply andb_true_iff. lia.
  - intros H. rewrite H in Hcode.
    change (Str.code "{"%char) with 123 in Hcode. lia.
Qed.

Lemma randomDigit_digit w c :
  ∃ ch c', randomDigit w c = Returns (String ch "") c' ∧
           Str.is_digit ch = true ∧ ch ≠ "{"%char.
Proof.
  unfold randomDigit, bind, ret.
  destruct (floorRandom 10 w c) as [n c1|e] eqn:E;
    [|by rewrite floorRandom_run in E].
  pose proof (floorRandom_range 10 w c n c1 ltac:(lia) E) as Hn.
  assert (Hcases : n = 0 ∨ n = 1 ∨ n = 2 ∨ n = 3 ∨ n = 4 ∨ n = 5 ∨ n = 6
                   ∨ n = 7 ∨ n = 8 ∨ n = 9) by lia.
  repeat destruct Hcases as [->|Hcases]; try subst n;
    eexists _, c1; (split; [reflexivity|]); by split.
Qed.

Lemma randomToken_run w c :
  ∃ out c', randomToken w c = Returns out c' ∧
    ∃ k, 0 <= k < two53 ∧ out = Str.substring 2 8 (toString36 w k).
Proof.
  unfold randomToken, Math_random. eexists _, _. split; [reflexivity|].
  eexists. split; [|reflexivity].
  apply Z.mod_pos_bound. apply two53_pos.
Qed.

Lemma Forall2_compose {A B C : Type} (R : A → B → Prop) (S : B → C → Prop)
    l1 l2 l3 :
  Forall2 R l1 l2 → Forall2 S l2 l3 →
  Forall2 (fun a c => ∃ b, R a b ∧ S b c) l1 l3.
Proof.
  intros H. revert l3. induction H as [|a b l1 l2 Hab _ IH]; intros l3 H3.
  - apply Forall2_nil_inv_l in H3 as ->. apply Forall2_nil_2.
  - apply Forall2_cons_inv_l in H3 as (c & l3' & Hbc & H3' & ->).
    apply Forall2_cons. split; [by exists b|by apply IH].
Qed.

Lemma afterLetters_chain t t1 t2 t3 :
  passStep TUpper (fun ch => Str.is_upper ch = true) t t1 →
  passStep TLower (fun ch => Str.is_lower ch = true) t1 t2 →
  passStep TDigit (fun ch => Str.is_digit ch = true) t2 t3 →
  afterLetters t t3.
Proof.
  unfold passStep. intros H1 H2 H3. destruct t as [| | | |c].
  - rewrite decide_True in H1 by done. destruct H1 as (ch & Hch & ->).
    rewrite decide_False in H2 by done. subst t2.
    rewrite decide_False in H3 by done. subst t3. by exists ch.
  - rewrite decide_False in H1 by done. subst t1.
    rewrite decide_True in H2 by done. destruct H2 as (ch & Hch & ->).
    rewrite decide_False in H3 by done. subst t3. by exists ch.
  - rewrite decide_False in H1 by done. subst t1.
    rewrite decide_False in H2 by done. subst t2.
    rewrite decide_True in H3 by done. destruct H3 as (ch & Hch & ->).
    by exists ch.
  - rewrite decide_False in H1 by done. subst t1.
    rewrite decide_False in H2 by done. subst t2.
    rewrite decide_False in H3 by done. by subst t3.
  - rewrite decide_False in H1 by done. subst t1.
    rewrite decide_False in H2 by done. subst t2.
    rewrite decide_False in H3 by done. by subst t3.
Qed.

Lemma letters_passes ts w c :
  Forall (fun t => plainToken t = true) ts →
  ∃ r1 c1 r2 c2 ts3 c3,
    replaceAll "{UPPER}" (randomLetter 65) O (render ts) w c
      = Returns r1 c1 ∧
    replaceAll "{lower}" (randomLetter 97) O r1 w c1 = Returns r2 c2 ∧
    replaceAll "{digit}" randomDigit O r2 w c2 = Returns (render ts3) c3 ∧
    Forall2 afterLetters ts ts3 ∧
    Forall (fun t => plainToken t = true) ts3.
Proof.
  intros Hplain.
  destruct (pass_tokens TUpper (randomLetter 65)
              (fun ch => Str.is_upper ch = true) w) with (ts := ts) (c := c)
    as (ts1 & c1 & Hrun1 & Hs1 & Hp1);
    [by left | apply randomLetter_upper | done |].
  destruct (pass_tokens TLower (randomLetter 97)
              (fun ch => Str.is_lower ch = true) w) with (ts := ts1) (c := c1)
    as (ts2 & c2 & Hrun2 & Hs2 & Hp2);
    [by right; left | apply randomLetter_lower | done |].
  destruct (pass_tokens TDigit randomDigit
              (fun ch => Str.is_digit ch = true) w) with (ts := ts2) (c := c2)
    as (ts3 & c3 & Hrun3 & Hs3 & Hp3);
    [by right; right; left | apply randomDigit_digit | done |].
  exists (render ts1), c1, (render ts2), c2, ts3, c3.
  split; [exact Hrun1|]. split; [exact Hrun2|]. split; [exact Hrun3|].
  split; [|done].
  pose proof (Forall2_compose _ _ _ _ _
                (Forall2_compose _ _ _ _ _ Hs1 Hs2) Hs3) as H.
  eapply Forall2_impl; [exact H|].
  intros t t3 (t2 & (t1 & H1 & H2) & H3).
  by apply (afterLetters_chain t t1 t2 t3).
Qed.

Lemma pieceStep_unchanged X Out ts pieces :
  Forall2 (pieceStep X Out) ts pieces → X ∉ ts →
  pieces = List.map tokenText ts.
Proof.
  induction 1 as [|t piece ts pieces Hstep _ IH]; [done|].
  intros Hnot. apply not_elem_of_cons in Hnot as [Hne Hnot].
  unfold pieceStep in Hstep. rewrite decide_False in Hstep by done.
  simpl. by rewrite Hstep, IH.
Qed.

(** X18: a pattern made of the four placeholders and of characters other
    than the opening brace is expanded token by token: [{UPPER}], [{lower}]
    and [{digit}] each give one character of their class, [{random}] gives
    characters 2 to 7 of a draw written in base 36, any other character
    stays.  (For a field of type phone the pattern is to hold no
    [{random}], whose text is scanned once more for [{digit}].) *)
Theorem generateFromPattern_tokens ts fieldType w c :
  Forall (fun t => plainToken t = true) ts →
  (fieldType = ft_phone → TRandom ∉ ts) →
  ∃ pieces c',
    generateFromPattern (render ts) fieldType w c
    = Returns (glue pieces) c' ∧
    Forall2 (Expands w) ts pieces.
Proof.
  intros Hplain Hphone.
  destruct (letters_passes ts w c Hplain)
    as (r1 & c1 & r2 & c2 & ts3 & c3 & H1 & H2 & H3 & Hsteps & Hplain3).
  destruct (pass_pieces TRandom randomToken
              (fun out => ∃ k, 0 <= k < two53 ∧
                               out = Str.substring 2 8 (toString36 w k)) w)
    with (ts := ts3) (c := c3) as (pieces & c4 & H4 & Hpieces);
    [by right; right; right | apply randomToken_run | done |].
  change (tokenText TRandom) with "{random}" in H4.
  unfold generateFromPattern.
  rewrite (bind_step _ _ _ _ _ _ H1), (bind_step _ _ _ _ _ _ H2),
    (bind_step _ _ _ _ _ _ H3), (bind_step _ _ _ _ _ _ H4).
  destruct (bool_decide (fieldType = ft_phone)) eqn:Ephone.
  - apply bool_decide_eq_true in Ephone. specialize (Hphone Ephone).
    assert (Hnot3 : TRandom ∉ ts3).
    { intros Hin. apply list_elem_of_lookup in Hin as (i & Hi).
      destruct (Forall2_lookup_r _ _ _ _ _ Hsteps Hi) as (t & Ht & Hstep).
      apply Hphone. apply list_elem_of_lookup. exists i.
      destruct t; simpl in Hstep; try done;
        by destruct Hstep as (? & _ & ?). }
    rewrite (pieceStep_unchanged _ _ _ _ Hpieces Hnot3), glue_tokenText.
    destruct (pass_tokens TDigit randomDigit
                (fun ch => Str.is_digit ch = true) w)
      with (ts := ts3) (c := c4)
      as (ts5 & c5 & H5 & Hs5 & _);
      [by right; right; left | apply randomDigit_digit | done |].
    change (tokenText TDigit) with "{digit}" in H5.
    exists (List.map tokenText ts5), c5. rewrite glue_tokenText.
    split; [exact H5|].
    apply Forall2_fmap_r.
    pose proof (Forall2_compose _ _ _ _ _ Hsteps Hs5) as H.
    eapply Forall2_impl_elem; [exact H|].
    intros t t5 Ht (t3 & Ha & Hb). unfold passStep in Hb.
    destruct t as [| | | |ch]; simpl in Ha.
    + destruct Ha as (ch & Hch & ->). rewrite decide_False in Hb by done.
      subst t5. by exists ch.
    + destruct Ha as (ch & Hch & ->). rewrite decide_False in Hb by done.
      subst t5. by exists ch.
    + destruct Ha as (ch & Hch & ->). rewrite decide_False in Hb by done.
      subst t5. by exists ch.
    + by destruct Hphone.
    + subst t3. rewrite decide_False in Hb by done. by subst t5.
  - exists pieces, c4. split; [done|].
    pose proof (Forall2_compose _ _ _ _ _ Hsteps Hpieces) as H.
    eapply Forall2_impl; [exact H|].
    intros t piece (t3 & Ha & Hb). unfold pieceStep in Hb.
    destruct t as [| | | |ch]; simpl in Ha.
    + destruct Ha as (ch & Hch & ->). rewrite decide_False in Hb by done.
      subst piece. by exists ch.
    + destruct Ha as (ch & Hch & ->). rewrite decide_False in Hb by done.
      subst piece. by exists ch.
    + destruct Ha as (ch & Hch & ->). rewrite decide_False in Hb by done.
      subst piece. by exists ch.
    + subst t3. rewrite decide_True in Hb by done. exact Hb.
    + subst t3. rewrite decide_False in Hb by done. by subst piece.
Qed.

Lemma generateFromPattern_tokens_witness :
  ∃ pieces c',
    generateFromPattern "{UPPER}{digit}-{lower}{lower}" ft_string
                        Sample.world Sample.start
    = Returns (glue pieces) c' ∧
    Forall2 (Expands Sample.world)
            [TUpper; TDigit; TChar "-"; TLower; TLower] pieces.
Proof.
  apply (generateFromPattern_tokens
           [TUpper; TDigit; TChar "-"; TLower; TLower] ft_string).
  - repeat (apply Forall_cons; split; [reflexivity|]). apply Forall_nil_2.
  - discriminate.
Defined.

(** ** Patterns inferred from recorded values *)

Lemma generatePasswordPattern_render password :
  generatePasswordPattern password = render (tokensOf passwordToken password).
Proof.
  induction password as [|ch rest IH]; [done|]. simpl. rewrite IH.
  unfold passwordToken.
  by destruct (Str.is_upper ch), (Str.is_lower ch), (Str.is_digit ch).
Qed.

Lemma generatePhonePattern_render phone :
  generatePhonePattern phone = render (tokensOf phoneToken phone).
Proof.
  induction phone as [|ch rest IH]; [done|]. simpl. rewrite IH.
  unfold phoneToken. by destruct (Str.is_digit ch).
Qed.

Lemma tokensOf_plain classify s :
  (∀ ch, classify ch = TChar ch ∨ plainToken (classify ch) = true) →
  includesChar "{"%char s = false →
  Forall (fun t => plainToken t = true) (tokensOf classify s).
Proof.
  intros Hclass. induction s as [|ch s IH]; [intros; apply Forall_nil_2|].
  rewrite includesChar_cons. intros [Hc Hs]%orb_false_iff. simpl.
  apply Forall_cons. split; [|by apply IH].
  destruct (Hclass ch) as [->|H]; [|done]. simpl. by rewrite Hc.
Qed.

Lemma tokensOf_no_random classify s :
  (∀ ch, classify ch ≠ TRandom) → TRandom ∉ tokensOf classify s.
Proof.
  intros Hclass. induction s as [|ch s IH]; [apply not_elem_of_nil|].
  simpl. apply not_elem_of_cons. split; [by apply not_eq_sym|done].
Qed.

Lemma Expands_sameShape w classify (R : ascii → ascii → Prop) s :
  (∀ ch piece, Expands w (classify ch) piece →
               ∃ ch', piece = String ch' "" ∧ R ch ch') →
  ∀ pieces, Forall2 (Expands w) (tokensOf classify s) pieces →
            sameShape R s (glue pieces).
Proof.
  intros Hclass. induction s as [|ch s IH]; intros pieces Hp; simpl in Hp.
  - by apply Forall2_nil_inv_l in Hp as ->.
  - apply Forall2_cons_inv_l in Hp as (piece & rest & Hpiece & Hrest & ->).
    destruct (Hclass ch piece Hpiece) as (ch' & -> & HR).
    simpl. split; [done|by apply IH].
Qed.

Lemma passwordToken_keepsClass w ch piece :
  Expands w (passwordToken ch) piece →
  ∃ ch', piece = String ch' "" ∧ keepsClass ch ch'.
Proof.
  unfold passwordToken, keepsClass.
  destruct (Str.is_upper ch); [by intros (c & Hc & ->); exists c|].
  destruct (Str.is_lower ch); [by intros (c & Hc & ->); exists c|].
  destruct (Str.is_digit ch); [by intros (c & Hc & ->); exists c|].
  simpl. intros ->. by exists ch.
Qed.

Lemma phoneToken_keepsDigit w ch piece :
  Expands w (phoneToken ch) piece →
  ∃ ch', piece = String ch' "" ∧ keepsDigit ch ch'.
Proof.
  unfold phoneToken, keepsDigit.
  destruct (Str.is_digit ch); [by intros (c & Hc & ->); exists c|].
  simpl. intros ->. by exists ch.
Qed.

Lemma sameShape_length R a : ∀ b,
  sameShape R a b → String.length a = String.length b.
Proof.
  induction a as [|x a IH]; intros [|y b]; simpl; try done.
  intros [_ H]. by rewrite (IH b H).
Qed.

Lemma underscore_ws_nonempty s : ∀ in_run,
  Str.existsb (fun c => negb (Str.is_ws c)) s = true ∨ in_run = false →
  s ≠ "" → Str.underscore_ws in_run s ≠ "".
Proof.
  induction s as [|c s IH]; [done|]. intros in_run H _. simpl.
  destruct (Str.is_ws c) eqn:E; [|done].
  destruct in_run; [|done].
  destruct H as [H|H]; [|done]. simpl in H. rewrite E in H. simpl in H.
  apply IH; [by left|]. by destruct s.
Qed.

Lemma fieldNameOf_nonempty lbl : lbl ≠ "" → fieldNameOf lbl ≠ "".
Proof.
  intros H. unfold fieldNameOf. apply underscore_ws_nonempty; [by right|].
  by destruct lbl.
Qed.

Lemma extractable_label cmd :
  extractable cmd = true →
  ∃ lbl, label cmd = Some lbl ∧ lbl ≠ "" ∧ value cmd ≠ "" ∧
         (command cmd = "type" ∨ command cmd = "password").
Proof.
  unfold extractable, opt_str_truthy.
  intros [[Hl Hv]%andb_true_iff Hc]%andb_true_iff.
  destruct (label cmd) as [lbl|]; [|done]. exists lbl.
  split; [done|]. split; [by apply Str_truthy_true|].
  split; [by apply Str_truthy_true|].
  apply orb_true_iff in Hc as [Hc|Hc]; apply Str_eqb_true in Hc; auto.
Qed.

Lemma fieldOf_name newId cmd :
  extractable cmd = true → name (fieldOf newId cmd) ≠ "".
Proof.
  intros (lbl & Hl & Hne & _)%extractable_label. simpl. rewrite Hl.
  by apply fieldNameOf_nonempty.
Qed.

Lemma parseSidFile_fieldOf fid ver nm addr tid tnm cmd w c :
  extractable cmd = true →
  ∃ newId c',
    parseSidFile (mkSidFile fid ver nm addr [mkTest tid tnm [cmd]]) w c
    = Returns [fieldOf newId cmd] c'.
Proof.
  intros Hex.
  destruct (parseSidFile_single fid ver nm addr tid tnm cmd w c Hex)
    as (c' & Hrun).
  by eexists _, c'.
Qed.

Lemma generateFieldValue_pattern field pat w c :
  name field ≠ "" → dataType field = dt_pattern →
  pattern (config field) = Some pat → maxFieldLength field = None →
  generateFieldValue field w c
  = (do s <- generateFromPattern pat (type field); ret (VStr s)) w c.
Proof.
  intros Hname Hdt Hpat Hmfl. unfold generateFieldValue.
  rewrite (proj2 (Str_is_empty_false _) Hname).
  unfold synthesize. rewrite Hdt, Hpat.
  assert (Hor : str_or (Some pat) "" = pat) by by destruct pat.
  rewrite Hor. unfold bind.
  destruct (generateFromPattern pat (type field) w c); [|done].
  unfold ret, applyMaxFieldLength. by rewrite Hmfl.
Qed.

Lemma expand_tokens_field f classify (R : ascii → ascii → Prop) v w c :
  name f ≠ "" → dataType f = dt_pattern → maxFieldLength f = None →
  pattern (config f) = Some (render (tokensOf classify v)) →
  (∀ ch, classify ch = TChar ch ∨ plainToken (classify ch) = true) →
  (∀ ch, classify ch ≠ TRandom) →
  (∀ ch piece, Expands w (classify ch) piece →
               ∃ ch', piece = String ch' "" ∧ R ch ch') →
  includesChar "{"%char v = false →
  ∃ s c', generateFieldValue f w c = Returns (VStr s) c' ∧
          sameShape R v s ∧ String.length s = String.length v.
Proof.
  intros Hname Hdt Hmfl Hpat Hplain Hrandom HR Hv.
  destruct (generateFromPattern_tokens (tokensOf classify v) (type f) w c)
    as (pieces & c' & Hrun & Hpieces).
  { by apply tokensOf_plain. }
  { intros _. by apply tokensOf_no_random. }
  exists (glue pieces), c'.
  assert (Hshape : sameShape R v (glue pieces))
    by by apply (Expands_sameShape w classify).
  split; [|split; [done|]].
  - rewrite (generateFieldValue_pattern _ _ _ _ Hname Hdt Hpat Hmfl).
    unfold bind. by rewrite Hrun.
  - symmetry. by apply (sameShape_length R).
Qed.





Lemma render_chars s : render (tokensOf TChar s) = s.
Proof. induction s as [|ch s IH]; [done|]. simpl. by rewrite IH. Qed.

Lemma glue_chars w s pieces :
  Forall2 (Expands w) (tokensOf TChar s) pieces → glue pieces = s.
Proof.
  revert pieces. induction s as [|ch s IH]; intros pieces Hp; simpl in Hp.
  - by apply Forall2_nil_inv_l in Hp as ->.
  - apply Forall2_cons_inv_l in Hp as (piece & rest & Hpiece & Hrest & ->).
    simpl in Hpiece. subst piece. simpl. by rewrite (IH rest Hrest).
Qed.



(** ** Fields extracted from a recording *)

Lemma lower_char_not_upper c : Str.is_upper (Str.lower_char c) = false.
Proof. by destruct c as [[] [] [] [] [] [] [] []]. Qed.

Lemma underscore_ws_no_upper s : ∀ in_run,
  Str.existsb Str.is_upper (Str.underscore_ws in_run (Str.toLowerCase s))
  = false.
Proof.
  unfold Str.toLowerCase.
  induction s as [|c s IH]; intros in_run; [done|]. simpl.
  destruct (Str.is_ws (Str.lower_char c)).
  - destruct in_run; [apply IH|]. simpl. apply IH.
  - simpl. by rewrite lower_char_not_upper, IH.
Qed.

Lemma fieldNameOf_no_upper lbl :
  Str.existsb Str.is_upper (fieldNameOf lbl) = false.
Proof. apply underscore_ws_no_upper. Qed.

Lemma underscore_ws_no_ws s : ∀ in_run,
  Str.existsb Str.is_ws (Str.underscore_ws in_run s) = false.
Proof.
  induction s as [|c s IH]; intros in_run; [done|]. simpl.
  destruct (Str.is_ws c) eqn:E.
  - destruct in_run; [apply IH|]. simpl. apply IH.
  - simpl. by rewrite E, IH.
Qed.

Lemma analyseCommand_not_lookup cmd : (analyseCommand cmd).1.2 ≠ dt_lookup.
Proof.
  unfold analyseCommand.
  repeat match goal with
         | |- context [if ?b then _ else _] => destruct b
         end; discriminate.
Qed.

Lemma fieldOf_extracted newId cmd :
  extractable cmd = true → ExtractedField (fieldOf newId cmd).
Proof.
  intros Hex. split; [by apply fieldOf_name|].
  split; [apply fieldNameOf_no_upper|].
  split; [apply underscore_ws_no_ws|].
  repeat split. apply analyseCommand_not_lookup.
Qed.

Lemma existsb_name acc n :
  List.existsb (fun f => Str.eqb (name f) n) acc = false →
  n ∉ List.map name acc.
Proof.
  induction acc as [|f acc IH]; [intros _; apply not_elem_of_nil|].
  simpl. intros [Hf Hacc]%orb_false_iff.
  apply Str_eqb_false in Hf. apply not_elem_of_cons. split; [done|by apply IH].
Qed.

Lemma existsb_name_true acc n :
  List.existsb (fun f => Str.eqb (name f) n) acc = true →
  n ∈ List.map name acc.
Proof.
  induction acc as [|f acc IH]; [done|].
  simpl. intros [Hf|Hacc]%orb_true_iff.
  - apply Str_eqb_true in Hf as <-. left.
  - right. by apply IH.
Qed.

Lemma extractCommand_run acc cmd w c :
  ∃ new c',
    extractCommand acc cmd w c = Returns (acc ++ new) c' ∧
    (new = [] ∨
     ∃ newId, new = [fieldOf newId cmd] ∧ extractable cmd = true ∧
              name (fieldOf newId cmd) ∉ List.map name acc) ∧
    (extractable cmd = true →
     fieldNameOf (default "" (label cmd)) ∈ List.map name (acc ++ new)).
Proof.
  unfold extractCommand.
  destruct (extractable cmd) eqn:Hex.
  - unfold fieldOf.
    destruct (analyseCommand cmd) as [[ft dt] cfg] eqn:Han.
    destruct (List.existsb
                (fun f => Str.eqb (name f)
                                  (fieldNameOf (default "" (label cmd))))
                acc) eqn:Hseen.
    + exists [], c. rewrite app_nil_r. split; [done|]. split; [by left|].
      intros _. by apply existsb_name_true.
    + unfold bind, freshId, Date_now, Math_random, ret.
      eexists [_], _. split; [reflexivity|]. split.
      * right. eexists. split; [reflexivity|]. split; [done|].
        simpl. by apply existsb_name.
      * intros _. rewrite map_app. apply elem_of_app. right. simpl. left.
  - exists [], c. rewrite app_nil_r. split; [done|]. split; [by left|done].
Qed.

Lemma forEach_extract cmds : ∀ acc w c,
  NoDup (List.map name acc) →
  ∃ new c',
    forEach extractCommand cmds acc w c = Returns (acc ++ new) c' ∧
    NoDup (List.map name (acc ++ new)) ∧
    Forall (fun f => ∃ newId cmd, cmd ∈ cmds ∧ extractable cmd = true ∧
                                  f = fieldOf newId cmd) new ∧
    (∀ cmd, cmd ∈ cmds → extractable cmd = true →
            fieldNameOf (default "" (label cmd))
              ∈ List.map name (acc ++ new)).
Proof.
  induction cmds as [|cmd cmds IH]; intros acc w c Hnodup.
  - exists [], c. rewrite app_nil_r. split; [done|]. split; [done|].
    split; [apply Forall_nil_2|]. by intros cmd H%elem_of_nil.
  - destruct (extractCommand_run acc cmd w c) as (new1 & c1 & H1 & Hnew1 & Hin1).
    assert (Hnodup1 : NoDup (List.map name (acc ++ new1))).
    { destruct Hnew1 as [->|(newId & -> & _ & Hfresh)];
        [by rewrite app_nil_r|].
      rewrite map_app. apply NoDup_app. split; [done|].
      split; [|apply NoDup_singleton].
      intros n Hn Hn'. apply list_elem_of_singleton in Hn'. by subst n. }
    destruct (IH (acc ++ new1) w c1 Hnodup1) as (new2 & c2 & H2 & Hnd & Hall & Hin2).
    exists (new1 ++ new2), c2. rewrite app_assoc.
    split; [simpl; by rewrite (bind_step _ _ _ _ _ _ H1)|].
    split; [done|]. split.
    + apply Forall_app. split.
      * destruct Hnew1 as [->|(newId & -> & Hex & _)]; [apply Forall_nil_2|].
        apply Forall_cons. split; [|apply Forall_nil_2].
        exists newId, cmd. split; [left|done].
      * eapply Forall_impl; [exact Hall|].
        intros f (newId & cmd' & Hcmd' & Hex & ->).
        exists newId, cmd'. split; [by right|done].
    + intros cmd' Hcmd' Hex. apply elem_of_cons in Hcmd' as [->|Hcmd'].
      * specialize (Hin1 Hex). rewrite map_app. apply elem_of_app. by left.
      * by apply Hin2.
Qed.

Lemma parseSidFile_run tests0 : ∀ acc w c,
  NoDup (List.map name acc) →
  ∃ new c',
    forEach (fun acc test => forEach extractCommand (commands test) acc)
            tests0 acc w c = Returns (acc ++ new) c' ∧
    NoDup (List.map name (acc ++ new)) ∧
    Forall (fun f => ∃ newId cmd,
              cmd ∈ concat (List.map commands tests0) ∧
              extractable cmd = true ∧ f = fieldOf newId cmd) new ∧
    (∀ cmd, cmd ∈ concat (List.map commands tests0) →
            extractable cmd = true →
            fieldNameOf (default "" (label cmd))
              ∈ List.map name (acc ++ new)).
Proof.
  induction tests0 as [|test rest IH]; intros acc w c Hnodup.
  - exists [], c. rewrite app_nil_r. split; [done|]. split; [done|].
    split; [apply Forall_nil_2|]. by intros cmd H%elem_of_nil.
  - destruct (forEach_extract (commands test) acc w c Hnodup)
      as (new1 & c1 & H1 & Hnd1 & Hall1 & Hin1).
    destruct (IH (acc ++ new1) w c1 Hnd1) as (new2 & c2 & H2 & Hnd & Hall2 & Hin2).
    exists (new1 ++ new2), c2. rewrite app_assoc.
    split; [simpl; by rewrite (bind_step _ _ _ _ _ _ H1)|].
    split; [done|]. simpl. split.
    + apply Forall_app. split.
      * eapply Forall_impl; [exact Hall1|].
        intros f (newId & cmd & Hcmd & Hex & ->). exists newId, cmd.
        split; [|done]. apply elem_of_app. by left.
      * eapply Forall_impl; [exact Hall2|].
        intros f (newId & cmd & Hcmd & Hex & ->). exists newId, cmd.
        split; [|done]. apply elem_of_app. by right.
    + intros cmd Hcmd Hex. apply elem_of_app in Hcmd as [Hcmd|Hcmd].
      * specialize (Hin1 cmd Hcmd Hex). rewrite map_app.
        apply elem_of_app. by left.
      * by apply Hin2.
Qed.

Lemma ExtractedField_target f :
  ExtractedField f →
  (flag_truthy (generateNegativeTests f) || shouldAutoEnableNegativeTests f)
  && Str.truthy (name f) = true.
Proof.
  intros (Hname & _ & _ & Hreq & _).
  unfold shouldAutoEnableNegativeTests. rewrite Hreq, orb_true_r.
  by apply Str_truthy_true.
Qed.

(** X22: the extraction from a recording always returns; the extracted
    fields have pairwise distinct names, which are not empty and hold no
    upper-case letter and no white space, so that none is a metadata key of
    the records; every extracted field is required, has no length limit and
    no lookup strategy, and is a target of the negative phase of any later
    run. *)
Theorem parseSidFile_fields sidData w c :
  ∃ fields c',
    parseSidFile sidData w c = Returns fields c' ∧
    NoDup (List.map name fields) ∧
    Forall ExtractedField fields ∧
    (∀ k, k ∈ metadataKeys → k ∉ fieldNames fields) ∧
    (∀ incl, negativeTargets fields incl = fields).
Proof.
  destruct (parseSidFile_run (tests sidData) [] w c (NoDup_nil_2))
    as (fields & c' & Hrun & Hnodup & Hall & _).
  simpl in Hrun, Hnodup.
  assert (Hfields : Forall ExtractedField fields).
  { eapply Forall_impl; [exact Hall|].
    intros f (newId & cmd & _ & Hex & ->). by apply fieldOf_extracted. }
  exists fields, c'. split; [exact Hrun|]. split; [done|]. split; [done|].
  split.
  - intros k Hk Hin. apply elem_of_fieldNames in Hin as (f & Hf & <- & _).
    rewrite Forall_forall in Hfields.
    destruct (Hfields f Hf) as (_ & Hupper & _).
    unfold metadataKeys in Hk.
    repeat (apply elem_of_cons in Hk as [Hk|Hk];
            [by rewrite Hk in Hupper|]).
    by apply elem_of_nil in Hk.
  - intros incl. unfold negativeTargets, shouldIncludeNegativeTests,
      negativeTestFields.
    assert (Hfilter : ∀ l, Forall ExtractedField l →
              List.filter
                (fun f => (flag_truthy (generateNegativeTests f)
                           || shouldAutoEnableNegativeTests f)
                          && Str.truthy (name f)) l = l).
    { induction 1 as [|f l Hf _ IH]; [done|]. simpl.
      by rewrite (ExtractedField_target f Hf), IH. }
    destruct fields as [|f l]; [by destruct incl|].
    apply Forall_cons in Hfields as [Hf Hl].
    assert (Hauto : shouldAutoEnableNegativeTests f = true).
    { destruct Hf as (_ & _ & _ & Hreq & _).
      unfold shouldAutoEnableNegativeTests. by rewrite Hreq. }
    simpl List.existsb. rewrite Hauto, orb_true_r.
    apply Hfilter. by apply Forall_cons.
Qed.

(** X23: the guard of the extraction is the filter by which the analysis
    panel picks its data input fields.  A name is extracted exactly when
    some test of the recording holds a command that passes this filter and
    whose label gives the name.  The panel is given the commands of the
    first test only: every data input field that it lists is extracted,
    and for a recording of one test the extracted names are exactly those
    of the listed commands, so that the fields are at most as many as
    these. *)
Theorem parseSidFile_dataFields sidData w c fields c' :
  parseSidFile sidData w c = Returns fields c' →
  (∀ n, n ∈ List.map name fields ↔
        ∃ test cmd, test ∈ tests sidData ∧
                    cmd ∈ SidAnalysis.dataFields (commands test) ∧
                    n = fieldNameOf (default "" (label cmd))) ∧
  (∀ listed cmd,
     panelCommands sidData = Some listed →
     cmd ∈ SidAnalysis.dataFields listed →
     fieldNameOf (default "" (label cmd)) ∈ List.map name fields) ∧
  (∀ test,
     tests sidData = [test] →
     panelCommands sidData = Some (commands test) ∧
     (∀ n, n ∈ List.map name fields ↔
           ∃ cmd, cmd ∈ SidAnalysis.dataFields (commands test) ∧
                  n = fieldNameOf (default "" (label cmd))) ∧
     (List.length fields
      <= List.length (SidAnalysis.dataFields (commands test)))%nat).
Proof.
  intros Hrun.
  destruct (parseSidFile_run (tests sidData) [] w c (NoDup_nil_2))
    as (fields' & c'' & Hrun' & Hnodup & Hall & Hin).
  simpl in Hrun', Hnodup, Hin. unfold parseSidFile in Hrun.
  rewrite Hrun' in Hrun. injection Hrun as -> ->.
  assert (Hdata : ∀ cmds cmd, cmd ∈ SidAnalysis.dataFields cmds ↔
                              cmd ∈ cmds ∧ extractable cmd = true).
  { intros cmds cmd. unfold SidAnalysis.dataFields.
    rewrite list_elem_of_In, filter_In, <- list_elem_of_In. done. }
  assert (Hall' : ∀ cmd, cmd ∈ concat (List.map commands (tests sidData)) ↔
                         ∃ test, test ∈ tests sidData ∧ cmd ∈ commands test).
  { intros cmd. rewrite list_elem_of_In, in_concat. split.
    - intros (cmds & Hcmds & Hcmd).
      apply in_map_iff in Hcmds as (test & <- & Htest).
      exists test. by rewrite !list_elem_of_In.
    - intros (test & Htest & Hcmd). exists (commands test).
      split; [apply in_map|]; by apply list_elem_of_In. }
  assert (Hiff : ∀ n, n ∈ List.map name fields ↔
            ∃ test cmd, test ∈ tests sidData ∧
                        cmd ∈ SidAnalysis.dataFields (commands test) ∧
                        n = fieldNameOf (default "" (label cmd))).
  { intros n. split.
    - intros Hn. apply list_elem_of_In, in_map_iff in Hn as (f & <- & Hf).
      apply list_elem_of_In in Hf. rewrite Forall_forall in Hall.
      destruct (Hall f Hf) as (newId & cmd & Hcmd & Hex & ->).
      apply Hall' in Hcmd as (test & Htest & Hcmd).
      exists test, cmd. split; [done|]. split; [|done]. by apply Hdata.
    - intros (test & cmd & Htest & Hcmd & ->).
      apply Hdata in Hcmd as [Hcmd Hex].
      apply Hin; [|done]. apply Hall'. by exists test. }
  split; [exact Hiff|]. split.
  - intros listed cmd Hpanel Hcmd. unfold panelCommands in Hpanel.
    destruct (tests sidData) as [|test rest] eqn:Htests; [discriminate|].
    injection Hpanel as <-. apply Hiff. exists test, cmd.
    split; [left|done].
  - intros test Htests.
    assert (Hone : ∀ n, n ∈ List.map name fields ↔
              ∃ cmd, cmd ∈ SidAnalysis.dataFields (commands test) ∧
                     n = fieldNameOf (default "" (label cmd))).
    { intros n. rewrite Hiff, Htests. split.
      - intros (test' & cmd & ->%list_elem_of_singleton & Hcmd & Hn).
        by exists cmd.
      - intros (cmd & Hcmd & Hn). exists test, cmd.
        split; [left|done]. }
    split; [unfold panelCommands; by rewrite Htests|].
    split; [exact Hone|].
    rewrite <- (length_map name fields),
      <- (length_map (fun cmd => fieldNameOf (default "" (label cmd)))
            (SidAnalysis.dataFields (commands test))).
    apply submseteq_length, NoDup_submseteq; [done|].
    intros n Hn. apply Hone in Hn as (cmd & Hcmd & ->).
    apply list_elem_of_In, in_map_iff. exists cmd.
    split; [done|by apply list_elem_of_In].
Qed.

Lemma returned_fmap {A B : Type} (g : A → B) (o : Outcome A) y :
  g <$> returned o = Some y → ∃ a c', o = Returns a c' ∧ g a = y.
Proof.
  destruct o as [a c'|e]; simpl; [|discriminate].
  intros [= <-]. by exists a, c'.
Qed.

Lemma parseSidFile_dataFields_witness :
  (∃ fields c',
     parseSidFile Example.login Sample.world Sample.start
     = Returns fields c' ∧
     List.map name fields = ["email_address"; "password"] ∧
     (List.length fields <= 3)%nat) ∧
  ∃ fields c',
    parseSidFile Example.twoTests Sample.world Sample.start
    = Returns fields c' ∧
    List.map name fields = ["email_address"; "password"] ∧
    panelCommands Example.twoTests = Some [Sample.emailCommand] ∧
    "email_address" ∈ List.map name fields.
Proof.
  split.
  - destruct (returned_fmap (List.map name)
                (parseSidFile Example.login Sample.world Sample.start)
                ["email_address"; "password"])
      as (fields & c' & Hrun & Hnames); [vm_compute; reflexivity|].
    exists fields, c'. split; [exact Hrun|]. split; [exact Hnames|].
    destruct (parseSidFile_dataFields _ _ _ _ _ Hrun) as (_ & _ & Hone).
    destruct (Hone _ eq_refl) as (_ & _ & Hlen). exact Hlen.
  - destruct (returned_fmap (List.map name)
                (parseSidFile Example.twoTests Sample.world Sample.start)
                ["email_address"; "password"])
      as (fields & c' & Hrun & Hnames); [vm_compute; reflexivity|].
    exists fields, c'. split; [exact Hrun|]. split; [exact Hnames|].
    split; [reflexivity|].
    destruct (parseSidFile_dataFields _ _ _ _ _ Hrun) as (_ & Hpanel & _).
    apply (Hpanel [Sample.emailCommand] Sample.emailCommand eq_refl).
    left.
Defined.

Lemma parse_digits_go_nonneg s : ∀ acc,
  0 <= acc → Str.forallb Str.is_digit s = true →
  0 <= (fix go (acc : Z) (s : string) : Z :=
          match s with
          | "" => acc
          | String c s' => go (10 * acc + (Str.code c - 48)) s'
          end) acc s.
Proof.
  induction s as [|ch s IH]; intros acc Hacc; [done|].
  simpl. intros [Hch Hs]%andb_true_iff. apply IH; [|done].
  unfold Str.is_digit in Hch. apply andb_true_iff in Hch. lia.
Qed.

Lemma parse_digits_nonneg s : allDigits s = true → 0 <= Str.parse_digits s.
Proof.
  unfold allDigits. intros [_ H]%andb_true_iff.
  by apply parse_digits_go_nonneg.
Qed.



(** ** Handlers of the lookup sources *)

Lemma updateField_lookup fields fieldId updates i g :
  updateField fields fieldId updates !! i = Some g ↔
  ∃ g0, fields !! i = Some g0 ∧
        g = (if Str.eqb (id g0) fieldId then applyUpdates g0 updates else g0).
Proof.
  unfold updateField. rewrite list_lookup_fmap.
  destruct (fields !! i) as [g0|]; simpl.
  - split; [intros [= <-]; by exists g0|]. by intros (g1 & [= <-] & ->).
  - split; [done|]. by intros (g1 & H & _).
Qed.

Lemma lookupEntries_nonblank inputValue :
  List.filter nonblank (lookupEntries inputValue) = lookupEntries inputValue.
Proof.
  unfold lookupEntries.
  induction (Str.split_at ","%char inputValue) as [|x l IH]; [done|].
  simpl. destruct (0 <? Str.length (Str.trim x)) eqn:E; [|done].
  simpl. unfold nonblank at 1. by rewrite trim_idem, E, IH.
Qed.

(** X25: after lookup values were entered by hand in the row of a field,
    every field with that identifier resolves to exactly the entries typed
    between the commas, trimmed and without the empty ones, whatever grid
    and column it had before; the other fields, the number and the order of
    the fields are unchanged. *)
Theorem onLookupValuesChange_resolves fields field inputValue :
  List.length (onLookupValuesChange fields field inputValue)
  = List.length fields ∧
  ∀ i g,
    onLookupValuesChange fields field inputValue !! i = Some g →
    ∃ g0, fields !! i = Some g0 ∧
      (id g0 ≠ id field → g = g0) ∧
      (id g0 = id field →
       name g = name g0 ∧ dataType g = dataType g0 ∧
       csvData (config g) = None ∧ csvColumn (config g) = None ∧
       getLookupValues g = Done (lookupEntries inputValue) ∧
       Forall (fun v => v ≠ "" ∧ Str.trim v = v) (lookupEntries inputValue)).
Proof.
  split; [unfold onLookupValuesChange, updateField; apply length_map|].
  intros i g Hg. apply updateField_lookup in Hg as (g0 & Hg0 & ->).
  exists g0. split; [done|]. split.
  - intros Hne. by rewrite (proj2 (Str_eqb_false _ _) Hne).
  - intros Heq. rewrite (proj2 (Str_eqb_true _ _) Heq). simpl.
    repeat (split; [done|]). split.
    + unfold getLookupValues, manualLookupValues. simpl.
      by rewrite lookupEntries_nonblank.
    + unfold lookupEntries. apply Forall_forall. intros v Hv.
      apply list_elem_of_In, filter_In in Hv as [Hv Hlen].
      apply in_map_iff in Hv as (x & <- & _). split; [|apply trim_idem].
      intros E. rewrite E in Hlen. discriminate Hlen.
Qed.

Lemma updateField_Forall (P : FieldConfig → Prop) fields fieldId updates :
  Forall P fields →
  (∀ g, g ∈ fields → id g = fieldId → P (applyUpdates g updates)) →
  Forall P (updateField fields fieldId updates).
Proof.
  intros Hall Hupd. apply Forall_forall. intros g Hg.
  apply list_elem_of_lookup in Hg as (i & Hg).
  apply updateField_lookup in Hg as (g0 & Hg0 & ->).
  apply list_elem_of_lookup_2 in Hg0.
  destruct (Str.eqb (id g0) fieldId) eqn:E.
  - apply Hupd; [done|]. by apply Str_eqb_true.
  - rewrite Forall_forall in Hall. by apply Hall.
Qed.

(** X26: the handlers that set up a lookup source keep the sources
    exclusive: if no field has both a selected column and manual values,
    this still holds after a new field was added, a field was removed,
    values were entered by hand, a file was uploaded or a column was
    selected.  For such a field a column that is missing from the header
    row resolves to no value at all. *)
Theorem exclusiveSources_kept fields :
  Forall exclusiveSources fields →
  (∀ w c, ∃ fields' c', addField fields w c = Returns fields' c' ∧
                        Forall exclusiveSources fields') ∧
  (∀ fieldId, Forall exclusiveSources (removeField fields fieldId)) ∧
  (∀ field inputValue,
     Forall exclusiveSources (onLookupValuesChange fields field inputValue)) ∧
  (∀ fieldId text,
     Forall exclusiveSources (handleCsvUpload fields fieldId text)) ∧
  (∀ field col,
     Forall exclusiveSources (onCsvColumnChange fields field col)) ∧
  (∀ field checked,
     Forall exclusiveSources (onNegativeTestsChange fields field checked)) ∧
  (∀ f header rows col,
     f ∈ fields →
     csvData (config f) = Some (header :: rows) →
     csvColumn (config f) = Some col → col ≠ "" → col ∉ header →
     getLookupValues f = Done []).
Proof.
  intros Hall. repeat split.
  - intros w c. unfold addField, bind, Date_now, ret. eexists _, _.
    split; [reflexivity|]. apply Forall_app. split; [done|].
    apply Forall_cons. split; [|apply Forall_nil_2]. by intros H.
  - intros fieldId. unfold removeField. apply Forall_forall. intros g Hg.
    apply list_elem_of_In, filter_In in Hg as [Hg _].
    rewrite Forall_forall in Hall. by apply Hall, list_elem_of_In.
  - intros field inputValue. unfold onLookupValuesChange.
    apply updateField_Forall; [done|]. by intros g _ _ H.
  - intros fieldId text. unfold handleCsvUpload.
    destruct (parseCsvFile text) as [grid|msg]; [|done].
    apply updateField_Forall; [done|]. intros g _ _.
    unfold exclusiveSources. simpl.
    destruct (List.find (fun f => Str.eqb (id f) fieldId) fields)
      as [f0|] eqn:Efind; [|done].
    apply find_some in Efind as [Hf0 _].
    rewrite Forall_forall in Hall. by apply Hall, list_elem_of_In.
  - intros field col. unfold onCsvColumnChange.
    apply updateField_Forall; [done|]. by intros g _ _ H.
  - intros field checked. unfold onNegativeTestsChange.
    apply updateField_Forall; [done|]. intros g Hg _.
    rewrite Forall_forall in Hall. exact (Hall g Hg).
  - intros f header rows col Hf Hdata Hcol Hne Hnot.
    rewrite Forall_forall in Hall. specialize (Hall f Hf).
    unfold exclusiveSources in Hall. rewrite Hcol in Hall. simpl in Hall.
    specialize (Hall (proj2 (Str_truthy_true col) Hne)).
    unfold getLookupValues. rewrite Hdata, Hcol.
    rewrite (proj2 (Str_truthy_true col) Hne), (indexOf_None _ _ Hnot).
    by rewrite manualLookupValues_unset.
Qed.

Lemma exclusiveSources_kept_witness :
  getLookupValues Sample.missingColumn = Done [] ∧
  Forall exclusiveSources
    (onLookupValuesChange [Sample.missingColumn] Sample.missingColumn "x, y").
Proof.
  destruct (exclusiveSources_kept [Sample.missingColumn])
    as (_ & _ & Hmanual & _ & _ & _ & Hmissing).
  - apply Forall_cons. split; [intros _; reflexivity|apply Forall_nil_2].
  - split; [|apply Hmanual].
    apply (Hmissing Sample.missingColumn ["name"] [["x"]] "age");
      [left | reflexivity | reflexivity | discriminate |].
    intros H. str_not_in H.
Defined.

Lemma generateTestData_emptyGrid fields f n incl w c :
  f ∈ fields → emptyGrid f = true →
  generateTestData fields n incl w c = Throws TypeError.
Proof.
  intros Hf Hgrid. unfold generateTestData, positiveRecords, bind, lift.
  by rewrite (lookupFieldsOf_emptyGrid fields f Hf Hgrid).
Qed.

Lemma csvLines_blank text :
  Forall (fun line => Str.trim line = "") (Str.split_at LF text) →
  csvLines text = [].
Proof.
  unfold csvLines. induction 1 as [|line l Hline _ IH]; [done|].
  simpl. by rewrite Hline.
Qed.

Lemma handleCsvUpload_resolved fields fieldId text grid f0 g :
  parseCsvFile text = Resolved grid →
  List.find (fun f => Str.eqb (id f) fieldId) fields = Some f0 →
  g ∈ handleCsvUpload fields fieldId text → id g = fieldId →
  csvData (config g) = Some grid ∧
  csvColumn (config g) = csvColumn (config f0).
Proof.
  intros Hparse Hfind Hg Hid. unfold handleCsvUpload in Hg.
  rewrite Hparse, Hfind in Hg.
  apply list_elem_of_lookup in Hg as (i & Hg).
  apply updateField_lookup in Hg as (g0 & Hg0 & ->).
  destruct (Str.eqb (id g0) fieldId) eqn:E; [done|].
  by apply Str_eqb_false in E.
Qed.

(** X27: a file that is not empty but has only blank lines is accepted with
    an empty grid.  Uploaded for a lookup field whose column was selected
    before, it leaves every field with that identifier with a column over a
    grid without header row, and every later run throws [TypeError]. *)
Theorem blank_upload_breaks_generation fields fieldId text f0 :
  text ≠ "" →
  Forall (fun line => Str.trim line = "") (Str.split_at LF text) →
  List.find (fun f => Str.eqb (id f) fieldId) fields = Some f0 →
  opt_str_truthy (csvColumn (config f0)) = true →
  dataType f0 = dt_lookup →
  parseCsvFile text = Resolved [] ∧
  (∀ g, g ∈ handleCsvUpload fields fieldId text → id g = fieldId →
        csvData (config g) = Some [] ∧
        csvColumn (config g) = csvColumn (config f0)) ∧
  ∀ n incl w c,
    generateTestData (handleCsvUpload fields fieldId text) n incl w c
    = Throws TypeError.
Proof.
  intros Htext Hblank Hfind Hcol Hdt.
  assert (Hparse : parseCsvFile text = Resolved []).
  { unfold parseCsvFile, parseCsvText.
    rewrite (proj2 (Str_is_empty_false text) Htext).
    by rewrite csvLines_blank. }
  pose proof (find_some _ _ Hfind) as [Hf0 Hid0].
  apply list_elem_of_In in Hf0. apply Str_eqb_true in Hid0.
  split; [exact Hparse|]. split.
  - intros g. by apply handleCsvUpload_resolved.
  - intros n incl w c.
    apply list_elem_of_lookup in Hf0 as (i & Hi).
    apply (generateTestData_emptyGrid _
             (applyUpdates f0
                (mkUpdates None None None None None None None
                   (Some (withCsvData (config f0) []))))).
    + unfold handleCsvUpload. rewrite Hparse, Hfind.
      apply list_elem_of_lookup. exists i. apply updateField_lookup.
      exists f0. split; [done|].
      by rewrite (proj2 (Str_eqb_true _ _) Hid0).
    + unfold emptyGrid. simpl. rewrite Hcol.
      by rewrite !bool_decide_eq_true_2.
Qed.

Lemma blank_upload_breaks_generation_witness :
  parseCsvFile (String LF (String LF "")) = Resolved [] ∧
  generateTestData
    (handleCsvUpload [Sample.missingColumn] "1" (String LF (String LF "")))
    5 false Sample.world Sample.start = Throws TypeError.
Proof.
  destruct (blank_upload_breaks_generation [Sample.missingColumn] "1"
              (String LF (String LF "")) Sample.missingColumn)
    as (Hparse & _ & Hrun);
    [discriminate | | reflexivity | reflexivity | reflexivity |].
  - repeat (apply Forall_cons; split; [reflexivity|]). apply Forall_nil_2.
  - split; [exact Hparse|apply Hrun].
Defined.

(** X28: the check box for negative tests cannot opt out a field that is
    automatically eligible: whether the box of a named such field is ticked
    or not, the field is a target of the next run; and no box changes
    which fields are automatically eligible. *)
Theorem auto_eligible_stays_target fields field checked :
  field ∈ fields →
  shouldAutoEnableNegativeTests field = true →
  name field ≠ "" →
  (∀ incl,
     applyUpdates field
       (mkUpdates None None None None None None (Some (Some checked)) None)
     ∈ negativeTargets (onNegativeTestsChange fields field checked) incl) ∧
  List.map shouldAutoEnableNegativeTests
           (onNegativeTestsChange fields field checked)
  = List.map shouldAutoEnableNegativeTests fields ∧
  List.map name (onNegativeTestsChange fields field checked)
  = List.map name fields.
Proof.
  intros Hin Hauto Hname.
  assert (Hsame : ∀ g u,
            shouldAutoEnableNegativeTests
              (applyUpdates g
                 (mkUpdates None None None None None None (Some u) None))
            = shouldAutoEnableNegativeTests g) by done.
  assert (Hmem : applyUpdates field
                   (mkUpdates None None None None None None
                              (Some (Some checked)) None)
                 ∈ onNegativeTestsChange fields field checked).
  { apply list_elem_of_lookup in Hin as (i & Hi).
    apply list_elem_of_lookup. exists i. apply updateField_lookup.
    exists field. split; [done|].
    by rewrite (proj2 (Str_eqb_true _ _) eq_refl). }
  split; [|split].
  - intros incl. apply negativeTargets_elem. split; [|split; [|split]].
    + unfold shouldIncludeNegativeTests. apply orb_true_iff. right.
      apply existsb_exists. eexists. split; [by apply list_elem_of_In|].
      by rewrite Hsame.
    + done.
    + right. by rewrite Hsame.
    + done.
  - unfold onNegativeTestsChange, updateField. rewrite List.map_map.
    apply map_ext. intros g. by destruct (Str.eqb (id g) (id field)).
  - unfold onNegativeTestsChange, updateField. rewrite List.map_map.
    apply map_ext. intros g. by destruct (Str.eqb (id g) (id field)).
Qed.

Lemma auto_eligible_stays_target_witness :
  ∃ f, onNegativeTestsChange [Sample.username] Sample.username false = [f] ∧
       generateNegativeTests f = Some false ∧
       f ∈ negativeTargets [f] false.
Proof.
  destruct (auto_eligible_stays_target [Sample.username] Sample.username
              false) as (Htarget & _); [left|reflexivity|discriminate|].
  eexists. split; [reflexivity|]. split; [reflexivity|].
  apply (Htarget false).
Defined.
